(** * Natural-forest classification lambda: a shallow embedding

    The repository holds two copies of the same lambda,
    [src/backend/lambda/lambda_function.py] and
    [src/lambda/lambda_function.py].  Functions that are the same in both
    copies (up to the names of local variables and to log lines) are embedded
    once; where the copies differ, the function takes the copy as an
    argument ([Backend] for the first file, [Legacy] for the second) and
    branches on it at the lines that differ.

    Conventions of the embedding.
    - A Python [float] is an exact rational ([Q]); [int] is [Z].  Float
      rounding error is outside the model, the arithmetic structure is not.
    - [math.cos(math.radians(x))] is a parameter ([cos_deg]) of the functions
      that call it.
    - The satellite provider, the HTTP layer, the geometry and image
      libraries and object storage are external: their functions are the
      fields of [Externals], their answers during a run are read from a
      [World] record, and the effects of the lambda are logged in a [Store].
    - A raised exception is a value of [exn]; a pure function that can raise
      returns in [Res], a function with effects in the monad [M]. *)

From Stdlib Require Import ZArith QArith Qround Qminmax List Finite String Ascii Bool Lia Lqa.
From Stdlib Require Import Permutation Sorted Qabs.
Import ListNotations.

Set Implicit Arguments.

Open Scope Z_scope.
Open Scope Q_scope.

(* ------------------------------------------------------------------------- *)
(** * Python numerics *)

Module PyNum.

(** [int(x)] on a float: truncation toward zero. *)
Definition py_int (x : Q) : Z :=
  if Qle_bool 0 x then Qfloor x else Qceiling x.

(** [math.ceil(x)]. *)
Definition py_ceil (x : Q) : Z := Qceiling x.

(** Rounding of a rational to the nearest integer, ties to even. *)
Definition round_half_even (x : Q) : Z :=
  let f := Qfloor x in
  match Qcompare (x - inject_Z f) (1 # 2) with
  | Lt => f
  | Gt => (f + 1)%Z
  | Eq => if Z.even f then f else (f + 1)%Z
  end.

(** [round(x, 5)]. *)
Definition round5 (x : Q) : Q :=
  Qred (inject_Z (round_half_even (x * 100000)) / 100000).

(** [round(x, 2)]. *)
Definition round2 (x : Q) : Q :=
  Qred (inject_Z (round_half_even (x * 100)) / 100).

(** Truthiness of a number: [if x] holds when [x] is not zero. *)
Definition truthy (x : Q) : bool := negb (Qeq_bool x 0).

(** [range(n)]. *)
Definition py_range (n : Z) : list Z := map Z.of_nat (seq 0 (Z.to_nat n)).

End PyNum.
Import PyNum.

(* ------------------------------------------------------------------------- *)
(** * Python strings: [os.path.basename] and [sanitize_filename] *)

Module PyStr.

Fixpoint mem (c : ascii) (s : string) : bool :=
  match s with
  | EmptyString => false
  | String a r => if Ascii.eqb a c then true else mem c r
  end.

(** [s.rfind(c)]: index of the last occurrence of [c], [-1] when absent. *)
Fixpoint rfind (c : ascii) (s : string) : Z :=
  match s with
  | EmptyString => (-1)%Z
  | String a r =>
      let i := rfind c r in
      if (0 <=? i)%Z then (i + 1)%Z
      else if Ascii.eqb a c then 0%Z else (-1)%Z
  end.

(** [s[i:]] for [0 <= i]. *)
Fixpoint drop (n : nat) (s : string) : string :=
  match n, s with
  | O, _ => s
  | S _, EmptyString => EmptyString
  | S k, String _ r => drop k r
  end.

Fixpoint map_chars (f : ascii -> ascii) (s : string) : string :=
  match s with
  | EmptyString => EmptyString
  | String a r => String (f a) (map_chars f r)
  end.

(** [s.endswith(t)]. *)
Definition endswith (s t : string) : bool :=
  let n := String.length s in
  let m := String.length t in
  if (m <=? n)%nat then String.eqb (drop (n - m) s) t else false.

End PyStr.

(** [posixpath.basename]: [i = p.rfind('/') + 1; return p[i:]]. *)
Definition basename (p : string) : string :=
  let i := (PyStr.rfind "/"%char p + 1)%Z in
  PyStr.drop (Z.to_nat i) p.

Definition safe_chars : string :=
  "abcdefghijklmnopqrstuvwxyzABCDEFGHIJKLMNOPQRSTUVWXYZ0123456789._-".

Definition sanitize_filename (filename : string) : string :=
  let filename := basename filename in
  PyStr.map_chars
    (fun c => if PyStr.mem c safe_chars then c else "_"%char) filename.

(** The upload branch of [lambda_handler], up to the object key: the
    requested name ([uuid_name] stands for the generated default, used when
    the request carries no [filename]) gets its [.json] suffix, is sanitized,
    and is placed under [uploads/]. *)
Definition upload_filename (requested : option string) (uuid_name : string)
  : string :=
  let filename := match requested with Some f => f | None => uuid_name end in
  let filename :=
    if PyStr.endswith filename ".json" then filename
    else (filename ++ ".json")%string in
  sanitize_filename filename.

Definition upload_s3_key (requested : option string) (uuid_name : string)
  : string :=
  ("uploads/" ++ upload_filename requested uuid_name)%string.

(* ------------------------------------------------------------------------- *)
(** * Exceptions and fallible computations *)

Inductive exn : Type :=
| ZeroDivisionError
| IndexError
| ValueError
| TypeError
| ProviderError.   (* anything raised by an external collaborator *)

(** A pure computation that may raise. *)
Definition Res (A : Type) : Type := (exn + A)%type.

Definition ok {A} (a : A) : Res A := inr a.
Definition raise {A} (e : exn) : Res A := inl e.

Definition rbind {A B} (m : Res A) (k : A -> Res B) : Res B :=
  match m with
  | inl e => inl e
  | inr a => k a
  end.

Declare Scope res_scope.
Delimit Scope res_scope with res.
Notation "x <- m ;; k" := (rbind m (fun x => k))
  (at level 61, m at next level, right associativity) : res_scope.

(** [a / b] on floats. *)
Definition py_div (a b : Q) : Res Q :=
  if Qeq_bool b 0 then raise ZeroDivisionError else ok (a / b).

(** [l[i]], with Python's negative indices. *)
Definition py_index {A} (l : list A) (i : Z) : Res A :=
  let n := Z.of_nat (List.length l) in
  let j := if (i <? 0)%Z then (i + n)%Z else i in
  if (j <? 0)%Z then raise IndexError
  else match nth_error l (Z.to_nat j) with
       | Some a => ok a
       | None => raise IndexError
       end.

Definition Qlt_bool (x y : Q) : bool := negb (Qle_bool y x).

(* ------------------------------------------------------------------------- *)
(** * Python dictionaries with string keys, in insertion order *)

Module PyDict.

Definition dict (V : Type) : Type := list (string * V).

Fixpoint get {V} (k : string) (d : dict V) : option V :=
  match d with
  | [] => None
  | (k', v) :: r => if String.eqb k' k then Some v else get k r
  end.

(** [d[k] = v]: an existing key keeps its place. *)
Fixpoint set {V} (k : string) (v : V) (d : dict V) : dict V :=
  match d with
  | [] => [(k, v)]
  | (k', v') :: r =>
      if String.eqb k' k then (k', v) :: r else (k', v') :: set k v r
  end.

(** [d.setdefault(k, v)], for its effect on [d]. *)
Definition setdefault {V} (k : string) (v : V) (d : dict V) : dict V :=
  match get k d with
  | Some _ => d
  | None => set k v d
  end.

Definition values {V} (d : dict V) : list V := map snd d.

End PyDict.

(* ------------------------------------------------------------------------- *)
(** * StatsEngine: [calculate_area_statistics] *)

Definition CLASS_NAMES : list string :=
  ["water"; "trees"; "grass"; "flooded_vegetation"; "crops"; "shrub_and_scrub";
   "built"; "bare"; "snow_and_ice"; "cloud"; "natural_forest"]%string.

(** The histogram the provider returns: class code (the key, already through
    [int(k)]) and count, in the order of [hist.items()]. *)
Definition Histogram : Type := list (Z * Q).

(** The [land_cover_classes] entry of one class. *)
Record ClassEntry : Type := mkClassEntry {
  area_km2 : Q;
  percentage : Q
}.

(** The statistics document. *)
Record Stats : Type := mkStats {
  date : string;
  total_area_km2 : Q;
  forest_area_km2 : Q;
  natural_forest_km2 : Q;
  natural_forest_percentage : Q;
  other_trees_km2 : Q;
  other_trees_percentage : Q;
  land_cover_classes : PyDict.dict ClassEntry
}.

(** [sum(xs)]. *)
Definition py_sum (xs : list Q) : Q := fold_left Qplus xs 0.

(** [sorted(items, key=lambda x: x[1], reverse=True)]: stable, descending. *)
Fixpoint insert_desc {A} (x : A * Q) (l : list (A * Q)) : list (A * Q) :=
  match l with
  | [] => [x]
  | y :: r => if Qle_bool (snd y) (snd x) then x :: l else y :: insert_desc x r
  end.

Definition sorted_desc {A} (l : list (A * Q)) : list (A * Q) :=
  fold_right insert_desc [] l.

(** The two copies of the lambda. *)
Inductive Copy : Type :=
| Backend    (* src/backend/lambda/lambda_function.py *)
| Legacy.    (* src/lambda/lambda_function.py *)

(** The dictionary of counts per class name.  [Backend]:
    [{CLASS_NAMES[int(k)]: v for k, v in hist.items()
      if int(k) < len(CLASS_NAMES)}]; [Legacy] fills [class_pixels] with the
    same keys and values in a loop. *)
Fixpoint totals_from (hist : Histogram) (totals : PyDict.dict Q)
  : Res (PyDict.dict Q) :=
  match hist with
  | [] => ok totals
  | (k, v) :: r =>
      if (k <? Z.of_nat (List.length CLASS_NAMES))%Z then
        (name <- py_index CLASS_NAMES k ;;
         totals_from r (PyDict.set name v totals))%res
      else totals_from r totals
  end.

(** [Legacy] only: [total_pixels += pixel_count] in that same loop. *)
Fixpoint total_pixels_from (hist : Histogram) (total_pixels : Q) : Q :=
  match hist with
  | [] => total_pixels
  | (k, v) :: r =>
      if (k <? Z.of_nat (List.length CLASS_NAMES))%Z
      then total_pixels_from r (total_pixels + v)
      else total_pixels_from r total_pixels
  end.

(** [Backend]: [sum(totals.values())]. *)
Definition pixel_sum_of (copy : Copy) (hist : Histogram)
           (totals : PyDict.dict Q) : Q :=
  match copy with
  | Backend => py_sum (PyDict.values totals)
  | Legacy => total_pixels_from hist 0
  end.

(** The test guarding a division: [if x] in [Backend], [if x > 0] in
    [Legacy]. *)
Definition nonzero (copy : Copy) (x : Q) : bool :=
  match copy with
  | Backend => truthy x
  | Legacy => Qlt_bool 0 x
  end.

(** The area of one class.  [Backend]:
    [round((v/pixel_sum)*total_area, 5) if pixel_sum else 0.0]; [Legacy]:
    [proportion = pixels/total_pixels if total_pixels > 0 else 0] and
    [round(proportion * total_area, 5)]. *)
Definition class_area (copy : Copy) (v pixel_sum total_area : Q) : Q :=
  match copy with
  | Backend =>
      if truthy pixel_sum then round5 ((v / pixel_sum) * total_area) else 0
  | Legacy =>
      let proportion := if Qlt_bool 0 pixel_sum then v / pixel_sum else 0 in
      round5 (proportion * total_area)
  end.

(** [for k, v in totals.items(): areas[k] = ...] *)
Definition areas_from (copy : Copy) (totals : PyDict.dict Q)
           (pixel_sum total_area : Q) : PyDict.dict Q :=
  fold_left
    (fun areas kv =>
       PyDict.set (fst kv) (class_area copy (snd kv) pixel_sum total_area)
         areas)
    totals [].

(** [for name in CLASS_NAMES: areas.setdefault(name, 0.0)] *)
Definition with_defaults (areas : PyDict.dict Q) : PyDict.dict Q :=
  fold_left (fun areas name => PyDict.setdefault name 0 areas)
    CLASS_NAMES areas.

(** [areas[name]], read after every class name has been given its default. *)
Definition area_of (areas : PyDict.dict Q) (name : string) : Q :=
  match PyDict.get name areas with
  | Some a => a
  | None => 0
  end.

(** One [land_cover_classes] entry. *)
Definition class_entry (copy : Copy) (val total_area : Q) : ClassEntry :=
  match copy with
  | Backend =>
      {| area_km2 := val;
         percentage :=
           if truthy total_area then round5 ((val / total_area) * 100)
           else 0 |}
  | Legacy =>
      let percentage :=
        if Qlt_bool 0 total_area then (val / total_area) * 100 else 0 in
      {| area_km2 := round5 val; percentage := round5 percentage |}
  end.

(** The loop that fills [stats["land_cover_classes"]]. *)
Definition land_cover (copy : Copy) (areas : PyDict.dict Q) (total_area : Q)
  : PyDict.dict ClassEntry :=
  fold_left
    (fun classes nv =>
       if Qlt_bool 0 (snd nv)
       then PyDict.set (fst nv) (class_entry copy (snd nv) total_area) classes
       else classes)
    (sorted_desc areas) [].

(** The dictionary [areas] of [calculate_area_statistics], once the loop
    over [CLASS_NAMES] has given every class its default. *)
Definition class_areas (copy : Copy) (hist : Histogram) (total_area : Q)
  : Res (PyDict.dict Q) :=
  (totals <- totals_from hist [] ;;
   let pixel_sum := pixel_sum_of copy hist totals in
   ok (with_defaults (areas_from copy totals pixel_sum total_area)))%res.

(** The statistics part of [calculate_area_statistics]: from the histogram
    ([hist], after the [or {}]) to the [stats] dictionary. *)
Definition area_statistics (copy : Copy) (hist : Histogram) (total_area : Q)
           (image_date : string) : Res Stats :=
  (areas <- class_areas copy hist total_area ;;
   let nf_area := area_of areas "natural_forest" in
   let tree_area := area_of areas "trees" in
   let total_forest := nf_area + tree_area in
   ok {| date := image_date;
         total_area_km2 := round5 total_area;
         forest_area_km2 := round5 total_forest;
         natural_forest_km2 := round5 nf_area;
         natural_forest_percentage :=
           if nonzero copy total_forest
           then round5 ((nf_area / total_forest) * 100) else 0;
         other_trees_km2 := round5 tree_area;
         other_trees_percentage :=
           if nonzero copy total_forest
           then round5 ((tree_area / total_forest) * 100) else 0;
         land_cover_classes := land_cover copy areas total_area |})%res.

(* ------------------------------------------------------------------------- *)
(** * Geometry *)

Definition Coord : Type := (Q * Q)%type.
Definition Ring : Type := list Coord.

(** A shapely geometry, as far as the lambda looks into one: a polygon is
    an exterior ring with interior rings, a multi-polygon a list of these. *)
Inductive Geometry : Type :=
| Polygon (exterior : Ring) (interiors : list Ring)
| MultiPolygon (geoms : list (Ring * list Ring)).

(** [shapely.geometry.box(minx, miny, maxx, maxy)]. *)
Record Box : Type := box {
  box_x1 : Q;
  box_y1 : Q;
  box_x2 : Q;
  box_y2 : Q
}.

(** [b.bounds]: [(minx, miny, maxx, maxy)]. *)
Definition bounds (b : Box) : Q * Q * Q * Q :=
  (Qmin (box_x1 b) (box_x2 b), Qmin (box_y1 b) (box_y2 b),
   Qmax (box_x1 b) (box_x2 b), Qmax (box_y1 b) (box_y2 b)).

(** The points of a (closed) rectangle, and those of its interior. *)
Definition in_box (p : Coord) (b : Box) : Prop :=
  let '(minx, miny, maxx, maxy) := bounds b in
  minx <= fst p /\ fst p <= maxx /\ miny <= snd p /\ snd p <= maxy.

Definition in_interior (p : Coord) (b : Box) : Prop :=
  let '(minx, miny, maxx, maxy) := bounds b in
  minx < fst p /\ fst p < maxx /\ miny < snd p /\ snd p < maxy.

(* ------------------------------------------------------------------------- *)
(** * TilePlanner: [split_boundary_box] (the same in both copies) *)

Section TilePlanner.

(** [math.cos(math.radians(x))]. *)
Variable cos_deg : Q -> Q.
(** [rect.intersects(geometry)]. *)
Variable intersects : Box -> Geometry -> bool.
(** The global [total_shapely_polygon]. *)
Variable total_shapely_polygon : Geometry.

(** The rectangle of grid cell [(i, j)]. *)
Definition sub_rectangle (minx miny step_x step_y : Q) (i j : Z) : Box :=
  let sub_minx := minx + inject_Z i * step_x in
  let sub_maxx := minx + inject_Z (i + 1) * step_x in
  let sub_miny := miny + inject_Z j * step_y in
  let sub_maxy := miny + inject_Z (j + 1) * step_y in
  box sub_minx sub_miny sub_maxx sub_maxy.

(** The two nested loops: cell [(i, j)] for [i] in [range(num_x)] and [j]
    in [range(num_y)], appended when it intersects the polygon. *)
Definition grid (minx miny step_x step_y : Q) (num_x num_y : Z) : list Box :=
  flat_map
    (fun i =>
       filter (fun rect => intersects rect total_shapely_polygon)
         (map (sub_rectangle minx miny step_x step_y i) (py_range num_y)))
    (py_range num_x).

Definition split_boundary_box (boundary_box : Box) (max_size_km : Q)
  : Res (list Box) :=
  let '(minx, miny, maxx, maxy) := bounds boundary_box in
  let lat_mid := (miny + maxy) / 2 in
  let km_per_deg_lon := 111 * cos_deg lat_mid in
  let km_per_deg_lat := 111 in
  let width_km := (maxx - minx) * km_per_deg_lon in
  let height_km := (maxy - miny) * km_per_deg_lat in
  if Qle_bool width_km max_size_km && Qle_bool height_km max_size_km
  then ok [boundary_box]
  else
    let max_size_km :=
      if Qlt_bool 1000 (width_km * height_km)
      then Qmin 60 (Qmax 30 max_size_km) else max_size_km in
    (w <- py_div width_km max_size_km ;;
     let num_x := py_ceil w in
     h <- py_div height_km max_size_km ;;
     let num_y := py_ceil h in
     step_x <- py_div (maxx - minx) (inject_Z num_x) ;;
     step_y <- py_div (maxy - miny) (inject_Z num_y) ;;
     ok (grid minx miny step_x step_y num_x num_y))%res.

End TilePlanner.

(** The grid before the intersection filter: the planner run with a
    predicate that keeps every rectangle. *)
Definition keep_all (_ : Box) (_ : Geometry) : bool := true.

(** The local variables of [split_boundary_box], by name: the extents
    [width_km] and [height_km], the test of the single-tile path, the
    [max_size_km] in force after the clamp, and the counts [num_x], [num_y]
    for a given extent. *)
Definition box_km (cos_deg : Q -> Q) (boundary_box : Box) : Q * Q :=
  let '(minx, miny, maxx, maxy) := bounds boundary_box in
  let lat_mid := (miny + maxy) / 2 in
  ((maxx - minx) * (111 * cos_deg lat_mid), (maxy - miny) * 111).

Definition fits_single_tile (cos_deg : Q -> Q) (boundary_box : Box)
           (max_size_km : Q) : bool :=
  let '(width_km, height_km) := box_km cos_deg boundary_box in
  Qle_bool width_km max_size_km && Qle_bool height_km max_size_km.

Definition effective_max_size (cos_deg : Q -> Q) (boundary_box : Box)
           (max_size_km : Q) : Q :=
  let '(width_km, height_km) := box_km cos_deg boundary_box in
  if Qlt_bool 1000 (width_km * height_km)
  then Qmin 60 (Qmax 30 max_size_km) else max_size_km.

Definition grid_counts (cos_deg : Q -> Q) (boundary_box : Box) (size_km : Q)
  : Z * Z :=
  let '(width_km, height_km) := box_km cos_deg boundary_box in
  (py_ceil (width_km / size_km), py_ceil (height_km / size_km)).

(* ------------------------------------------------------------------------- *)
(** * The store of effects and the monad of the stateful functions *)

(** The acquisition date [image_date], a ['YYYY-MM-dd'] string from the
    provider, by its three numbers: two date strings are equal exactly when
    their triples are. *)
Record Date : Type := mkDate {
  year : Z;
  month : Z;
  day : Z
}.

Definition date_eqb (a b : Date) : bool :=
  (year a =? year b)%Z && (month a =? month b)%Z && (day a =? day b)%Z.

(** A decoded raster. *)
Record Image : Type := mkImage {
  img_width : Z;
  img_height : Z;
  img_tag : nat
}.

(** The provider's geometry built by [shapely_to_ee]. *)
Inductive EEGeometry : Type :=
| EEPolygon (rings : list Ring)
| EEMultiPolygon (polys : list (list Ring)).

(** The protected-area mask expression: the collection it is reduced from
    and the boundary it is filtered and clipped by. *)
Record Mask : Type := mkMask {
  wdpa_path : string;
  mask_boundary : EEGeometry
}.

(** One tile pasted on the canvas: offset and size. *)
Record Paste : Type := mkPaste {
  paste_x : Z;
  paste_y : Z;
  paste_w : Z;
  paste_h : Z;
  paste_img : Image
}.

(** What a written file holds. *)
Inductive Artifact : Type :=
| PngFile (canvas_w canvas_h final_w final_h : Z) (pastes : list Paste)
| StatsFile (stats : Stats).

Record Store : Type := mkStore {
  ee_cache : list (string * EEGeometry);     (* lru_cache of shapely_to_ee *)
  pa_cache : list ((string * Date) * Mask);  (* lru_cache of get_protected_areas *)
  remote_calls : nat;    (* protected-area computations asked of the provider *)
  attempts : nat;        (* tile download attempts started *)
  slept : list Q;        (* arguments of time.sleep, latest first *)
  files : list (string * Artifact);          (* local files, latest first *)
  s3_objects : list (string * string)        (* uploads: key and local file *)
}.

Definition empty_store : Store := mkStore [] [] 0 0 [] [] [].

Definition set_ee_cache (c : list (string * EEGeometry)) (s : Store) : Store :=
  mkStore c (pa_cache s) (remote_calls s) (attempts s) (slept s) (files s)
    (s3_objects s).
Definition set_pa_cache (c : list ((string * Date) * Mask)) (s : Store)
  : Store :=
  mkStore (ee_cache s) c (remote_calls s) (attempts s) (slept s) (files s)
    (s3_objects s).
Definition tick_remote (s : Store) : Store :=
  mkStore (ee_cache s) (pa_cache s) (S (remote_calls s)) (attempts s)
    (slept s) (files s) (s3_objects s).
Definition tick_attempt (s : Store) : Store :=
  mkStore (ee_cache s) (pa_cache s) (remote_calls s) (S (attempts s))
    (slept s) (files s) (s3_objects s).
Definition log_sleep (d : Q) (s : Store) : Store :=
  mkStore (ee_cache s) (pa_cache s) (remote_calls s) (attempts s)
    (d :: slept s) (files s) (s3_objects s).
Definition log_file (path : string) (a : Artifact) (s : Store) : Store :=
  mkStore (ee_cache s) (pa_cache s) (remote_calls s) (attempts s) (slept s)
    ((path, a) :: files s) (s3_objects s).
Definition log_upload (key file : string) (s : Store) : Store :=
  mkStore (ee_cache s) (pa_cache s) (remote_calls s) (attempts s) (slept s)
    (files s) ((key, file) :: s3_objects s).

(** A computation that reads and changes the store and may raise; what it
    did before raising stays done. *)
Definition M (A : Type) : Type := Store -> Res A * Store.

Definition ret {A} (a : A) : M A := fun s => (ok a, s).
Definition throw {A} (e : exn) : M A := fun s => (raise e, s).
Definition bind {A B} (m : M A) (k : A -> M B) : M B :=
  fun s =>
    match m s with
    | (inl e, s') => (inl e, s')
    | (inr a, s') => k a s'
    end.
Definition lift {A} (r : Res A) : M A := fun s => (r, s).
Definition modify (f : Store -> Store) : M unit := fun s => (ok tt, f s).
Declare Scope m_scope.
Delimit Scope m_scope with m.
Notation "x <- m ;; k" := (bind m (fun x => k))
  (at level 61, m at next level, right associativity) : m_scope.
Notation "m ;;; k" := (bind m (fun _ => k))
  (at level 61, right associativity) : m_scope.

(* ------------------------------------------------------------------------- *)
(** * GeometryCache: [functools.lru_cache], [shapely_to_ee],
      [get_protected_areas] (the same in both copies) *)

Section LruCache.

Variables K V : Type.
Variable keqb : K -> K -> bool.
Variable maxsize : nat.
Variable get_cache : Store -> list (K * V).   (* most recently used first *)
Variable set_cache : list (K * V) -> Store -> Store.

Fixpoint lru_find (k : K) (c : list (K * V)) : option V :=
  match c with
  | [] => None
  | (k', v) :: r => if keqb k' k then Some v else lru_find k r
  end.

Definition lru_remove (k : K) (c : list (K * V)) : list (K * V) :=
  filter (fun kv => negb (keqb (fst kv) k)) c.

(** The wrapper [lru_cache(maxsize)] puts around [body]: a hit returns the
    stored value and makes the key the most recent one; a miss runs the
    body, stores its value and evicts the least recently used entry when
    the cache is full; an exception stores nothing. *)
Definition lru_cached (body : K -> M V) (k : K) : M V :=
  fun s =>
    match lru_find k (get_cache s) with
    | Some v => (ok v, set_cache ((k, v) :: lru_remove k (get_cache s)) s)
    | None =>
        match body k s with
        | (inl e, s') => (inl e, s')
        | (inr v, s') =>
            (ok v, set_cache (firstn maxsize ((k, v) :: get_cache s')) s')
        end
    end.

End LruCache.

(** The external functions the lambda calls. *)
Record Externals : Type := mkExternals {
  x_cos_deg : Q -> Q;                      (* math.cos(math.radians(x)) *)
  x_intersects : Box -> Geometry -> bool;  (* rect.intersects(geometry) *)
  x_wkt : Geometry -> string;              (* geometry.wkt *)
  x_box_wkt : Box -> string;               (* rect.wkt *)
  x_wkt_loads : string -> Res Geometry;    (* wkt.loads(text) *)
  x_collection_ok : string -> bool;        (* ee.FeatureCollection(path) does not raise *)
  x_fmt_signed : Q -> string;              (* f"{x:+.2f}" *)
  x_presign : string -> string -> Res string  (* generate_presigned_url *)
}.

Definition digit (d : Z) : ascii := ascii_of_nat (48 + Z.to_nat d).

(** The last [width] decimal digits of [n], zero padded. *)
Fixpoint zero_pad (width : nat) (n : Z) : string :=
  match width with
  | O => EmptyString
  | S w => (zero_pad w (n / 10) ++ String (digit (n mod 10)) EmptyString)%string
  end.

(** The ['YYYY-MM-dd'] text of a date and its [strftime('%Y%m')]. *)
Definition date_str (d : Date) : string :=
  (zero_pad 4 (year d) ++ "-" ++ zero_pad 2 (month d) ++ "-"
     ++ zero_pad 2 (day d))%string.

Definition yyyymm_of (d : Date) : string :=
  (zero_pad 4 (year d) ++ zero_pad 2 (month d))%string.

Section GeometryCache.

Variable X : Externals.

Definition to_ee (poly : Geometry) : EEGeometry :=
  match poly with
  | MultiPolygon geoms =>
      EEMultiPolygon (map (fun p => fst p :: snd p) geoms)
  | Polygon exterior interiors => EEPolygon (exterior :: interiors)
  end.

(** [@lru_cache(maxsize=128) def shapely_to_ee(poly_wkt)] *)
Definition shapely_to_ee : string -> M EEGeometry :=
  lru_cached String.eqb 128 ee_cache set_ee_cache
    (fun poly_wkt =>
       (poly <- lift (x_wkt_loads X poly_wkt) ;;
        ret (to_ee poly))%m).

Definition pa_key_eqb (a b : string * Date) : bool :=
  String.eqb (fst a) (fst b) && date_eqb (snd a) (snd b).

(** The body of [get_protected_areas], on its two arguments (the date
    argument is the [str] the pipeline passes).  Building the mask is the
    request to the provider that the cache is there to save. *)
Definition get_protected_areas_body (args : string * Date) : M Mask :=
  let '(boundary_wkt, target_date_str) := args in
  (boundary <- shapely_to_ee boundary_wkt ;;
   let yyyymm := yyyymm_of target_date_str in
   let path := ("WCMC/WDPA/" ++ yyyymm ++ "/polygons")%string in
   let wdpa :=
     if x_collection_ok X path then path
     else "WCMC/WDPA/current/polygons"%string in
   modify tick_remote ;;;
   ret (mkMask wdpa boundary))%m.

(** [@lru_cache(maxsize=32) def get_protected_areas(boundary_wkt,
    target_date_str)]: the cache key is the pair of arguments. *)
Definition get_protected_areas (boundary_wkt : string)
           (target_date_str : Date) : M Mask :=
  lru_cached pa_key_eqb 32 pa_cache set_pa_cache
    get_protected_areas_body (boundary_wkt, target_date_str).

End GeometryCache.

(* ------------------------------------------------------------------------- *)
(** * TileFetcher: [export_sub_polygon_as_png] (the same in both copies) *)

(** What one download attempt meets. *)
Inductive Attempt : Type :=
| UrlError                 (* rgb.getDownloadURL raised *)
| TransportError           (* requests.get raised: timeout, connection *)
| HttpResponse (status_code : Z) (decoded : option Image).
    (* a response; [decoded] is what Image.open(...).convert('RGB') gives on
       its content, [None] when it raises *)

(** The attempt succeeds: status 200 and a content that decodes. *)
Definition succeeds (a : Attempt) : option Image :=
  match a with
  | HttpResponse status_code (Some img) =>
      if (status_code =? 200)%Z then Some img else None
  | _ => None
  end.

(** [for retry in range(max_retries): ...; return None].  Every branch that
    does not return sleeps two seconds: a status other than 200, and an
    exception raised anywhere in the [try]. *)
Fixpoint retry_loop (attempt_of : Z -> Attempt) (retries : list Z)
  : M (option Image) :=
  match retries with
  | [] => ret None
  | retry :: rest =>
      (modify tick_attempt ;;;
       match attempt_of retry with
       | HttpResponse status_code decoded =>
           if (status_code =? 200)%Z then
             match decoded with
             | Some img => ret (Some img)
             | None => modify (log_sleep 2) ;;; retry_loop attempt_of rest
             end
           else modify (log_sleep 2) ;;; retry_loop attempt_of rest
       | UrlError | TransportError =>
           modify (log_sleep 2) ;;; retry_loop attempt_of rest
       end)%m
  end.

(** The palette expression built before the loop is a lazy provider
    expression without effect; [attempt_of] is the provider's answer to each
    attempt for the given image and region. *)
Definition export_sub_polygon_as_png (attempt_of : Z -> Attempt)
           (max_retries : Z) : M (option Image) :=
  retry_loop attempt_of (py_range max_retries).

Definition default_max_retries : Z := 3.

(* ------------------------------------------------------------------------- *)
(** * MosaicCompositor: canvas size and [merge_images_properly] *)

(** A fetched tile ([Legacy] also stores [image_date] in it, unused). *)
Record TileResult : Type := mkTileResult {
  index : Z;
  png_image : Image;
  shapely_sub_rect : Box
}.

Definition max_dim : Z := 5000.

(** The canvas size computed at the head of [merge_images_properly], in two
    steps.  First [w_px] and [h_px] from the extent in metres ([h_m] is kept
    for the second step); the divisors are 10 and 20. *)
Definition pixel_size (cos_deg : Q -> Q) (boundary_box : Box) : Z * Z * Q :=
  let '(minx, miny, maxx, maxy) := bounds boundary_box in
  let lat_mid := (miny + maxy) / 2 in
  let m_per_deg_lon := 111000 * cos_deg lat_mid in
  let m_per_deg_lat := 111000 in
  let w_m := (maxx - minx) * m_per_deg_lon in
  let h_m := (maxy - miny) * m_per_deg_lat in
  let scale := if Qlt_bool 1000000000 (w_m * h_m) then 20 else 10 in
  let w_px := py_int (w_m / scale) in
  let h_px := py_int (h_m / scale) in
  (w_px, h_px, h_m).

(** Then the cap at [max_dim]: [if w_px > max_dim or h_px > max_dim] both
    sizes are divided by [factor], which is above 1 there.  [Legacy] divides
    the height in metres, not the height in pixels, by the factor. *)
Definition cap_size (copy : Copy) (w_px h_px : Z) (h_m : Q) : Z * Z :=
  if (max_dim <? w_px)%Z || (max_dim <? h_px)%Z then
    let factor :=
      Qmax (inject_Z w_px / inject_Z max_dim)
           (inject_Z h_px / inject_Z max_dim) in
    match copy with
    | Backend =>
        (py_int (inject_Z w_px / factor), py_int (inject_Z h_px / factor))
    | Legacy =>
        (py_int (inject_Z w_px / factor), py_int (h_m / factor))
    end
  else (w_px, h_px).

Definition canvas_size (copy : Copy) (cos_deg : Q -> Q) (boundary_box : Box)
  : Z * Z :=
  let '(w_px, h_px, h_m) := pixel_size cos_deg boundary_box in
  cap_size copy w_px h_px h_m.

(** [geo2px] of [merge_images_properly]; [Legacy] clamps to the canvas. *)
Definition geo2px (copy : Copy) (boundary_box : Box) (w_px h_px : Z)
           (lon lat : Q) : Res (Z * Z) :=
  let '(minx, miny, maxx, maxy) := bounds boundary_box in
  (fx <- py_div (lon - minx) (maxx - minx) ;;
   let x := py_int (fx * inject_Z w_px) in
   fy <- py_div (maxy - lat) (maxy - miny) ;;
   let y := py_int (fy * inject_Z h_px) in
   match copy with
   | Backend => ok (x, y)
   | Legacy =>
       ok (Z.max 0 (Z.min x (w_px - 1)), Z.max 0 (Z.min y (h_px - 1)))
   end)%res.

(** The paste loop: one [Paste] per result whose target rectangle is not
    degenerate. *)
Fixpoint paste_tiles (copy : Copy) (boundary_box : Box) (w_px h_px : Z)
         (results : list TileResult) : Res (list Paste) :=
  match results with
  | [] => ok []
  | res :: rest =>
      let '(smx, smy, sex, sey) := bounds (shapely_sub_rect res) in
      (p1 <- geo2px copy boundary_box w_px h_px smx sey ;;
       p2 <- geo2px copy boundary_box w_px h_px sex smy ;;
       let '(x1, y1) := p1 in
       let '(x2, y2) := p2 in
       tail <- paste_tiles copy boundary_box w_px h_px rest ;;
       if (x2 - x1 <=? 0)%Z || (y2 - y1 <=? 0)%Z then ok tail
       else ok (mkPaste x1 y1 (x2 - x1) (y2 - y1) (png_image res) :: tail))%res
  end.

(** The exterior rings [create_boundary_mask] fills. *)
Definition exterior_rings (g : Geometry) : list Ring :=
  match g with
  | MultiPolygon geoms => map fst geoms
  | Polygon exterior _ => [exterior]
  end.

(** [create_boundary_mask], up to the vertices it draws: each exterior
    vertex through the clamped [geo2px] of that function. *)
Fixpoint mask_vertices (boundary_box : Box) (w_px h_px : Z) (ring : Ring)
  : Res (list (Z * Z)) :=
  match ring with
  | [] => ok []
  | (lon, lat) :: rest =>
      (p <- geo2px Legacy boundary_box w_px h_px lon lat ;;
       tail <- mask_vertices boundary_box w_px h_px rest ;;
       ok (p :: tail))%res
  end.

Fixpoint create_boundary_mask (boundary_box : Box) (w_px h_px : Z)
         (rings : list Ring) : Res (list (list (Z * Z))) :=
  match rings with
  | [] => ok []
  | ring :: rest =>
      (r <- mask_vertices boundary_box w_px h_px ring ;;
       tail <- create_boundary_mask boundary_box w_px h_px rest ;;
       ok (r :: tail))%res
  end.

(** [create_final_image_with_legend], up to the size of the final image:
    eleven labels, thirty pixels each in [Backend], fifty in [Legacy]. *)
Definition final_size (copy : Copy) (mw mh : Z) : Z * Z :=
  let legend_w := 200%Z in
  let legend_h :=
    match copy with
    | Backend => (11 * 30 + 20)%Z
    | Legacy => (11 * 50 + 20)%Z
    end in
  ((mw + legend_w + 20)%Z, (Z.max mh legend_h + 60)%Z).

Section Compositor.

Variable copy : Copy.
Variable X : Externals.
(** The globals [boundary_box] and [total_shapely_polygon]. *)
Variable boundary_box : Box.
Variable total_shapely_polygon : Geometry.

(** [f"{center_lat:+.2f}{center_lon:+.2f}"] *)
Definition lat_long_of : string :=
  let '(minx, miny, maxx, maxy) := bounds boundary_box in
  let center_lat := round2 ((miny + maxy) / 2) in
  let center_lon := round2 ((minx + maxx) / 2) in
  (x_fmt_signed X center_lat ++ x_fmt_signed X center_lon)%string.

(** [results] holds the harvested tiles: the filter at the head of the
    function ([if r], and in [Legacy] a stored image that is not [None])
    keeps every one of them. *)
Definition merge_images_properly (results : list TileResult)
           (output_dir : string) (image_date : Date) : M (option string) :=
  match results with
  | [] => ret None
  | _ :: _ =>
      let '(w_px, h_px) := canvas_size copy (x_cos_deg X) boundary_box in
      (pastes <- lift (paste_tiles copy boundary_box w_px h_px results) ;;
       mask <- lift (create_boundary_mask boundary_box w_px h_px
                       (exterior_rings total_shapely_polygon)) ;;
       let outfile :=
         (output_dir ++ "/" ++ date_str image_date ++ "-" ++ lat_long_of
            ++ "-natural_forest_classification.png")%string in
       let '(final_w, final_h) := final_size copy w_px h_px in
       modify (log_file outfile (PngFile w_px h_px final_w final_h pastes)) ;;;
       ret (Some outfile))%m
  end.

End Compositor.

(* ------------------------------------------------------------------------- *)
(** * The run: provider answers, FetchCoordinator, pipeline, handler *)

(** One Sentinel-2 scene of the requested range and region. *)
Record Scene : Type := mkScene {
  cloudy_pixel_percentage : Q;
  time_start : Date
}.

(** The uploaded document, after [json.load]. *)
Record UserData : Type := mkUserData {
  ud_area : Q;                 (* data.get('area', 0) *)
  ud_city_geometry : Geometry; (* wkt.loads(data['city_geometry']) *)
  ud_bbox_west : Q;
  ud_bbox_south : Q;
  ud_bbox_east : Q;
  ud_bbox_north : Q
}.

(** Everything the outside answers during one run. *)
Record World : Type := mkWorld {
  w_setup : Res unit;           (* downloads, key file, ee.Initialize *)
  w_user_data : Res UserData;   (* reading and parsing the document *)
  w_scenes : Res (list Scene);  (* S2 scenes in the date range and region *)
  w_dw_size : Res Z;            (* dw_collection.size().getInfo() *)
  w_histogram : Res (option Histogram);  (* reduceRegion(...).getInfo() *)
  w_tile_attempt : Box -> Z -> Attempt;  (* per tile, per attempt *)
  w_completion : list nat       (* as_completed: positions of the futures *)
}.

(** [.sort('CLOUDY_PIXEL_PERCENTAGE')]: ascending. *)
Fixpoint insert_scene (x : Scene) (l : list Scene) : list Scene :=
  match l with
  | [] => [x]
  | y :: r =>
      if Qle_bool (cloudy_pixel_percentage x) (cloudy_pixel_percentage y)
      then x :: l else y :: insert_scene x r
  end.

Definition sort_scenes (l : list Scene) : list Scene :=
  fold_right insert_scene [] l.

(** The collection [s2]: scenes under 35 percent, least cloudy first. *)
Definition s2_collection (scenes : list Scene) : list Scene :=
  sort_scenes
    (filter (fun s => Qlt_bool (cloudy_pixel_percentage s) 35) scenes).

(** The cloud threshold of each copy: [Backend] returns when the first
    scene is above 1; [Legacy] has only the collection filter at 35. *)
Definition cloud_threshold (copy : Copy) : Q :=
  match copy with
  | Backend => 1
  | Legacy => 35
  end.

(** Run a worker and keep what it raised as the outcome of its future. *)
Definition capture {A} (m : M A) : M (Res A) :=
  fun s => let '(r, s') := m s in (ok r, s').

Fixpoint enumerate_from {A} (i : Z) (l : list A) : list (Z * A) :=
  match l with
  | [] => []
  | a :: r => (i, a) :: enumerate_from (i + 1) r
  end.

Section Pipeline.

Variable copy : Copy.
Variable X : Externals.
Variable W : World.

Definition process_sub_polygon (args : Z * Box) : M (option TileResult) :=
  let '(idx, shapely_rect) := args in
  (ee_rect <- shapely_to_ee X (x_box_wkt X shapely_rect) ;;
   img <- export_sub_polygon_as_png (w_tile_attempt W shapely_rect)
            default_max_retries ;;
   match img with
   | None => ret None
   | Some img => ret (Some (mkTileResult idx img shapely_rect))
   end)%m.

(** The futures, in submission order.  The workers run in a pool; their
    effects on the store are logged here one worker after the other. *)
Fixpoint run_workers (args : list (Z * Box))
  : M (list (Res (option TileResult))) :=
  match args with
  | [] => ret []
  | a :: rest =>
      (r <- capture (process_sub_polygon a) ;;
       tail <- run_workers rest ;;
       ret (r :: tail))%m
  end.

(** The harvest loop over [as_completed(futures)]: a result is kept when
    the future returned one; [None] and exceptions are dropped. *)
Definition harvest (futures : list (Res (option TileResult)))
  : list TileResult :=
  flat_map
    (fun pos =>
       match nth_error futures pos with
       | Some (inr (Some res)) => [res]
       | _ => []
       end)
    (w_completion W).

Definition process_and_export_image (boundary_box : Box)
           (total_shapely_polygon : Geometry) (image_date : Date)
           (output_dir : string) : M (option string) :=
  (sub_rects <- lift (split_boundary_box (x_cos_deg X) (x_intersects X)
                        total_shapely_polygon boundary_box 30) ;;
   let args := enumerate_from 0 sub_rects in
   (* ThreadPoolExecutor(max_workers=min(10, len(sub_rects))) refuses 0 *)
   match sub_rects with
   | [] => throw ValueError
   | _ :: _ =>
       futures <- run_workers args ;;
       let results := harvest futures in
       match copy, results with
       | Legacy, [] => ret None
       | _, _ =>
           merge_images_properly copy X boundary_box total_shapely_polygon
             results output_dir image_date
       end
   end)%m.

(** [calculate_area_statistics]: the histogram query, the statistics, and
    the JSON file. *)
Definition calculate_area_statistics (total_area : Q) (image_date : Date)
           (output_dir : string) : M (Stats * string) :=
  (answer <- lift (w_histogram W) ;;
   let hist := match answer with Some h => h | None => [] end in
   stats <- lift (area_statistics copy hist total_area
                    (date_str image_date)) ;;
   let stats_file :=
     (output_dir ++ "/natural_forest_stats_" ++ date_str image_date
        ++ ".json")%string in
   modify (log_file stats_file (StatsFile stats)) ;;;
   ret (stats, stats_file))%m.

(** [load_boundary]: polygon, bounding box and the area it stores in the
    global [CORRECT_AREA]. *)
Definition load_boundary : M (Geometry * Box * Q) :=
  (data <- lift (w_user_data W) ;;
   let polygon := ud_city_geometry data in
   let bbox := box (ud_bbox_west data) (ud_bbox_south data)
                   (ud_bbox_east data) (ud_bbox_north data) in
   ret (polygon, bbox, ud_area data))%m.

(** The result of a run: [None], or the image file (itself [None] when
    nothing was merged), the statistics file and the date; with it the
    global [boundary_box] the handler reads afterwards. *)
Definition RunResult : Type :=
  (option (option string * string * Date) * Box)%type.

Definition process_natural_forest_classification (output_dir : string)
  : M RunResult :=
  (loaded <- load_boundary ;;
   let '(total_shapely_polygon, boundary_box, CORRECT_AREA) := loaded in
   ENTIRE_EE_BOUNDARY <- shapely_to_ee X (x_wkt X total_shapely_polygon) ;;
   scenes <- lift (w_scenes W) ;;
   match s2_collection scenes with
   | [] => ret (None, boundary_box)
   | first_image :: _ =>
       let cloud_cover := cloudy_pixel_percentage first_image in
       if match copy with
          | Backend => Qlt_bool 1 cloud_cover
          | Legacy => false
          end
       then ret (None, boundary_box)
       else
         let image_date := time_start first_image in
         dw_size <- lift (w_dw_size W) ;;
         if (dw_size =? 0)%Z then ret (None, boundary_box)
         else
           protected_areas <-
             get_protected_areas X (x_wkt X total_shapely_polygon)
               image_date ;;
           stats <- calculate_area_statistics CORRECT_AREA image_date
                      output_dir ;;
           image_file <- process_and_export_image boundary_box
                           total_shapely_polygon image_date output_dir ;;
           ret (Some (image_file, snd stats, image_date), boundary_box)
   end)%m.

End Pipeline.

(* ------------------------------------------------------------------------- *)
(** * [lambda_handler] *)

Inductive Body : Type :=
| BodyEmpty
| BodyUpload (upload_url filename : string)
| BodySuccess (image_download_url image_date : string)
              (analysis_results : Stats)
| BodyError (message : string)
| BodyException (raised : exn).    (* message: str(exc) *)

Record Response : Type := mkResponse {
  statusCode : Z;
  body : Body
}.

(** The request, after [parse_request_body]. *)
Record Event : Type := mkEvent {
  ev_method : string;             (* _http_method(event) *)
  ev_operation : string;          (* request_body.get('operation', '').lower() *)
  ev_filename : option string;    (* request_body.get('filename') *)
  ev_output_prefix : string;      (* request_body.get('output_prefix', OUTPUT_PREFIX) *)
  ev_uuid_name : string           (* f"user_data_{uuid.uuid4()}.json" *)
}.

(** The message sent when the run returns nothing. *)
Definition too_cloudy_message (copy : Copy) : string :=
  match copy with
  | Backend => "Cloud cover too high—try another range"
  | Legacy => "Cloud cover is too much, please try another date range"
  end.

Definition too_cloudy_response (copy : Copy) : Response :=
  mkResponse 400 (BodyError (too_cloudy_message copy)).

Definition unknown_operation_message (copy : Copy) (operation : string)
  : string :=
  match copy with
  | Backend =>
      ("Unknown operation '" ++ operation
         ++ "'. Use 'upload' or 'analysis'.")%string
  | Legacy =>
      ("Unknown operation: " ++ operation
         ++ ". Valid operations are 'upload' or 'analysis'.")%string
  end.

(** [s3.upload_file(file, bucket, key)]: the transfer layer raises
    [ValueError] on a file name that is not a string. *)
Definition upload_file (file : option string) (key : string) : M unit :=
  match file with
  | None => throw ValueError
  | Some f => modify (log_upload key f)
  end.

(** [json.load] of a statistics file written earlier in the run. *)
Definition read_stats (path : string) : M Stats :=
  fun s =>
    match find (fun f => String.eqb (fst f) path) (files s) with
    | Some (_, StatsFile stats) => (ok stats, s)
    | _ => (raise ProviderError, s)
    end.

Section Handler.

Variable copy : Copy.
Variable X : Externals.
Variable W : World.

Definition output_dir : string := "/tmp/forest_classification".

(** The [analysis] branch. *)
Definition analysis (event : Event) : M Response :=
  match ev_filename event with
  | None | Some EmptyString =>
      ret (mkResponse 400 (BodyError "Filename is required for analysis"))
  | Some _ =>
      (lift (w_setup W) ;;;
       run <- process_natural_forest_classification copy X W output_dir ;;
       let '(result, boundary_box) := run in
       match result with
       | None => ret (too_cloudy_response copy)
       | Some (image_file, stats_file, image_date) =>
           let lat_long := lat_long_of X boundary_box in
           let stem :=
             (ev_output_prefix event ++ "/" ++ date_str image_date ++ "-"
                ++ lat_long)%string in
           let s3_image_key :=
             (stem ++ "-natural_forest_classification.png")%string in
           let s3_stats_key :=
             (stem ++ "-natural_forest_stats.json")%string in
           upload_file image_file s3_image_key ;;;
           upload_file (Some stats_file) s3_stats_key ;;;
           image_download_url <-
             lift (x_presign X "get_object" s3_image_key) ;;
           stats_data <- read_stats stats_file ;;
           ret (mkResponse 200
                  (BodySuccess image_download_url (date_str image_date)
                     stats_data))
       end)%m
  end.

(** The [upload] branch. *)
Definition upload (event : Event) : M Response :=
  let filename := upload_filename (ev_filename event) (ev_uuid_name event) in
  let s3_key := ("uploads/" ++ filename)%string in
  (presigned_url <- lift (x_presign X "put_object" s3_key) ;;
   ret (mkResponse 200 (BodyUpload presigned_url filename)))%m.

Definition dispatch (event : Event) : M Response :=
  if String.eqb (ev_operation event) "upload" then upload event
  else if String.eqb (ev_operation event) "analysis" then analysis event
  else ret (mkResponse 400
              (BodyError (unknown_operation_message copy
                            (ev_operation event)))).

(** [lambda_handler]: the pre-flight answer ([Backend] only), then the
    dispatch inside [try ... except Exception]. *)
Definition lambda_handler (event : Event) (s : Store) : Response * Store :=
  if match copy with
     | Backend => String.eqb (ev_method event) "OPTIONS"
     | Legacy => false
     end
  then (mkResponse 204 BodyEmpty, s)
  else
    match dispatch event s with
    | (inr response, s') => (response, s')
    | (inl e, s') => (mkResponse 500 (BodyException e), s')
    end.

End Handler.

(* ------------------------------------------------------------------------- *)
(** * CORS headers ([Backend]) *)

(** Truthiness of a string: [if s] holds when [s] is not empty. *)
Definition str_truthy (s : string) : bool := negb (String.eqb s EmptyString).

(** [a or b] on two results of [dict.get]. *)
Definition py_or_str (a b : option string) : option string :=
  match a with
  | Some s => if str_truthy s then a else b
  | None => b
  end.

(** [(request_headers or {}).get('origin')
     or (request_headers or {}).get('Origin')] *)
Definition request_origin (request_headers : option (PyDict.dict string))
  : option string :=
  let headers := match request_headers with Some h => h | None => [] end in
  py_or_str (PyDict.get "origin" headers) (PyDict.get "Origin" headers).

(** The value of [allow_origin] in [_build_cors_headers]; [ALLOWED_ORIGINS]
    is the list read from the environment. *)
Definition allow_origin (ALLOWED_ORIGINS : list string)
           (request_headers : option (PyDict.dict string)) : string :=
  let fallback :=
    match ALLOWED_ORIGINS with
    | first :: _ => if str_truthy first then first else "*"%string
    | [] => "*"%string
    end in
  match request_origin request_headers with
  | Some origin =>
      if str_truthy origin && existsb (String.eqb origin) ALLOWED_ORIGINS
      then origin else fallback
  | None => fallback
  end.

Definition _build_cors_headers (ALLOWED_ORIGINS : list string)
           (request_headers : option (PyDict.dict string))
  : PyDict.dict string :=
  [("Access-Control-Allow-Origin",
    allow_origin ALLOWED_ORIGINS request_headers);
   ("Access-Control-Allow-Methods", "GET,POST,OPTIONS");
   ("Access-Control-Allow-Headers",
    "Content-Type,Authorization,X-Amz-Date,X-Api-Key,X-Amz-Security-Token");
   ("Access-Control-Max-Age", "600");
   ("Access-Control-Allow-Credentials", "true")]%string.

(* ------------------------------------------------------------------------- *)
(** * LegendCompositor: the layout of [create_final_image_with_legend] *)

(** A rectangle of pixels, by its corners as [draw.rectangle] takes them. *)
Record PixelRect : Type := mkPixelRect {
  px_left : Z;
  px_top : Z;
  px_right : Z;
  px_bottom : Z
}.

(** The legend colours, in class order. *)
Definition legend_colors : list (Z * Z * Z) :=
  [(65, 155, 223); (57, 125, 73); (136, 176, 83); (122, 135, 198);
   (228, 150, 53); (223, 195, 90); (196, 40, 27); (165, 155, 143);
   (179, 159, 225); (0, 0, 0); (0, 64, 0)]%Z.

Definition legend_labels : list string :=
  ["Water"; "Trees"; "Grass"; "Flooded Vegetation"; "Crops";
   "Shrub & Scrub"; "Built"; "Bare"; "Snow & Ice"; "Cloud";
   "Natural Forest"]%string.

(** The palette of [export_sub_polygon_as_png]: class code and colour. *)
Definition tile_palette : list (Z * (Z * Z * Z)) :=
  [(0, (65, 155, 223)); (1, (57, 125, 73)); (2, (136, 176, 83));
   (3, (122, 135, 198)); (4, (228, 150, 53)); (5, (223, 195, 90));
   (6, (196, 40, 27)); (7, (165, 155, 143)); (8, (179, 159, 225));
   (9, (0, 0, 0)); (10, (0, 64, 0))]%Z.

(** Where the map is pasted: at [(10, 50)], with its own size. *)
Definition map_region (mw mh : Z) : PixelRect :=
  mkPixelRect 10 50 (10 + mw) (50 + mh).

(** The swatch of row [i]:
    [[lx, rect_y, lx + 20, rect_y + 20]] with [lx = mw + 20] and
    [rect_y = 50 + i * 30]. *)
Definition legend_swatch (mw : Z) (i : Z) : PixelRect :=
  let lx := (mw + 20)%Z in
  let rect_y := (50 + i * 30)%Z in
  mkPixelRect lx rect_y (lx + 20) (rect_y + 20).

(** The rows drawn by the loop over [enumerate(zip(colors, labels))]:
    row number, colour, label and swatch. *)
Definition legend_rows (mw : Z)
  : list (Z * ((Z * Z * Z) * string) * PixelRect) :=
  map (fun row => (row, legend_swatch mw (fst row)))
    (enumerate_from 0 (combine legend_colors legend_labels)).

(* ========================================================================= *)
(** * Properties *)

Unset Implicit Arguments.

(** ** [sanitize_filename] *)

(** Every character of [s] satisfies [P]. *)
Fixpoint all_chars (P : ascii -> bool) (s : string) : Prop :=
  match s with
  | EmptyString => True
  | String a r => P a = true /\ all_chars P r
  end.

(** An ASCII letter, a digit, or one of [.], [_], [-]. *)
Definition allowed_char (c : ascii) : bool :=
  let n := nat_of_ascii c in
  ((97 <=? n) && (n <=? 122) || (65 <=? n) && (n <=? 90)
   || (48 <=? n) && (n <=? 57) || (n =? 46) || (n =? 95) || (n =? 45))%nat.

Lemma safe_chars_allowed (c : ascii) :
  PyStr.mem c safe_chars = allowed_char c.
Proof.
  destruct c as [[] [] [] [] [] [] [] []]; vm_compute; reflexivity.
Qed.

Lemma replaced_char_allowed (c : ascii) :
  allowed_char (if PyStr.mem c safe_chars then c else "_"%char) = true.
Proof.
  destruct (PyStr.mem c safe_chars) eqn:E.
  - now rewrite <- safe_chars_allowed.
  - reflexivity.
Qed.

Lemma map_chars_all (P : ascii -> bool) (f : ascii -> ascii) (s : string) :
  (forall c, P (f c) = true) -> all_chars P (PyStr.map_chars f s).
Proof.
  intros Hf; induction s as [|a r IH]; simpl; auto.
Qed.

Lemma all_chars_not_mem (P : ascii -> bool) (c : ascii) (s : string) :
  all_chars P s -> P c = false -> PyStr.mem c s = false.
Proof.
  intros Hs Hc; induction s as [|a r IH]; simpl in *; auto.
  destruct Hs as [Ha Hr].
  destruct (Ascii.eqb a c) eqn:E.
  - apply Ascii.eqb_eq in E; subst a; congruence.
  - auto.
Qed.

Lemma drop_suffix (n : nat) (s : string) :
  exists dir, s = (dir ++ PyStr.drop n s)%string.
Proof.
  revert s; induction n as [|n IH]; intros s.
  - exists EmptyString; reflexivity.
  - destruct s as [|a r]; simpl.
    + exists EmptyString; reflexivity.
    + destruct (IH r) as [dir Hd].
      exists (String a dir); simpl; now rewrite <- Hd.
Qed.

Lemma rfind_bounds (c : ascii) (s : string) :
  (-1 <= PyStr.rfind c s < Z.of_nat (String.length s))%Z.
Proof.
  induction s as [|a r IH]; simpl String.length; simpl PyStr.rfind.
  - lia.
  - destruct (0 <=? PyStr.rfind c r)%Z eqn:E.
    + apply Z.leb_le in E; lia.
    + destruct (Ascii.eqb a c); lia.
Qed.

(** Nothing after the last occurrence of [c] is [c]. *)
Lemma drop_after_rfind (c : ascii) (s : string) :
  PyStr.mem c (PyStr.drop (Z.to_nat (PyStr.rfind c s + 1)) s) = false.
Proof.
  induction s as [|a r IH]; simpl PyStr.rfind.
  - reflexivity.
  - destruct (0 <=? PyStr.rfind c r)%Z eqn:E.
    + apply Z.leb_le in E.
      replace (Z.to_nat (PyStr.rfind c r + 1 + 1))
        with (S (Z.to_nat (PyStr.rfind c r + 1))) by lia.
      exact IH.
    + apply Z.leb_gt in E.
      pose proof (rfind_bounds c r) as Hb.
      assert (Hr : PyStr.rfind c r = (-1)%Z) by lia.
      rewrite Hr in IH; simpl in IH.
      destruct (Ascii.eqb a c) eqn:Ea; simpl.
      * exact IH.
      * now rewrite Ea.
Qed.

Lemma basename_no_slash (p : string) :
  PyStr.mem "/"%char (basename p) = false.
Proof. apply drop_after_rfind. Qed.

Lemma basename_suffix (p : string) :
  exists dir, p = (dir ++ basename p)%string.
Proof. apply drop_suffix. Qed.

(** *** The [.json] suffix of an uploaded name *)

Lemma rfind_absent (c : ascii) (s : string) :
  PyStr.mem c s = false -> PyStr.rfind c s = (-1)%Z.
Proof.
  induction s as [|a r IH]; simpl; [reflexivity|].
  destruct (Ascii.eqb a c); [discriminate|].
  intros H; now rewrite (IH H).
Qed.

Lemma rfind_app_absent (c : ascii) (s t : string) :
  PyStr.mem c t = false ->
  PyStr.rfind c (s ++ t) = PyStr.rfind c s.
Proof.
  intros Ht; induction s as [|a r IH]; simpl.
  - now apply rfind_absent.
  - now rewrite IH.
Qed.

Lemma drop_app (n : nat) (s t : string) :
  (n <= String.length s)%nat ->
  PyStr.drop n (s ++ t) = (PyStr.drop n s ++ t)%string.
Proof.
  revert s; induction n as [|n IH]; intros s Hn; [reflexivity|].
  destruct s as [|a r]; simpl in *; [lia|].
  apply IH; lia.
Qed.

Lemma basename_app (pre t : string) :
  PyStr.mem "/"%char t = false ->
  basename (pre ++ t) = (basename pre ++ t)%string.
Proof.
  intros Ht; unfold basename.
  rewrite (rfind_app_absent _ pre t Ht).
  apply drop_app.
  pose proof (rfind_bounds "/"%char pre); lia.
Qed.

Lemma map_chars_app (f : ascii -> ascii) (s t : string) :
  PyStr.map_chars f (s ++ t)
  = (PyStr.map_chars f s ++ PyStr.map_chars f t)%string.
Proof. induction s as [|a r IH]; simpl; [reflexivity | now rewrite IH]. Qed.

Lemma string_eqb_eq (s t : string) : String.eqb s t = true -> s = t.
Proof. apply String.eqb_eq. Qed.

Lemma endswith_suffix (s t : string) :
  PyStr.endswith s t = true -> exists pre, s = (pre ++ t)%string.
Proof.
  unfold PyStr.endswith.
  destruct (String.length t <=? String.length s)%nat; [|discriminate].
  intros H; apply string_eqb_eq in H.
  destruct (drop_suffix (String.length s - String.length t) s) as [pre Hpre].
  exists pre; now rewrite <- H.
Qed.

(** The name the upload branch derives always ends in [.json]: it is not
    [.] and not [..]. *)
Lemma upload_filename_json (requested : option string) (uuid_name : string) :
  exists stem,
    upload_filename requested uuid_name = (stem ++ ".json")%string.
Proof.
  unfold upload_filename.
  set (filename := match requested with Some f => f | None => uuid_name end).
  assert (H : exists pre,
             (if PyStr.endswith filename ".json" then filename
              else (filename ++ ".json")%string) = (pre ++ ".json")%string).
  { destruct (PyStr.endswith filename ".json") eqn:E.
    - now apply endswith_suffix.
    - now exists filename. }
  destruct H as [pre ->].
  unfold sanitize_filename.
  rewrite basename_app by reflexivity.
  rewrite map_chars_app.
  eexists; reflexivity.
Qed.

(** C10. For every input string, [sanitize_filename] returns a string made
    only of ASCII letters, digits, [.], [_] and [-]; it is the
    character-wise replacement of [os.path.basename] of the input, which is
    the part of the input after its last [/]; neither [/] nor [\] occurs in
    the result, so the key [uploads/<filename>] built by the upload branch
    has, after its [uploads/] prefix, a single name without [/] that ends
    in [.json]. *)
Theorem sanitize_filename_stays_under_uploads :
  forall filename : string,
    all_chars allowed_char (sanitize_filename filename)
    /\ sanitize_filename filename
       = PyStr.map_chars
           (fun c => if PyStr.mem c safe_chars then c else "_"%char)
           (basename filename)
    /\ (exists dir, filename = (dir ++ basename filename)%string)
    /\ PyStr.mem "/"%char (basename filename) = false
    /\ PyStr.mem "/"%char (sanitize_filename filename) = false
    /\ PyStr.mem "\"%char (sanitize_filename filename) = false
    /\ (forall requested uuid_name,
          exists name stem,
            upload_s3_key requested uuid_name = ("uploads/" ++ name)%string
            /\ all_chars allowed_char name
            /\ PyStr.mem "/"%char name = false
            /\ name = (stem ++ ".json")%string).
Proof.
  intros filename.
  assert (Hall : forall f, all_chars allowed_char (sanitize_filename f)).
  { intros f; unfold sanitize_filename.
    apply map_chars_all, replaced_char_allowed. }
  repeat split.
  - apply Hall.
  - apply basename_suffix.
  - apply basename_no_slash.
  - apply all_chars_not_mem with (P := allowed_char); [apply Hall | reflexivity].
  - apply all_chars_not_mem with (P := allowed_char); [apply Hall | reflexivity].
  - intros requested uuid_name.
    destruct (upload_filename_json requested uuid_name) as [stem Hstem].
    exists (upload_filename requested uuid_name), stem.
    split; [reflexivity|].
    split; [unfold upload_filename; apply Hall|].
    split; [|exact Hstem].
    apply all_chars_not_mem with (P := allowed_char);
      [unfold upload_filename; apply Hall | reflexivity].
Qed.

(** ** [export_sub_polygon_as_png] *)

(** The store after [tries] attempts of which [sleeps] were followed by the
    two-second pause. *)
Definition after_fetch (tries sleeps : nat) (s : Store) : Store :=
  mkStore (ee_cache s) (pa_cache s) (remote_calls s) (tries + attempts s)
    (repeat 2 sleeps ++ slept s) (files s) (s3_objects s).

Lemma after_fetch_0 (s : Store) : after_fetch 0 0 s = s.
Proof. now destruct s. Qed.

Lemma repeat_app_cons {A} (x : A) (n : nat) (l : list A) :
  repeat x n ++ x :: l = x :: repeat x n ++ l.
Proof. induction n as [|n IH]; simpl; [reflexivity | now rewrite IH]. Qed.

Lemma after_fetch_failed (tries sleeps : nat) (s : Store) :
  after_fetch tries sleeps (log_sleep 2 (tick_attempt s))
  = after_fetch (S tries) (S sleeps) s.
Proof.
  unfold after_fetch, log_sleep, tick_attempt; simpl.
  now rewrite repeat_app_cons, Nat.add_succ_r.
Qed.

(** One failed attempt: the loop counts it, sleeps, and goes on. *)
Lemma retry_loop_failed (attempt_of : Z -> Attempt) (retry : Z)
      (rest : list Z) (s : Store) :
  succeeds (attempt_of retry) = None ->
  retry_loop attempt_of (retry :: rest) s
  = retry_loop attempt_of rest (log_sleep 2 (tick_attempt s)).
Proof.
  intros Hf; simpl; unfold bind, modify; simpl.
  destruct (attempt_of retry) as [| |status decoded]; try reflexivity.
  simpl in Hf.
  destruct (status =? 200)%Z; [|reflexivity].
  destruct decoded; [discriminate|reflexivity].
Qed.

(** One successful attempt: the loop counts it and returns the raster. *)
Lemma retry_loop_succeeded (attempt_of : Z -> Attempt) (retry : Z)
      (rest : list Z) (s : Store) (img : Image) :
  succeeds (attempt_of retry) = Some img ->
  retry_loop attempt_of (retry :: rest) s = (ok (Some img), tick_attempt s).
Proof.
  intros Hs; simpl; unfold bind, modify; simpl.
  destruct (attempt_of retry) as [| |status decoded]; try discriminate.
  simpl in Hs.
  destruct decoded as [i|]; [|discriminate].
  destruct (status =? 200)%Z; [|discriminate].
  now inversion Hs.
Qed.

Lemma retry_loop_exhausted (attempt_of : Z -> Attempt) (n a : nat) (s : Store) :
  (forall i, (a <= i < a + n)%nat ->
             succeeds (attempt_of (Z.of_nat i)) = None) ->
  retry_loop attempt_of (map Z.of_nat (seq a n)) s
  = (ok None, after_fetch n n s).
Proof.
  revert a s; induction n as [|n IH]; intros a s Hfail.
  - simpl; now rewrite after_fetch_0.
  - simpl seq; simpl map.
    rewrite retry_loop_failed by (apply Hfail; lia).
    rewrite IH by (intros i Hi; apply Hfail; lia).
    now rewrite after_fetch_failed.
Qed.

Lemma retry_loop_first_success (attempt_of : Z -> Attempt) (k n a : nat)
      (s : Store) (img : Image) :
  (k < n)%nat ->
  (forall i, (a <= i < a + k)%nat ->
             succeeds (attempt_of (Z.of_nat i)) = None) ->
  succeeds (attempt_of (Z.of_nat (a + k))) = Some img ->
  retry_loop attempt_of (map Z.of_nat (seq a n)) s
  = (ok (Some img), after_fetch (S k) k s).
Proof.
  revert n a s; induction k as [|k IH]; intros n a s Hk Hfail Hok.
  - destruct n as [|n]; [lia|].
    simpl seq; simpl map.
    rewrite Nat.add_0_r in Hok.
    rewrite (retry_loop_succeeded _ _ _ _ _ Hok).
    now destruct s.
  - destruct n as [|n]; [lia|].
    simpl seq; simpl map.
    rewrite retry_loop_failed by (apply Hfail; lia).
    rewrite (IH n (S a)); try lia.
    + now rewrite after_fetch_failed.
    + intros i Hi; apply Hfail; lia.
    + now replace (S a + k)%nat with (a + S k)%nat by lia.
Qed.

(** C8. Whatever the attempts meet: when the first [max_retries] attempts all
    fail, [export_sub_polygon_as_png] returns [None] after exactly
    [max_retries] attempts, each followed by a two-second sleep; when attempt
    [k] (counted from 0, below [max_retries]) is the first to succeed, it
    returns that attempt's raster after exactly [k + 1] attempts and [k]
    sleeps, so no attempt follows the success.  A status other than 200 and
    a transport error are failures.  The default is three attempts. *)
Theorem export_sub_polygon_as_png_retries :
  forall (attempt_of : Z -> Attempt) (max_retries : Z) (s : Store),
    ((forall i, (0 <= i < max_retries)%Z -> succeeds (attempt_of i) = None) ->
     export_sub_polygon_as_png attempt_of max_retries s
     = (ok None,
        after_fetch (Z.to_nat max_retries) (Z.to_nat max_retries) s))
    /\ (forall (k : Z) (img : Image),
           (0 <= k < max_retries)%Z ->
           (forall i, (0 <= i < k)%Z -> succeeds (attempt_of i) = None) ->
           succeeds (attempt_of k) = Some img ->
           export_sub_polygon_as_png attempt_of max_retries s
           = (ok (Some img),
              after_fetch (S (Z.to_nat k)) (Z.to_nat k) s))
    /\ (forall status decoded,
           status <> 200%Z -> succeeds (HttpResponse status decoded) = None)
    /\ succeeds TransportError = None
    /\ succeeds UrlError = None
    /\ default_max_retries = 3%Z.
Proof.
  intros attempt_of max_retries s.
  unfold export_sub_polygon_as_png, py_range.
  split; [|split; [|split; [|repeat split]]].
  - intros Hfail.
    apply retry_loop_exhausted.
    intros i Hi; apply Hfail; lia.
  - intros k img Hk Hfail Hok.
    apply retry_loop_first_success.
    + lia.
    + intros i Hi; apply Hfail; lia.
    + simpl; now rewrite Z2Nat.id by lia.
  - intros status decoded Hs; simpl.
    destruct decoded; [|reflexivity].
    destruct (status =? 200)%Z eqn:E; [|reflexivity].
    apply Z.eqb_eq in E; contradiction.
Qed.

(** ** [get_protected_areas] and its cache *)

Definition same_month (a b : Date) : Prop :=
  year a = year b /\ month a = month b.

Lemma date_eqb_refl (d : Date) : date_eqb d d = true.
Proof. unfold date_eqb; now rewrite !Z.eqb_refl. Qed.

Lemma date_eqb_eq (a b : Date) : date_eqb a b = true -> a = b.
Proof.
  unfold date_eqb; intros H.
  apply andb_prop in H; destruct H as [H Hd].
  apply andb_prop in H; destruct H as [Hy Hm].
  apply Z.eqb_eq in Hy, Hm, Hd.
  destruct a, b; simpl in *; congruence.
Qed.

Lemma pa_key_eqb_refl (k : string * Date) : pa_key_eqb k k = true.
Proof. unfold pa_key_eqb; now rewrite String.eqb_refl, date_eqb_refl. Qed.

Lemma pa_key_eqb_other_date (w : string) (d d' : Date) :
  d <> d' -> pa_key_eqb (w, d) (w, d') = false.
Proof.
  intros Hne; unfold pa_key_eqb; simpl.
  rewrite String.eqb_refl; simpl.
  destruct (date_eqb d d') eqn:E; [|reflexivity].
  now apply date_eqb_eq in E.
Qed.

(** Facts about the [lru_cache] wrapper, for any cache of at least one
    entry whose body leaves that cache alone. *)
Section LruFacts.

Variables K V : Type.
Variable keqb : K -> K -> bool.
Variable room : nat.    (* maxsize is [S room] *)
Variable get_cache : Store -> list (K * V).
Variable set_cache : list (K * V) -> Store -> Store.
Variable body : K -> M V.

Hypothesis keqb_refl : forall k, keqb k k = true.
Hypothesis get_set : forall c s, get_cache (set_cache c s) = c.
Hypothesis body_frame :
  forall k s r s', body k s = (r, s') -> get_cache s' = get_cache s.

Lemma lru_find_firstn (k : K) (n : nat) (c : list (K * V)) :
  lru_find keqb k c = None -> lru_find keqb k (firstn n c) = None.
Proof.
  revert c; induction n as [|n IH]; intros [|[k' v] c]; simpl; auto.
  destruct (keqb k' k); [discriminate | apply IH].
Qed.

Lemma lru_find_remove (k k0 : K) (c : list (K * V)) :
  lru_find keqb k c = None ->
  lru_find keqb k (lru_remove keqb k0 c) = None.
Proof.
  induction c as [|[k' v] c IH]; simpl; auto.
  destruct (keqb k' k) eqn:E; [discriminate|].
  intros H; destruct (negb (keqb k' k0)); simpl; auto.
  now rewrite E; apply IH.
Qed.

(** After a call that returned, its key is cached with the value returned,
    and no other key has entered the cache. *)
Lemma lru_cached_caches (k : K) (s s' : Store) (v : V) :
  lru_cached keqb (S room) get_cache set_cache body k s = (ok v, s') ->
  lru_find keqb k (get_cache s') = Some v
  /\ (forall k', keqb k k' = false ->
                 lru_find keqb k' (get_cache s) = None ->
                 lru_find keqb k' (get_cache s') = None).
Proof.
  unfold lru_cached.
  destruct (lru_find keqb k (get_cache s)) as [v0|] eqn:Hfind.
  - intros H; injection H as Hv Hs; subst.
    rewrite get_set; cbn [lru_find]; rewrite keqb_refl.
    split; [reflexivity|].
    intros k' Hk Hnone; rewrite Hk; now apply lru_find_remove.
  - destruct (body k s) as [[e|v0] s1] eqn:Hb; [discriminate|].
    apply body_frame in Hb.
    intros H; injection H as Hv Hs; subst.
    rewrite get_set; cbn [firstn lru_find]; rewrite keqb_refl.
    split; [reflexivity|].
    intros k' Hk Hnone; rewrite Hk.
    apply lru_find_firstn; now rewrite Hb.
Qed.

End LruFacts.

Section CacheFacts.

Variable X : Externals.

(** [shapely_to_ee] touches its own cache only. *)
Lemma shapely_to_ee_frame (w : string) (s s' : Store) (r : Res EEGeometry) :
  shapely_to_ee X w s = (r, s') ->
  pa_cache s' = pa_cache s /\ remote_calls s' = remote_calls s.
Proof.
  unfold shapely_to_ee, lru_cached, bind, lift, ret.
  destruct (lru_find String.eqb w (ee_cache s)).
  - intros H; inversion H; subst; now simpl.
  - destruct (x_wkt_loads X w); intros H; inversion H; subst; now simpl.
Qed.

(** It returns whenever the text parses. *)
Lemma shapely_to_ee_returns (w : string) (g : Geometry) (s : Store) :
  x_wkt_loads X w = ok g ->
  exists e s', shapely_to_ee X w s = (ok e, s').
Proof.
  intros Hload.
  unfold shapely_to_ee, lru_cached, bind, lift, ret.
  destruct (lru_find String.eqb w (ee_cache s)).
  - eauto.
  - rewrite Hload; simpl; eauto.
Qed.

(** A run of the body asks the provider exactly once. *)
Lemma body_asks_once (w : string) (d : Date) (s s' : Store) (m : Mask) :
  get_protected_areas_body X (w, d) s = (ok m, s') ->
  remote_calls s' = S (remote_calls s) /\ pa_cache s' = pa_cache s.
Proof.
  unfold get_protected_areas_body, bind, modify, ret.
  destruct (shapely_to_ee X w s) as [[e|e] s1] eqn:E.
  - discriminate.
  - apply shapely_to_ee_frame in E; destruct E as [Hc Hr].
    intros H; inversion H; subst; simpl; split; congruence.
Qed.

Lemma body_returns (w : string) (d : Date) (g : Geometry) (s : Store) :
  x_wkt_loads X w = ok g ->
  exists m s', get_protected_areas_body X (w, d) s = (ok m, s').
Proof.
  intros Hload.
  destruct (shapely_to_ee_returns w g s Hload) as (e & s1 & He).
  unfold get_protected_areas_body, bind, modify, ret.
  rewrite He; simpl; eauto.
Qed.

(** A cached key is answered from the cache, with no request. *)
Lemma get_protected_areas_hit (w : string) (d : Date) (s : Store) (m : Mask) :
  lru_find pa_key_eqb (w, d) (pa_cache s) = Some m ->
  exists s', get_protected_areas X w d s = (ok m, s')
             /\ remote_calls s' = remote_calls s
             /\ ee_cache s' = ee_cache s.
Proof.
  intros Hfind.
  unfold get_protected_areas, lru_cached.
  rewrite Hfind.
  eexists; split; [reflexivity|]; now simpl.
Qed.

(** A key that is not cached runs the body: one request. *)
Lemma get_protected_areas_miss (w : string) (d : Date) (g : Geometry)
      (s : Store) :
  lru_find pa_key_eqb (w, d) (pa_cache s) = None ->
  x_wkt_loads X w = ok g ->
  exists m s', get_protected_areas X w d s = (ok m, s')
               /\ remote_calls s' = S (remote_calls s).
Proof.
  intros Hfind Hload.
  unfold get_protected_areas, lru_cached.
  rewrite Hfind.
  destruct (body_returns w d g s Hload) as (m & s1 & Hb).
  rewrite Hb.
  apply body_asks_once in Hb; destruct Hb as [Hr _].
  exists m; eexists; split; [reflexivity|]; now simpl.
Qed.

(** After a call that returned, its key is cached, and the cache holds no
    key it did not hold before, that one apart. *)
Lemma get_protected_areas_caches (w : string) (d : Date) (s s' : Store)
      (m : Mask) :
  get_protected_areas X w d s = (ok m, s') ->
  lru_find pa_key_eqb (w, d) (pa_cache s') = Some m
  /\ (forall k, pa_key_eqb (w, d) k = false ->
                lru_find pa_key_eqb k (pa_cache s) = None ->
                lru_find pa_key_eqb k (pa_cache s') = None).
Proof.
  unfold get_protected_areas.
  apply lru_cached_caches.
  - apply pa_key_eqb_refl.
  - reflexivity.
  - intros [w0 d0] s0 [e|m0] s1 Hb.
    + unfold get_protected_areas_body, bind, modify, ret in Hb.
      destruct (shapely_to_ee X w0 s0) as [[e0|g] s2] eqn:E;
        apply shapely_to_ee_frame in E; destruct E as [Hc _].
      * now injection Hb as _ <-.
      * now injection Hb as _ <-.
    + now apply body_asks_once in Hb.
Qed.

End CacheFacts.

(** *** Example data, used by the closed lemmas below *)

Definition is_empty (g : Geometry) : bool :=
  match g with
  | Polygon [] _ => true
  | MultiPolygon [] => true
  | _ => false
  end.

(** [rect.intersects(g)] for the geometries of the examples: the empty
    polygon, which intersects nothing, and polygons that cover the whole
    bounding box of their example. *)
Definition example_intersects (rect : Box) (g : Geometry) : bool :=
  negb (is_empty g).

(** A square of a tenth of a degree across the equator. *)
Definition equator_square : Geometry :=
  Polygon [(0, -(1 # 20)); (1 # 10, -(1 # 20)); (1 # 10, 1 # 20);
           (0, 1 # 20); (0, -(1 # 20))] [].

Definition equator_square_wkt : string :=
  "POLYGON ((0 -0.05, 0.1 -0.05, 0.1 0.05, 0 0.05, 0 -0.05))".

(** The externals of the examples.  Every example box is centred on the
    equator, where [math.cos(math.radians(0))] is 1. *)
Definition equator : Externals :=
  mkExternals
    (fun _ => 1)
    example_intersects
    (fun g => if is_empty g then "POLYGON EMPTY" else equator_square_wkt)%string
    (fun _ => "POLYGON ((...))"%string)
    (fun text =>
       if String.eqb text "POLYGON EMPTY" then ok (Polygon [] [])
       else ok equator_square)
    (fun _ => true)
    (fun _ => "+0.00"%string)
    (fun _ key => ok ("https://bucket/" ++ key)%string).

Definition may_3 : Date := mkDate 2024 5 3.
Definition may_17 : Date := mkDate 2024 5 17.

(** C9, as stated, fails: two acquisition dates of the same calendar month
    are two cache keys.  From an empty cache, the call for 3 May asks the
    provider once and the call for 17 May, same boundary, asks it again. *)
Lemma same_month_second_call_is_a_miss :
  same_month may_3 may_17
  /\ remote_calls
       (snd (get_protected_areas equator equator_square_wkt may_3
               empty_store)) = 1%nat
  /\ remote_calls
       (snd (get_protected_areas equator equator_square_wkt may_17
               (snd (get_protected_areas equator equator_square_wkt may_3
                       empty_store)))) = 2%nat.
Proof. vm_compute; repeat split. Qed.

(** C9, amended. The protected-area memoization is keyed by the boundary
    text together with the acquisition date itself (year, month and day).
    For every boundary text that parses and every date, the call returns;
    with a key that is not cached it asks the provider exactly once; the
    same call made again is a hit that returns the same mask and asks
    nothing; a call for any other date that is not cached, of the same month
    or not, asks the provider once more. *)
Theorem get_protected_areas_keyed_by_date :
  forall (X : Externals) (w : string) (d : Date) (g : Geometry) (s : Store),
    x_wkt_loads X w = ok g ->
    exists m s1,
      get_protected_areas X w d s = (ok m, s1)
      /\ (lru_find pa_key_eqb (w, d) (pa_cache s) = None ->
          remote_calls s1 = S (remote_calls s))
      /\ (exists s2,
             get_protected_areas X w d s1 = (ok m, s2)
             /\ remote_calls s2 = remote_calls s1)
      /\ (forall d',
             d <> d' ->
             lru_find pa_key_eqb (w, d') (pa_cache s) = None ->
             exists m' s2,
               get_protected_areas X w d' s1 = (ok m', s2)
               /\ remote_calls s2 = S (remote_calls s1)).
Proof.
  intros X w d g s Hload.
  assert (Hcall : exists m s1,
             get_protected_areas X w d s = (ok m, s1)
             /\ (lru_find pa_key_eqb (w, d) (pa_cache s) = None ->
                 remote_calls s1 = S (remote_calls s))).
  { destruct (lru_find pa_key_eqb (w, d) (pa_cache s)) as [m|] eqn:Hfind.
    - destruct (get_protected_areas_hit X w d s m Hfind) as (s1 & Hrun & _).
      exists m, s1; split; [exact Hrun | discriminate].
    - destruct (get_protected_areas_miss X w d g s Hfind Hload)
        as (m & s1 & Hrun & Hr).
      exists m, s1; split; [exact Hrun | intros _; exact Hr]. }
  destruct Hcall as (m & s1 & Hrun & Hnew).
  exists m, s1; split; [exact Hrun | split; [exact Hnew | split]].
  - destruct (get_protected_areas_caches X w d s s1 m Hrun) as [Hcached _].
    destruct (get_protected_areas_hit X w d s1 m Hcached) as (s2 & Hrun2 & Hr & _).
    exists s2; split; assumption.
  - intros d' Hne Hnone.
    destruct (get_protected_areas_caches X w d s s1 m Hrun) as [_ Hothers].
    apply (get_protected_areas_miss X w d' g s1); [|exact Hload].
    apply Hothers; [|exact Hnone].
    now apply pa_key_eqb_other_date.
Qed.

Lemma get_protected_areas_keyed_by_date_witness :
  exists m s1,
    get_protected_areas equator equator_square_wkt may_3 empty_store
    = (ok m, s1)
    /\ (lru_find pa_key_eqb (equator_square_wkt, may_3)
          (pa_cache empty_store) = None ->
        remote_calls s1 = S (remote_calls empty_store))
    /\ (exists s2,
           get_protected_areas equator equator_square_wkt may_3 s1
           = (ok m, s2)
           /\ remote_calls s2 = remote_calls s1)
    /\ (forall d',
           may_3 <> d' ->
           lru_find pa_key_eqb (equator_square_wkt, d')
             (pa_cache empty_store) = None ->
           exists m' s2,
             get_protected_areas equator equator_square_wkt d' s1
             = (ok m', s2)
             /\ remote_calls s2 = S (remote_calls s1)).
Proof.
  apply (get_protected_areas_keyed_by_date equator equator_square_wkt may_3
           equator_square empty_store).
  reflexivity.
Defined.

(** ** [split_boundary_box] *)

Definition minx_of (b : Box) : Q := Qmin (box_x1 b) (box_x2 b).
Definition miny_of (b : Box) : Q := Qmin (box_y1 b) (box_y2 b).
Definition maxx_of (b : Box) : Q := Qmax (box_x1 b) (box_x2 b).
Definition maxy_of (b : Box) : Q := Qmax (box_y1 b) (box_y2 b).

Lemma bounds_of (b : Box) :
  bounds b = (minx_of b, miny_of b, maxx_of b, maxy_of b).
Proof. reflexivity. Qed.

Lemma py_div_ok (a b : Q) : ~ b == 0 -> py_div a b = ok (a / b).
Proof.
  intros Hb; unfold py_div.
  destruct (Qeq_bool b 0) eqn:E; [|reflexivity].
  apply Qeq_bool_eq in E; contradiction.
Qed.

Lemma py_div_zero (a b : Q) : b == 0 -> py_div a b = raise ZeroDivisionError.
Proof.
  intros Hb; unfold py_div.
  now rewrite (Qeq_eq_bool _ _ Hb).
Qed.

Section PlannerFacts.

Variable cos_deg : Q -> Q.
Variable intersects : Box -> Geometry -> bool.
Variable polygon : Geometry.
Variable boundary_box : Box.

(** The single-tile path. *)
Lemma split_single_tile (max_size_km : Q) :
  fits_single_tile cos_deg boundary_box max_size_km = true ->
  split_boundary_box cos_deg intersects polygon boundary_box max_size_km
  = ok [boundary_box].
Proof.
  unfold fits_single_tile, box_km, split_boundary_box.
  rewrite bounds_of; intros H; now rewrite H.
Qed.

(** The grid path, when no divisor is zero. *)
Lemma split_grid (max_size_km : Q) :
  fits_single_tile cos_deg boundary_box max_size_km = false ->
  let size := effective_max_size cos_deg boundary_box max_size_km in
  let num_x := fst (grid_counts cos_deg boundary_box size) in
  let num_y := snd (grid_counts cos_deg boundary_box size) in
  ~ size == 0 -> num_x <> 0%Z -> num_y <> 0%Z ->
  split_boundary_box cos_deg intersects polygon boundary_box max_size_km
  = ok (grid intersects polygon (minx_of boundary_box) (miny_of boundary_box)
          ((maxx_of boundary_box - minx_of boundary_box) / inject_Z num_x)
          ((maxy_of boundary_box - miny_of boundary_box) / inject_Z num_y)
          num_x num_y).
Proof.
  unfold fits_single_tile, effective_max_size, grid_counts, box_km,
    split_boundary_box.
  rewrite bounds_of; intros H; rewrite H; cbv zeta.
  set (width_km := (maxx_of boundary_box - minx_of boundary_box) * _).
  set (height_km := (maxy_of boundary_box - miny_of boundary_box) * _).
  set (size := if Qlt_bool 1000 (width_km * height_km) then _ else _).
  cbn [fst snd]; intros Hsize Hx Hy.
  assert (Hnx : ~ inject_Z (py_ceil (width_km / size)) == 0).
  { intros E; apply Hx.
    apply (proj1 (inject_Z_injective _ 0%Z)); exact E. }
  assert (Hny : ~ inject_Z (py_ceil (height_km / size)) == 0).
  { intros E; apply Hy.
    apply (proj1 (inject_Z_injective _ 0%Z)); exact E. }
  unfold rbind.
  rewrite (py_div_ok width_km size Hsize); unfold ok; cbv beta iota.
  rewrite (py_div_ok height_km size Hsize); unfold ok; cbv beta iota.
  rewrite (py_div_ok _ _ Hnx); unfold ok; cbv beta iota.
  rewrite (py_div_ok _ _ Hny); unfold ok; cbv beta iota.
  reflexivity.
Qed.

End PlannerFacts.

(** Every cell the loops append passed the intersection test. *)
Lemma grid_cells_intersect (intersects : Box -> Geometry -> bool)
      (polygon : Geometry) (minx miny step_x step_y : Q) (num_x num_y : Z) :
  Forall (fun rect => intersects rect polygon = true)
    (grid intersects polygon minx miny step_x step_y num_x num_y).
Proof.
  apply Forall_forall; intros rect Hin.
  unfold grid in Hin.
  apply in_flat_map in Hin; destruct Hin as (i & _ & Hin).
  apply filter_In in Hin; now destruct Hin.
Qed.

(** What [split_boundary_box] returns off the single-tile path is the
    output of the loops. *)
Lemma split_grid_inv (cos_deg : Q -> Q) (intersects : Box -> Geometry -> bool)
      (polygon : Geometry) (boundary_box : Box) (max_size_km : Q)
      (tiles : list Box) :
  fits_single_tile cos_deg boundary_box max_size_km = false ->
  split_boundary_box cos_deg intersects polygon boundary_box max_size_km
  = ok tiles ->
  exists minx miny step_x step_y num_x num_y,
    tiles = grid intersects polygon minx miny step_x step_y num_x num_y.
Proof.
  unfold fits_single_tile, box_km, split_boundary_box.
  rewrite bounds_of; intros H; rewrite H; cbv zeta; unfold rbind.
  repeat match goal with
         | |- context [py_div ?a ?b] =>
             destruct (py_div a b); [discriminate|]
         end.
  intros E; injection E as <-.
  repeat eexists.
Qed.

Definition equator_box : Box := box 0 (-(1 # 20)) (1 # 10) (1 # 20).

(** C6, as stated, fails on the single-tile path: with an empty boundary
    polygon, the box of the examples, eleven kilometres across, comes back
    as the only tile, and it does not intersect the polygon. *)
Lemma single_tile_outside_polygon :
  split_boundary_box (x_cos_deg equator) (x_intersects equator)
    (Polygon [] []) equator_box 30 = ok [equator_box]
  /\ x_intersects equator equator_box (Polygon [] []) = false.
Proof. split; reflexivity. Qed.

(** C6, amended. Every tile in the list [split_boundary_box] returns from
    its grid path intersects the true polygon; on the single-tile path the
    list is the bounding box alone, returned without the test. *)
Theorem split_boundary_box_grid_tiles_intersect :
  forall (cos_deg : Q -> Q) (intersects : Box -> Geometry -> bool)
         (polygon : Geometry) (boundary_box : Box) (max_size_km : Q)
         (tiles : list Box),
    split_boundary_box cos_deg intersects polygon boundary_box max_size_km
    = ok tiles ->
    (fits_single_tile cos_deg boundary_box max_size_km = true
     /\ tiles = [boundary_box])
    \/ (fits_single_tile cos_deg boundary_box max_size_km = false
        /\ Forall (fun rect => intersects rect polygon = true) tiles).
Proof.
  intros cos_deg intersects polygon boundary_box max_size_km tiles Hsplit.
  destruct (fits_single_tile cos_deg boundary_box max_size_km) eqn:Hfits.
  - left; split; [reflexivity|].
    rewrite split_single_tile in Hsplit by exact Hfits.
    now injection Hsplit as <-.
  - right; split; [reflexivity|].
    destruct (split_grid_inv _ _ _ _ _ _ Hfits Hsplit)
      as (minx & miny & step_x & step_y & num_x & num_y & ->).
    apply grid_cells_intersect.
Qed.

Lemma maxy_ge_miny (b : Box) : miny_of b <= maxy_of b.
Proof.
  unfold miny_of, maxy_of.
  apply Qle_trans with (box_y1 b); [apply Q.le_min_l | apply Q.le_max_l].
Qed.

Lemma Qlt_bool_iff (x y : Q) : Qlt_bool x y = true <-> x < y.
Proof.
  unfold Qlt_bool; rewrite negb_true_iff.
  split; intros H.
  - apply Qnot_le_lt; intros Hle.
    apply Qle_bool_iff in Hle; congruence.
  - destruct (Qle_bool y x) eqn:E; [|reflexivity].
    apply Qle_bool_iff in E; exfalso; apply (Qlt_not_le _ _ H E).
Qed.

(** [math.ceil] of a positive quotient is at least one. *)
Lemma py_ceil_pos (a b : Q) : 0 < a -> 0 < b -> (1 <= py_ceil (a / b))%Z.
Proof.
  intros Ha Hb; unfold py_ceil.
  assert (Hq : 0 < a / b).
  { apply Qlt_shift_div_l; [exact Hb | now rewrite Qmult_0_l]. }
  pose proof (Qle_ceiling (a / b)) as Hc.
  assert (Hz : inject_Z 0 < inject_Z (Qceiling (a / b))).
  { apply Qlt_le_trans with (a / b); assumption. }
  rewrite <- Zlt_Qlt in Hz; lia.
Qed.

(** A bounding box and the box as [split_boundary_box] measures it. *)
Lemma box_km_height_nonneg (cos_deg : Q -> Q) (b : Box) :
  0 <= snd (box_km cos_deg b).
Proof.
  unfold box_km; rewrite bounds_of; simpl.
  pose proof (maxy_ge_miny b); lra.
Qed.

Lemma box_km_large_positive (cos_deg : Q -> Q) (b : Box) :
  1000 < fst (box_km cos_deg b) * snd (box_km cos_deg b) ->
  0 < fst (box_km cos_deg b) /\ 0 < snd (box_km cos_deg b).
Proof.
  pose proof (box_km_height_nonneg cos_deg b) as Hh.
  intros Harea.
  assert (Hpos : 0 < snd (box_km cos_deg b)).
  { destruct (Qlt_le_dec 0 (snd (box_km cos_deg b))) as [H|H]; [exact H|].
    assert (E : snd (box_km cos_deg b) == 0) by (apply Qle_antisym; assumption).
    rewrite E, Qmult_0_r in Harea; lra. }
  split; [|exact Hpos].
  destruct (Qlt_le_dec 0 (fst (box_km cos_deg b))) as [H|H]; [exact H|].
  exfalso.
  assert (fst (box_km cos_deg b) * snd (box_km cos_deg b) <= 0).
  { rewrite <- (Qmult_0_l (snd (box_km cos_deg b))).
    apply Qmult_le_compat_r; [exact H | exact Hh]. }
  lra.
Qed.

Definition degree_box : Box := box 0 (-(1 # 2)) 1 (1 # 2).

(** C7, as stated, fails: for a box of one degree across the equator, 111
    km by 111 km, the call with the default 30 leaves the extent at 30, not
    above it, and returns the sixteen tiles of the fixed 30 km grid. *)
Lemma default_extent_is_not_widened :
  fits_single_tile (x_cos_deg equator) degree_box 30 = false
  /\ 1000 < fst (box_km (x_cos_deg equator) degree_box)
            * snd (box_km (x_cos_deg equator) degree_box)
  /\ ~ 30 < effective_max_size (x_cos_deg equator) degree_box 30
  /\ grid_counts (x_cos_deg equator) degree_box 30 = (4, 4)%Z
  /\ exists tiles,
      split_boundary_box (x_cos_deg equator) keep_all equator_square
        degree_box 30 = ok tiles
      /\ List.length tiles = 16%nat.
Proof.
  split; [reflexivity|].
  split; [reflexivity|].
  split; [intros H; vm_compute in H; discriminate|].
  split; [reflexivity|].
  eexists; split; [vm_compute; reflexivity | reflexivity].
Qed.

(** C7, amended. For every bounding box that does not fit in a single tile
    and whose area proxy exceeds 1000, the clamp puts the maximum tile
    extent in the interval from 30 to 60, which widens it only when the
    caller passed less than 30; with the default 30 it stays 30, and
    [split_boundary_box] returns the cells of the fixed 30 km grid, with the
    counts [ceil(width_km / 30)] and [ceil(height_km / 30)]. *)
Theorem default_extent_stays_at_30 :
  forall (cos_deg : Q -> Q) (intersects : Box -> Geometry -> bool)
         (polygon : Geometry) (boundary_box : Box),
    fits_single_tile cos_deg boundary_box 30 = false ->
    1000 < fst (box_km cos_deg boundary_box)
           * snd (box_km cos_deg boundary_box) ->
    effective_max_size cos_deg boundary_box 30 = 30
    /\ (forall max_size_km,
           30 <= effective_max_size cos_deg boundary_box max_size_km
           /\ effective_max_size cos_deg boundary_box max_size_km <= 60
           /\ (30 <= max_size_km -> max_size_km <= 60 ->
               effective_max_size cos_deg boundary_box max_size_km
               == max_size_km))
    /\ (1 <= fst (grid_counts cos_deg boundary_box 30))%Z
    /\ (1 <= snd (grid_counts cos_deg boundary_box 30))%Z
    /\ split_boundary_box cos_deg intersects polygon boundary_box 30
       = ok (grid intersects polygon
               (minx_of boundary_box) (miny_of boundary_box)
               ((maxx_of boundary_box - minx_of boundary_box)
                  / inject_Z (fst (grid_counts cos_deg boundary_box 30)))
               ((maxy_of boundary_box - miny_of boundary_box)
                  / inject_Z (snd (grid_counts cos_deg boundary_box 30)))
               (fst (grid_counts cos_deg boundary_box 30))
               (snd (grid_counts cos_deg boundary_box 30))).
Proof.
  intros cos_deg intersects polygon boundary_box Hfits Harea.
  destruct (box_km_large_positive cos_deg boundary_box Harea) as [Hw Hh].
  assert (Hclamp : forall m,
             effective_max_size cos_deg boundary_box m = Qmin 60 (Qmax 30 m)).
  { intros m; unfold effective_max_size.
    destruct (box_km cos_deg boundary_box) as [w h]; simpl in Harea.
    apply Qlt_bool_iff in Harea; now rewrite Harea. }
  assert (Hsize : effective_max_size cos_deg boundary_box 30 = 30).
  { rewrite Hclamp; reflexivity. }
  assert (Hx : (1 <= fst (grid_counts cos_deg boundary_box 30))%Z).
  { unfold grid_counts; destruct (box_km cos_deg boundary_box) as [w h].
    simpl in *; apply py_ceil_pos; [exact Hw | reflexivity]. }
  assert (Hy : (1 <= snd (grid_counts cos_deg boundary_box 30))%Z).
  { unfold grid_counts; destruct (box_km cos_deg boundary_box) as [w h].
    simpl in *; apply py_ceil_pos; [exact Hh | reflexivity]. }
  split; [exact Hsize|].
  split.
  { intros m; rewrite Hclamp.
    pose proof (Q.le_max_l 30 m) as H1.
    pose proof (Q.le_max_r 30 m) as H1'.
    split; [apply Q.min_glb; [lra | exact H1]|].
    split; [apply Q.le_min_l|].
    intros Hlo Hhi.
    rewrite (Q.max_r 30 m Hlo).
    apply Q.min_r; exact Hhi. }
  split; [exact Hx|].
  split; [exact Hy|].
  pose proof (split_grid cos_deg intersects polygon boundary_box 30 Hfits)
    as Hgrid.
  cbv zeta in Hgrid; rewrite Hsize in Hgrid.
  apply Hgrid; [intros E; vm_compute in E; discriminate | lia | lia].
Qed.

Definition flat_box : Box := box 0 0 1 0.

(** C5. The code breaks the claim on a bounding box without height that is
    wider than the maximum extent: [num_y] is [ceil(0)], zero, and the
    division that computes [step_y] raises; no tile list is returned.  At
    [flat_box], one degree of the equator, with the default 30. *)
Theorem split_boundary_box_flat_box_raises :
  forall (cos_deg : Q -> Q) (intersects : Box -> Geometry -> bool)
         (polygon : Geometry) (boundary_box : Box) (max_size_km : Q),
    0 < max_size_km ->
    miny_of boundary_box == maxy_of boundary_box ->
    max_size_km < fst (box_km cos_deg boundary_box) ->
    split_boundary_box cos_deg intersects polygon boundary_box max_size_km
    = raise ZeroDivisionError.
Proof.
  intros cos_deg intersects polygon boundary_box max_size_km Hmax Hflat Hwide.
  unfold box_km in Hwide; rewrite bounds_of in Hwide; cbn [fst] in Hwide.
  unfold split_boundary_box; rewrite bounds_of; cbv zeta.
  set (width_km := (maxx_of boundary_box - minx_of boundary_box) * _) in *.
  set (height_km := (maxy_of boundary_box - miny_of boundary_box) * 111).
  assert (Hh : height_km == 0) by (unfold height_km; rewrite Hflat; ring).
  assert (Hfit : Qle_bool width_km max_size_km = false).
  { destruct (Qle_bool width_km max_size_km) eqn:E; [|reflexivity].
    apply Qle_bool_iff in E; exfalso; apply (Qlt_not_le _ _ Hwide E). }
  rewrite Hfit; cbn [andb].
  assert (Harea : Qlt_bool 1000 (width_km * height_km) = false).
  { destruct (Qlt_bool 1000 (width_km * height_km)) eqn:E; [|reflexivity].
    apply Qlt_bool_iff in E; rewrite Hh, Qmult_0_r in E; discriminate. }
  rewrite Harea.
  assert (Hsize : ~ max_size_km == 0) by (intros E; rewrite E in Hmax; discriminate).
  assert (Hx : (1 <= py_ceil (width_km / max_size_km))%Z).
  { apply py_ceil_pos; [|exact Hmax].
    apply Qlt_trans with max_size_km; assumption. }
  assert (Hy : py_ceil (height_km / max_size_km) = 0%Z).
  { unfold py_ceil.
    assert (E : height_km / max_size_km == 0)
      by (rewrite Hh; unfold Qdiv; ring).
    now rewrite E. }
  unfold rbind.
  rewrite (py_div_ok width_km max_size_km Hsize); unfold ok; cbv beta iota.
  rewrite (py_div_ok height_km max_size_km Hsize); unfold ok; cbv beta iota.
  rewrite py_div_ok; unfold ok; cbv beta iota.
  - rewrite Hy; rewrite py_div_zero; reflexivity.
  - intros E.
    apply (proj1 (inject_Z_injective _ 0%Z)) in E; lia.
Qed.

Lemma split_boundary_box_flat_box_raises_witness :
  split_boundary_box (x_cos_deg equator) keep_all equator_square flat_box 30
  = raise ZeroDivisionError.
Proof.
  apply (split_boundary_box_flat_box_raises (x_cos_deg equator) keep_all
           equator_square flat_box 30); reflexivity.
Defined.

(** *** Closed instances of the theorems above *)

Definition sample_image : Image := mkImage 256 256 0.

(** The second attempt succeeds. *)
Definition second_time_lucky (retry : Z) : Attempt :=
  if (retry =? 1)%Z then HttpResponse 200 (Some sample_image)
  else HttpResponse 503 None.

Lemma export_sub_polygon_as_png_retries_witness :
  export_sub_polygon_as_png (fun _ => TransportError) 3 empty_store
  = (ok None, after_fetch 3 3 empty_store)
  /\ export_sub_polygon_as_png second_time_lucky 3 empty_store
     = (ok (Some sample_image), after_fetch 2 1 empty_store).
Proof.
  split.
  - apply (export_sub_polygon_as_png_retries (fun _ => TransportError) 3
             empty_store).
    intros i Hi; reflexivity.
  - apply (proj1 (proj2 (export_sub_polygon_as_png_retries second_time_lucky 3
                           empty_store)) 1%Z sample_image).
    + lia.
    + intros i Hi; assert (i = 0%Z) as -> by lia; reflexivity.
    + reflexivity.
Defined.

Definition degree_tiles : list Box :=
  match split_boundary_box (x_cos_deg equator) (x_intersects equator)
          equator_square degree_box 30 with
  | inr tiles => tiles
  | inl _ => []
  end.

Lemma split_boundary_box_grid_tiles_intersect_witness :
  (fits_single_tile (x_cos_deg equator) degree_box 30 = true
   /\ degree_tiles = [degree_box])
  \/ (fits_single_tile (x_cos_deg equator) degree_box 30 = false
      /\ Forall (fun rect => x_intersects equator rect equator_square = true)
           degree_tiles).
Proof.
  apply (split_boundary_box_grid_tiles_intersect (x_cos_deg equator)
           (x_intersects equator) equator_square degree_box 30 degree_tiles).
  vm_compute; reflexivity.
Defined.

Lemma default_extent_stays_at_30_witness :
  effective_max_size (x_cos_deg equator) degree_box 30 = 30
  /\ (1 <= fst (grid_counts (x_cos_deg equator) degree_box 30))%Z
  /\ (1 <= snd (grid_counts (x_cos_deg equator) degree_box 30))%Z.
Proof.
  destruct (default_extent_stays_at_30 (x_cos_deg equator)
              (x_intersects equator) equator_square degree_box)
    as (Hsize & _ & Hx & Hy & _).
  - reflexivity.
  - reflexivity.
  - repeat split; assumption.
Defined.

(** ** Canvas size of [merge_images_properly] *)

(** [int(x)] is less than one away from [x]. *)
Lemma py_int_near (x : Q) :
  x - 1 < inject_Z (py_int x) /\ inject_Z (py_int x) < x + 1.
Proof.
  unfold py_int.
  destruct (Qle_bool 0 x).
  - pose proof (Qfloor_le x) as H1.
    pose proof (Qlt_floor x) as H2.
    rewrite inject_Z_plus in H2; change (inject_Z 1) with 1 in H2.
    split; lra.
  - pose proof (Qle_ceiling x) as H1.
    pose proof (Qceiling_lt x) as H2.
    unfold Z.sub in H2; rewrite inject_Z_plus, inject_Z_opp in H2.
    change (inject_Z 1) with 1 in H2.
    split; lra.
Qed.

Lemma py_int_le (x : Q) (n : Z) : (0 <= n)%Z -> x <= inject_Z n -> (py_int x <= n)%Z.
Proof.
  intros Hn Hx; unfold py_int.
  destruct (Qle_bool 0 x) eqn:E.
  - rewrite Zle_Qle.
    apply Qle_trans with x; [apply Qfloor_le | exact Hx].
  - assert (Hneg : x <= 0).
    { apply Qlt_le_weak, Qnot_le_lt; intros H.
      apply Qle_bool_iff in H; congruence. }
    apply Z.le_trans with 0%Z; [|exact Hn].
    change 0%Z with (Qceiling 0).
    now apply Qceiling_resp_le.
Qed.


Definition wide_box : Box := box 0 (-(1 # 20)) 1 (1 # 20).

(** C4. The [Legacy] copy breaks the claim.  For [wide_box], one degree by a
    tenth of a degree across the equator, the sizes before the cap are 5550
    by 555 pixels for a height of 11100 metres; [Backend] caps them to 5000
    by 500; [Legacy] divides the metres, not the pixels, by the factor and
    yields 5000 by 10000: a height above the maximum and another aspect
    ratio. *)
Theorem legacy_canvas_height_not_capped :
  fst (fst (pixel_size (x_cos_deg equator) wide_box)) = 5550%Z
  /\ snd (fst (pixel_size (x_cos_deg equator) wide_box)) = 555%Z
  /\ snd (pixel_size (x_cos_deg equator) wide_box) == 11100
  /\ canvas_size Backend (x_cos_deg equator) wide_box = (5000, 500)%Z
  /\ canvas_size Legacy (x_cos_deg equator) wide_box = (5000, 10000)%Z.
Proof. repeat split; vm_compute; reflexivity. Qed.

(** ** [calculate_area_statistics] *)

(** *** Dictionaries *)

Lemma dict_set_fresh {V} (k : string) (v : V) (d : PyDict.dict V) :
  PyDict.get k d = None -> PyDict.set k v d = d ++ [(k, v)].
Proof.
  induction d as [|[k' v'] d IH]; simpl; [reflexivity|].
  destruct (String.eqb k' k); [discriminate|].
  intros H; now rewrite IH.
Qed.

Lemma dict_get_app {V} (k : string) (d d' : PyDict.dict V) :
  PyDict.get k (d ++ d')
  = match PyDict.get k d with
    | Some v => Some v
    | None => PyDict.get k d'
    end.
Proof.
  induction d as [|[k' v'] d IH]; simpl; [reflexivity|].
  now destruct (String.eqb k' k).
Qed.

(** Setting the keys of a list one after the other, none of them present
    and no two alike, appends the list. *)
Lemma fold_set_fresh {V W} (f : W -> V) (l : list (string * W))
      (acc : PyDict.dict V) :
  NoDup (map fst l) ->
  (forall k, In k (map fst l) -> PyDict.get k acc = None) ->
  fold_left (fun d kv => PyDict.set (fst kv) (f (snd kv)) d) l acc
  = acc ++ map (fun kv => (fst kv, f (snd kv))) l.
Proof.
  revert acc; induction l as [|[k w] l IH]; intros acc Hnd Hfresh; simpl.
  - now rewrite app_nil_r.
  - inversion Hnd as [|? ? Hk Hl]; subst.
    rewrite dict_set_fresh by (apply Hfresh; now left).
    rewrite IH; [now rewrite <- app_assoc | exact Hl |].
    intros k' Hk'.
    rewrite dict_get_app, Hfresh by (now right); simpl.
    destruct (String.eqb k k') eqn:E; [|reflexivity].
    apply String.eqb_eq in E; subst; contradiction.
Qed.

(** Reading a key after the defaults have been set. *)
Lemma get_after_defaults (names : list string) (d : PyDict.dict Q)
      (n : string) :
  PyDict.get n
    (fold_left (fun areas name => PyDict.setdefault name 0 areas) names d)
  = match PyDict.get n d with
    | Some v => Some v
    | None => if existsb (String.eqb n) names then Some 0 else None
    end.
Proof.
  revert d; induction names as [|name names IH]; intros d; simpl.
  - now destruct (PyDict.get n d).
  - rewrite IH; unfold PyDict.setdefault.
    destruct (PyDict.get name d) eqn:Hname.
    + destruct (PyDict.get n d) eqn:Hn; [reflexivity|].
      destruct (String.eqb n name) eqn:E; [|reflexivity].
      apply String.eqb_eq in E; subst; congruence.
    + rewrite dict_set_fresh by exact Hname.
      rewrite dict_get_app; simpl.
      destruct (PyDict.get n d); [reflexivity|].
      rewrite (String.eqb_sym name n).
      now destruct (String.eqb n name).
Qed.

(** *** Class codes and class names *)

(** [CLASS_NAMES[k]] for a class code [k]. *)
Definition name_of (k : Z) : string := nth (Z.to_nat k) CLASS_NAMES EmptyString.

Definition is_class_code (k : Z) : Prop := (0 <= k < 11)%Z.

Lemma class_code_cases (k : Z) :
  is_class_code k ->
  k = 0%Z \/ k = 1%Z \/ k = 2%Z \/ k = 3%Z \/ k = 4%Z \/ k = 5%Z \/ k = 6%Z
  \/ k = 7%Z \/ k = 8%Z \/ k = 9%Z \/ k = 10%Z.
Proof. unfold is_class_code; lia. Qed.

Lemma py_index_class_name (k : Z) :
  is_class_code k -> py_index CLASS_NAMES k = ok (name_of k).
Proof.
  intros H; apply class_code_cases in H.
  repeat (destruct H as [-> | H]; [reflexivity|]); subst; reflexivity.
Qed.

Lemma name_of_eqb (k k' : Z) :
  is_class_code k -> is_class_code k' ->
  String.eqb (name_of k) (name_of k') = (k =? k')%Z.
Proof.
  intros H H'; apply class_code_cases in H, H'.
  repeat (destruct H as [-> | H]);
    repeat (destruct H' as [-> | H']); subst; reflexivity.
Qed.

Lemma name_of_listed (k : Z) :
  is_class_code k -> existsb (String.eqb (name_of k)) CLASS_NAMES = true.
Proof.
  intros H; apply class_code_cases in H.
  repeat (destruct H as [-> | H]; [reflexivity|]); subst; reflexivity.
Qed.

(** *** Rounding and sums *)

Lemma round_half_even_comp (x y : Q) :
  x == y -> round_half_even x = round_half_even y.
Proof.
  intros H; unfold round_half_even.
  rewrite (Qfloor_comp x y H).
  assert (E : x - inject_Z (Qfloor y) == y - inject_Z (Qfloor y))
    by (rewrite H; reflexivity).
  now rewrite (Qcompare_comp _ _ E (1 # 2) (1 # 2) (Qeq_refl _)).
Qed.

Lemma round5_comp (x y : Q) : x == y -> round5 x = round5 y.
Proof.
  intros H; unfold round5.
  assert (E : x * 100000 == y * 100000) by (rewrite H; reflexivity).
  now rewrite (round_half_even_comp _ _ E).
Qed.

Lemma py_sum_nonneg (xs : list Q) : Forall (fun x => 0 <= x) xs -> 0 <= py_sum xs.
Proof.
  unfold py_sum.
  assert (G : forall acc, 0 <= acc -> Forall (fun x => 0 <= x) xs ->
                          0 <= fold_left Qplus xs acc).
  { induction xs as [|x xs IH]; intros acc Hacc Hxs; simpl; [exact Hacc|].
    inversion Hxs; subst.
    apply IH; [lra | assumption]. }
  intros H; apply G; [lra | exact H].
Qed.

Lemma truthy_nonneg (x : Q) : 0 <= x -> truthy x = Qlt_bool 0 x.
Proof.
  intros Hx; unfold truthy.
  destruct (Qlt_bool 0 x) eqn:E.
  - apply Qlt_bool_iff in E.
    destruct (Qeq_bool x 0) eqn:E0; [|reflexivity].
    apply Qeq_bool_eq in E0; rewrite E0 in E; discriminate.
  - destruct (Qeq_bool x 0) eqn:E0; [reflexivity|].
    apply Qeq_bool_neq in E0.
    assert (Hlt : 0 < x).
    { apply Qle_lt_or_eq in Hx; destruct Hx as [H|H]; [exact H|].
      exfalso; apply E0; now symmetry. }
    apply Qlt_bool_iff in Hlt; congruence.
Qed.

(** *** The histogram of the claim *)

(** A histogram over class codes: one entry at most for a code, every code
    one of the eleven, every count non-negative. *)
Definition class_code_histogram (hist : Histogram) : Prop :=
  NoDup (map fst hist)
  /\ Forall (fun kv => is_class_code (fst kv) /\ 0 <= snd kv) hist.

(** The count of class [k]: its entry, or zero when the class is absent. *)
Definition count_of (hist : Histogram) (k : Z) : Q :=
  match find (fun kv => (fst kv =? k)%Z) hist with
  | Some kv => snd kv
  | None => 0
  end.

Definition named (hist : Histogram) : PyDict.dict Q :=
  map (fun kv => (name_of (fst kv), snd kv)) hist.

Lemma totals_of_class_codes (hist : Histogram) (acc : PyDict.dict Q) :
  NoDup (map fst hist) ->
  Forall (fun kv => is_class_code (fst kv) /\ 0 <= snd kv) hist ->
  (forall kv, In kv hist -> PyDict.get (name_of (fst kv)) acc = None) ->
  totals_from hist acc = ok (acc ++ named hist).
Proof.
  revert acc; induction hist as [|[k v] r IH]; intros acc Hnd Hcodes Hfresh.
  - simpl; now rewrite app_nil_r.
  - inversion Hnd as [|? ? Hk Hr]; subst.
    inversion Hcodes as [|? ? [Hcode _] Hrest]; subst.
    simpl in Hcode.
    cbn [totals_from].
    replace (k <? Z.of_nat (List.length CLASS_NAMES))%Z with true
      by (symmetry; apply Z.ltb_lt; unfold is_class_code in Hcode;
          simpl; lia).
    rewrite py_index_class_name by exact Hcode.
    cbn [rbind ok].
    rewrite dict_set_fresh by (apply (Hfresh (k, v)); now left).
    rewrite IH; [| exact Hr | exact Hrest |].
    + unfold named; simpl; now rewrite <- app_assoc.
    + intros [k' v'] Hin.
      rewrite dict_get_app, (Hfresh (k', v')) by (now right); simpl.
      rewrite Forall_forall in Hrest.
      destruct (Hrest _ Hin) as [Hcode' _]; simpl in Hcode'.
      rewrite name_of_eqb by assumption.
      destruct (k =? k')%Z eqn:E; [|reflexivity].
      apply Z.eqb_eq in E; subst.
      exfalso; apply Hk.
      change k' with (fst (k', v')); now apply in_map.
Qed.

Lemma named_keys_nodup (hist : Histogram) :
  NoDup (map fst hist) ->
  Forall (fun kv => is_class_code (fst kv) /\ 0 <= snd kv) hist ->
  NoDup (map fst (named hist)).
Proof.
  intros Hnd Hcodes.
  unfold named; rewrite map_map; simpl.
  rewrite <- (map_map fst name_of).
  apply Injective_map_NoDup_in; [|exact Hnd].
  intros k k' Hk Hk' E.
  rewrite Forall_forall in Hcodes.
  apply in_map_iff in Hk, Hk'.
  destruct Hk as ([? ?] & <- & Hin), Hk' as ([? ?] & <- & Hin').
  destruct (Hcodes _ Hin) as [Hc _], (Hcodes _ Hin') as [Hc' _].
  simpl in *.
  apply Z.eqb_eq; rewrite <- name_of_eqb by assumption.
  now apply String.eqb_eq.
Qed.

(** Reading a class name in a dictionary built from the histogram. *)
Lemma get_named (hist : Histogram) (g : Q -> Q) (k : Z) :
  Forall (fun kv => is_class_code (fst kv) /\ 0 <= snd kv) hist ->
  is_class_code k ->
  PyDict.get (name_of k) (map (fun kv => (fst kv, g (snd kv))) (named hist))
  = match find (fun kv => (fst kv =? k)%Z) hist with
    | Some kv => Some (g (snd kv))
    | None => None
    end.
Proof.
  intros Hcodes Hk.
  induction hist as [|[k' v'] r IH]; simpl; [reflexivity|].
  inversion Hcodes as [|? ? [Hc _] Hrest]; subst; simpl in Hc.
  rewrite name_of_eqb by assumption.
  destruct (k' =? k)%Z; [reflexivity | now apply IH].
Qed.

Definition spec_histogram : Histogram := [(1%Z, 40); (10%Z, 10); (0%Z, 50)].

(** C1. For every histogram over class codes and every ground-truth area,
    [calculate_area_statistics] ([Backend]) takes as [pixel_sum] the sum of
    all the counts of the histogram and gives each of the eleven classes the
    area [round((count / pixel_sum) * total_area, 5)] when [pixel_sum > 0]
    and 0 otherwise, the count of a class absent from the histogram being 0;
    the forest figures of the report are read from these areas.  For the
    histogram with 40 trees, 10 natural forest and 50 water and the area
    100 it reports 10 km2 of natural forest, 40 km2 of other trees, 50 km2
    of forest, and 20 and 80 percent. *)
Theorem calculate_area_statistics_proportional :
  forall (hist : Histogram) (total_area : Q),
    class_code_histogram hist ->
    exists totals areas,
      totals_from hist [] = ok totals
      /\ pixel_sum_of Backend hist totals = py_sum (map snd hist)
      /\ class_areas Backend hist total_area = ok areas
      /\ (forall k,
             is_class_code k ->
             PyDict.get (name_of k) areas
             = Some (if Qlt_bool 0 (py_sum (map snd hist))
                     then round5 ((count_of hist k / py_sum (map snd hist))
                                  * total_area)
                     else 0))
      /\ (forall image_date,
             exists stats,
               area_statistics Backend hist total_area image_date = ok stats
               /\ natural_forest_km2 stats
                  = round5 (area_of areas "natural_forest")
               /\ other_trees_km2 stats = round5 (area_of areas "trees")
               /\ forest_area_km2 stats
                  = round5 (area_of areas "natural_forest"
                            + area_of areas "trees"))
      /\ exists stats,
          area_statistics Backend spec_histogram 100 "2024-05-03" = ok stats
          /\ natural_forest_km2 stats = 10
          /\ other_trees_km2 stats = 40
          /\ forest_area_km2 stats = 50
          /\ natural_forest_percentage stats = 20
          /\ other_trees_percentage stats = 80.
Proof.
  intros hist total_area [Hnd Hcodes].
  set (pixel_sum := py_sum (map snd hist)).
  assert (Htotals : totals_from hist [] = ok (named hist)).
  { rewrite (totals_of_class_codes hist [] Hnd Hcodes); [reflexivity|].
    intros; reflexivity. }
  assert (Hsum : pixel_sum_of Backend hist (named hist) = pixel_sum).
  { unfold pixel_sum_of, PyDict.values, named, pixel_sum.
    now rewrite map_map. }
  assert (Hpos : 0 <= pixel_sum).
  { apply py_sum_nonneg, Forall_forall.
    intros x Hx; apply in_map_iff in Hx; destruct Hx as (kv & <- & Hin).
    rewrite Forall_forall in Hcodes; now destruct (Hcodes _ Hin). }
  set (f := fun v : Q => class_area Backend v pixel_sum total_area).
  assert (Hareas : areas_from Backend (named hist) pixel_sum total_area
                   = map (fun kv => (fst kv, f (snd kv))) (named hist)).
  { unfold areas_from.
    exact (fold_set_fresh f (named hist) []
             (named_keys_nodup hist Hnd Hcodes) (fun _ _ => eq_refl)). }
  exists (named hist),
    (with_defaults (map (fun kv => (fst kv, f (snd kv))) (named hist))).
  split; [exact Htotals|].
  split; [exact Hsum|].
  assert (Hclass : class_areas Backend hist total_area
                   = ok (with_defaults
                           (map (fun kv => (fst kv, f (snd kv)))
                              (named hist)))).
  { unfold class_areas; rewrite Htotals; cbn [rbind ok].
    now rewrite Hsum, Hareas. }
  split; [exact Hclass|].
  split.
  { intros k Hk.
    unfold with_defaults; rewrite get_after_defaults.
    rewrite (get_named hist f k Hcodes Hk), (name_of_listed k Hk).
    unfold count_of.
    destruct (find (fun kv => (fst kv =? k)%Z) hist) as [kv|].
    - unfold f, class_area; now rewrite (truthy_nonneg _ Hpos).
    - (* a zero count: the numerator of the quotient is zero *)
      destruct (Qlt_bool 0 pixel_sum); reflexivity. }
  split.
  { intros image_date; unfold area_statistics; rewrite Hclass.
    cbn [rbind ok]; eexists; split; [reflexivity|].
    repeat split. }
  eexists; split; [vm_compute; reflexivity|].
  repeat split.
Qed.

Lemma calculate_area_statistics_proportional_witness :
  exists totals areas,
    totals_from spec_histogram [] = ok totals
    /\ pixel_sum_of Backend spec_histogram totals = 100
    /\ class_areas Backend spec_histogram 100 = ok areas
    /\ PyDict.get "natural_forest" areas = Some 10
    /\ PyDict.get "trees" areas = Some 40
    /\ PyDict.get "water" areas = Some 50
    /\ PyDict.get "grass" areas = Some 0.
Proof.
  assert (H : class_code_histogram spec_histogram).
  { split.
    - repeat constructor; simpl; intuition discriminate.
    - repeat constructor; simpl; try lia; discriminate. }
  destruct (calculate_area_statistics_proportional spec_histogram 100 H)
    as (totals & areas & Ht & Hs & Ha & Hget & _).
  exists totals, areas.
  split; [exact Ht|].
  split; [exact Hs|].
  split; [exact Ha|].
  split; [exact (Hget 10%Z ltac:(unfold is_class_code; lia))|].
  split; [exact (Hget 1%Z ltac:(unfold is_class_code; lia))|].
  split; [exact (Hget 0%Z ltac:(unfold is_class_code; lia))|].
  exact (Hget 2%Z ltac:(unfold is_class_code; lia)).
Defined.

(** Entries whose code is not below the number of classes are left out of
    the totals, hence of [pixel_sum], by the guard of the comprehension. *)
Lemma totals_skip_unknown_code (k : Z) (v : Q) (hist : Histogram)
      (acc : PyDict.dict Q) :
  (11 <= k)%Z -> totals_from ((k, v) :: hist) acc = totals_from hist acc.
Proof.
  intros Hk; cbn [totals_from].
  replace (k <? Z.of_nat (List.length CLASS_NAMES))%Z with false;
    [reflexivity|].
  symmetry; apply Z.ltb_ge; simpl; lia.
Qed.

(** ** The run and the handler *)

(** The run wrote no file and uploaded nothing. *)
Definition same_outputs (s s' : Store) : Prop :=
  files s' = files s /\ s3_objects s' = s3_objects s.

(** The run uploaded nothing and wrote statistics files at most. *)
Definition only_stats_written (s s' : Store) : Prop :=
  s3_objects s' = s3_objects s
  /\ forall path a, In (path, a) (files s') ->
                    In (path, a) (files s) \/ exists stats, a = StatsFile stats.

Lemma same_outputs_refl (s : Store) : same_outputs s s.
Proof. now split. Qed.

Lemma same_outputs_trans (s1 s2 s3 : Store) :
  same_outputs s1 s2 -> same_outputs s2 s3 -> same_outputs s1 s3.
Proof. intros [? ?] [? ?]; split; congruence. Qed.

Lemma same_outputs_only_stats (s s' : Store) :
  same_outputs s s' -> only_stats_written s s'.
Proof.
  intros [Hf Hs]; split; [exact Hs|].
  intros path a Hin; left; now rewrite <- Hf.
Qed.

Lemma only_stats_trans (s1 s2 s3 : Store) :
  only_stats_written s1 s2 -> only_stats_written s2 s3 ->
  only_stats_written s1 s3.
Proof.
  intros [Hs Hf] [Hs' Hf']; split; [congruence|].
  intros path a Hin.
  destruct (Hf' _ _ Hin) as [H|H]; [now apply Hf | now right].
Qed.

Lemma shapely_to_ee_outputs (X : Externals) (w : string) (s s' : Store)
      (r : Res EEGeometry) :
  shapely_to_ee X w s = (r, s') -> same_outputs s s'.
Proof.
  unfold shapely_to_ee, lru_cached, bind, lift, ret.
  destruct (lru_find String.eqb w (ee_cache s)).
  - intros H; inversion H; subst; now split.
  - destruct (x_wkt_loads X w); intros H; inversion H; subst; now split.
Qed.

Lemma get_protected_areas_outputs (X : Externals) (w : string) (d : Date)
      (s s' : Store) (r : Res Mask) :
  get_protected_areas X w d s = (r, s') -> same_outputs s s'.
Proof.
  unfold get_protected_areas, lru_cached.
  destruct (lru_find pa_key_eqb (w, d) (pa_cache s)).
  - intros H; inversion H; subst; now split.
  - unfold get_protected_areas_body, bind, modify, ret.
    destruct (shapely_to_ee X w s) as [[e|g] s1] eqn:E;
      apply shapely_to_ee_outputs in E; destruct E as [Hf Hs];
      intros H; inversion H; subst; split; simpl; assumption.
Qed.

(** *** Scenes *)

Lemma insert_scene_in (x y : Scene) (l : list Scene) :
  In y (insert_scene x l) -> y = x \/ In y l.
Proof.
  induction l as [|z l IH]; simpl.
  - intros [H|[]]; now left.
  - destruct (Qle_bool _ _); simpl.
    + intros [H|[H|H]]; auto.
    + intros [H|H]; auto.
      destruct (IH H); auto.
Qed.

Lemma sort_scenes_in (y : Scene) (l : list Scene) :
  In y (sort_scenes l) -> In y l.
Proof.
  induction l as [|x l IH]; simpl; [auto|].
  intros H; apply insert_scene_in in H; destruct H; auto.
Qed.

(** Every scene of the collection [s2] is one of the scenes available and
    is below 35 percent. *)
Lemma s2_collection_in (scenes : list Scene) (y : Scene) :
  In y (s2_collection scenes) ->
  In y scenes /\ cloudy_pixel_percentage y < 35.
Proof.
  unfold s2_collection; intros H.
  apply sort_scenes_in, filter_In in H.
  destruct H as [Hin Hc]; split; [exact Hin | now apply Qlt_bool_iff].
Qed.

Definition bbox_of (ud : UserData) : Box :=
  box (ud_bbox_west ud) (ud_bbox_south ud) (ud_bbox_east ud)
      (ud_bbox_north ud).

(** The run up to the choice of the scene: what it returns when the least
    cloudy scene available is above the threshold of the copy. *)
Lemma cloudy_run_returns_nothing (copy : Copy) (X : Externals) (W : World)
      (ud : UserData) (g : Geometry) (scenes : list Scene) (best : Scene)
      (dir : string) (s : Store) :
  w_user_data W = ok ud ->
  x_wkt_loads X (x_wkt X (ud_city_geometry ud)) = ok g ->
  w_scenes W = ok scenes ->
  In best scenes ->
  (forall sc, In sc scenes ->
              cloudy_pixel_percentage best <= cloudy_pixel_percentage sc) ->
  cloud_threshold copy < cloudy_pixel_percentage best ->
  exists s',
    process_natural_forest_classification copy X W dir s
    = (ok (None, bbox_of ud), s')
    /\ same_outputs s s'.
Proof.
  intros Hud Hload Hscenes Hin Hbest Hcloud.
  destruct (shapely_to_ee_returns X _ g s Hload) as (e & s1 & He).
  pose proof (shapely_to_ee_outputs X _ s s1 _ He) as Hout.
  exists s1; split; [|exact Hout].
  unfold process_natural_forest_classification, load_boundary, bind, lift, ret.
  rewrite Hud; unfold ok; cbv beta iota.
  rewrite He, Hscenes; unfold ok; cbv beta iota.
  destruct (s2_collection scenes) as [|first_image rest] eqn:Hs2;
    [reflexivity|].
  assert (Hfirst : In first_image (s2_collection scenes))
    by (rewrite Hs2; now left).
  apply s2_collection_in in Hfirst; destruct Hfirst as [Hfin Hlt].
  pose proof (Hbest _ Hfin) as Hle.
  destruct copy; simpl in Hcloud.
  - assert (Hhigh : Qlt_bool 1 (cloudy_pixel_percentage first_image) = true)
      by (apply Qlt_bool_iff; lra).
    now rewrite Hhigh.
  - exfalso; lra.
Qed.

(** C2. For every run of the [analysis] operation that reaches the scene
    query with at least one scene available, when the least cloudy of the
    available scenes is above the cloud threshold of the copy (1 percent in
    [Backend], which tests the first scene; 35 percent in [Legacy], whose
    only test is the filter of the collection),
    [process_natural_forest_classification] returns [None] without having
    written a file, nothing is uploaded, and the handler answers with the
    too-cloudy response: status 400 and the message of the copy, which is
    neither the success answer nor the answer to an exception. *)
Theorem cloudy_scene_aborts_with_too_cloudy :
  forall (copy : Copy) (X : Externals) (W : World) (event : Event)
         (ud : UserData) (g : Geometry) (scenes : list Scene) (best : Scene)
         (name : string) (s : Store),
    String.eqb (ev_method event) "OPTIONS" = false ->
    ev_operation event = "analysis"%string ->
    ev_filename event = Some name -> name <> EmptyString ->
    w_setup W = ok tt ->
    w_user_data W = ok ud ->
    x_wkt_loads X (x_wkt X (ud_city_geometry ud)) = ok g ->
    w_scenes W = ok scenes ->
    In best scenes ->
    (forall sc, In sc scenes ->
                cloudy_pixel_percentage best <= cloudy_pixel_percentage sc) ->
    cloud_threshold copy < cloudy_pixel_percentage best ->
    exists s',
      process_natural_forest_classification copy X W output_dir s
      = (ok (None, bbox_of ud), s')
      /\ files s' = files s
      /\ s3_objects s' = s3_objects s
      /\ lambda_handler copy X W event s = (too_cloudy_response copy, s')
      /\ statusCode (too_cloudy_response copy) = 400%Z
      /\ body (too_cloudy_response copy) = BodyError (too_cloudy_message copy)
      /\ (forall url image_date stats,
             too_cloudy_response copy
             <> mkResponse 200 (BodySuccess url image_date stats))
      /\ (forall e, too_cloudy_response copy
                    <> mkResponse 500 (BodyException e)).
Proof.
  intros copy X W event ud g scenes best name s
         Hmethod Hop Hname Hnonempty Hsetup Hud Hload Hscenes Hin Hbest Hcloud.
  destruct (cloudy_run_returns_nothing copy X W ud g scenes best output_dir s
              Hud Hload Hscenes Hin Hbest Hcloud) as (s' & Hrun & Hf & Hs).
  exists s'.
  split; [exact Hrun|].
  split; [exact Hf|].
  split; [exact Hs|].
  split.
  { unfold lambda_handler.
    replace (match copy with
             | Backend => String.eqb (ev_method event) "OPTIONS"
             | Legacy => false
             end) with false by (destruct copy; [now rewrite Hmethod | reflexivity]).
    unfold dispatch; rewrite Hop; cbn [String.eqb Ascii.eqb Bool.eqb].
    unfold analysis; rewrite Hname.
    destruct name as [|c name']; [contradiction|].
    unfold bind, lift; rewrite Hsetup, Hrun; reflexivity. }
  repeat split; try discriminate.
Qed.

(** *** When every download attempt fails *)

(** No attempt of any tile succeeds. *)
Definition all_attempts_fail (W : World) : Prop :=
  forall (tile : Box) (retry : Z), succeeds (w_tile_attempt W tile retry) = None.

Lemma after_fetch_outputs (tries sleeps : nat) (s : Store) :
  same_outputs s (after_fetch tries sleeps s).
Proof. now split. Qed.

Lemma export_all_fail (attempt_of : Z -> Attempt) (max_retries : Z) (s : Store) :
  (forall retry, succeeds (attempt_of retry) = None) ->
  export_sub_polygon_as_png attempt_of max_retries s
  = (ok None, after_fetch (Z.to_nat max_retries) (Z.to_nat max_retries) s).
Proof.
  intros Hfail; unfold export_sub_polygon_as_png, py_range.
  apply retry_loop_exhausted; intros; apply Hfail.
Qed.

Section AllFail.

Variable copy : Copy.
Variable X : Externals.
Variable W : World.
Hypothesis Hfail : all_attempts_fail W.

(** A worker returns no tile. *)
Lemma process_sub_polygon_all_fail (args : Z * Box) (s : Store) :
  exists r s',
    process_sub_polygon X W args s = (r, s')
    /\ same_outputs s s'
    /\ (forall res, r <> inr (Some res)).
Proof.
  destruct args as [idx rect].
  unfold process_sub_polygon, bind.
  destruct (shapely_to_ee X (x_box_wkt X rect) s) as [[e|g] s1] eqn:E;
    apply shapely_to_ee_outputs in E.
  - exists (inl e), s1; repeat split; try apply E; discriminate.
  - rewrite export_all_fail by apply Hfail.
    eexists; eexists; split; [reflexivity|]; split; [|discriminate].
    apply (same_outputs_trans _ _ _ E), after_fetch_outputs.
Qed.

(** No future holds a tile. *)
Lemma run_workers_all_fail (args : list (Z * Box)) (s : Store) :
  exists futures s',
    run_workers X W args s = (ok futures, s')
    /\ same_outputs s s'
    /\ Forall (fun f => forall res, f <> inr (Some res)) futures.
Proof.
  revert s; induction args as [|a rest IH]; intros s.
  - exists [], s; repeat split; constructor.
  - destruct (process_sub_polygon_all_fail a s) as (r & s1 & Hr & Ho & Hn).
    destruct (IH s1) as (futures & s2 & Hrest & Ho' & Hall).
    exists (r :: futures), s2.
    split; [|split].
    + cbn [run_workers]; unfold bind, capture, ret.
      rewrite Hr, Hrest; reflexivity.
    + exact (same_outputs_trans _ _ _ Ho Ho').
    + now constructor.
Qed.

Lemma harvest_all_fail (futures : list (Res (option TileResult))) :
  Forall (fun f => forall res, f <> inr (Some res)) futures ->
  harvest W futures = [].
Proof.
  intros Hall; unfold harvest.
  induction (w_completion W) as [|pos rest IH]; simpl; [reflexivity|].
  rewrite IH, app_nil_r.
  destruct (nth_error futures pos) as [[e|[res|]]|] eqn:E; try reflexivity.
  apply nth_error_In in E.
  rewrite Forall_forall in Hall.
  now destruct (Hall _ E res).
Qed.

(** Nothing to merge: no mosaic, no file. *)
Lemma merge_nothing (boundary_box : Box) (polygon : Geometry) (dir : string)
      (image_date : Date) (s : Store) :
  merge_images_properly copy X boundary_box polygon [] dir image_date s
  = (ok None, s).
Proof. reflexivity. Qed.

(** The export returns no image file, or raises; it writes nothing. *)
Lemma process_and_export_image_all_fail (boundary_box : Box)
      (polygon : Geometry) (image_date : Date) (dir : string) (s : Store) :
  exists r s',
    process_and_export_image copy X W boundary_box polygon image_date dir s
    = (r, s')
    /\ (r = ok None \/ exists e, r = raise e)
    /\ same_outputs s s'.
Proof.
  unfold process_and_export_image, bind, lift.
  destruct (split_boundary_box (x_cos_deg X) (x_intersects X) polygon
              boundary_box 30) as [e|[|tile tiles]].
  - exists (inl e), s; repeat split; right; now exists e.
  - exists (inl ValueError), s; repeat split; right; now exists ValueError.
  - destruct (run_workers_all_fail (enumerate_from 0 (tile :: tiles)) s)
      as (futures & s1 & Hrun & Ho & Hall).
    rewrite Hrun; unfold ok; cbv beta iota.
    rewrite (harvest_all_fail futures Hall).
    exists (inr None), s1; split; [|split; [now left | exact Ho]].
    destruct copy; reflexivity.
Qed.

End AllFail.

Lemma calculate_area_statistics_outputs (copy : Copy) (W : World)
      (total_area : Q) (image_date : Date) (dir : string) (s s' : Store)
      (r : Res (Stats * string)) :
  calculate_area_statistics copy W total_area image_date dir s = (r, s') ->
  only_stats_written s s'.
Proof.
  unfold calculate_area_statistics, bind, lift, modify, ret.
  destruct (w_histogram W) as [e|answer].
  - intros H; inversion H; subst; apply same_outputs_only_stats,
      same_outputs_refl.
  - destruct (area_statistics copy _ total_area (date_str image_date))
      as [e|stats].
    + intros H; inversion H; subst; apply same_outputs_only_stats,
        same_outputs_refl.
    + intros H; inversion H; subst; split; [reflexivity|].
      intros path a [Hin|Hin]; [right | now left].
      inversion Hin; now exists stats.
Qed.

Section AllFailRun.

Variable copy : Copy.
Variable X : Externals.
Variable W : World.
Hypothesis Hfail : all_attempts_fail W.

(** The run writes statistics at most, and what it returns names no image
    file. *)
Lemma run_all_fail (dir : string) (s : Store) :
  exists r s',
    process_natural_forest_classification copy X W dir s = (r, s')
    /\ only_stats_written s s'
    /\ (forall image_file stats_file image_date boundary_box,
           r = ok (Some (image_file, stats_file, image_date), boundary_box) ->
           image_file = None).
Proof.
  (* the run stopped: it returned nothing or raised *)
  assert (Hstop : forall (r : Res (RunResult)) (s' : Store),
             only_stats_written s s' ->
             (exists e, r = inl e) \/ (exists b, r = inr (None, b)) ->
             exists r0 s0,
               (r, s') = (r0, s0)
               /\ only_stats_written s s0
               /\ (forall image_file stats_file image_date boundary_box,
                      r0 = ok (Some (image_file, stats_file, image_date),
                               boundary_box) ->
                      image_file = None)).
  { intros r s' Ho Hr; exists r, s'; split; [reflexivity|]; split; [exact Ho|].
    intros image_file stats_file image_date boundary_box H.
    destruct Hr as [[e ->] | [b ->]]; discriminate. }
  unfold process_natural_forest_classification, load_boundary, bind, lift, ret.
  destruct (w_user_data W) as [e|ud]; unfold ok; cbv beta iota.
  { apply Hstop; [apply same_outputs_only_stats, same_outputs_refl | eauto]. }
  destruct (shapely_to_ee X (x_wkt X (ud_city_geometry ud)) s)
    as [[e|g] s1] eqn:E1; apply shapely_to_ee_outputs in E1.
  { apply Hstop; [now apply same_outputs_only_stats | eauto]. }
  pose proof (same_outputs_only_stats _ _ E1) as H1.
  destruct (w_scenes W) as [e|scenes]; [apply Hstop; eauto|].
  destruct (s2_collection scenes) as [|first_image rest];
    [apply Hstop; eauto|].
  destruct (match copy with
            | Backend => Qlt_bool 1 (cloudy_pixel_percentage first_image)
            | Legacy => false
            end); [apply Hstop; eauto|].
  destruct (w_dw_size W) as [e|dw_size]; [apply Hstop; eauto|].
  destruct (dw_size =? 0)%Z; [apply Hstop; eauto|].
  destruct (get_protected_areas X (x_wkt X (ud_city_geometry ud))
              (time_start first_image) s1) as [[e|mask] s2] eqn:E2;
    apply get_protected_areas_outputs in E2;
    pose proof (only_stats_trans _ _ _ H1 (same_outputs_only_stats _ _ E2))
      as H2.
  { apply Hstop; eauto. }
  destruct (calculate_area_statistics copy W (ud_area ud)
              (time_start first_image) dir s2) as [[e|stats] s3] eqn:E3;
    apply calculate_area_statistics_outputs in E3;
    pose proof (only_stats_trans _ _ _ H2 E3) as H3.
  { apply Hstop; eauto. }
  destruct (process_and_export_image_all_fail copy X W Hfail
              (bbox_of ud) (ud_city_geometry ud) (time_start first_image)
              dir s3) as (r & s4 & E4 & Hr & Ho).
  unfold bbox_of in E4; rewrite E4.
  pose proof (only_stats_trans _ _ _ H3 (same_outputs_only_stats _ _ Ho))
    as H4.
  destruct Hr as [-> | [e ->]].
  - eexists; eexists; split; [reflexivity|]; split; [exact H4|].
    intros image_file stats_file image_date boundary_box H.
    now inversion H.
  - apply Hstop; eauto.
Qed.

End AllFailRun.

(** C3. When every download attempt of every planned tile fails, in either
    copy: [merge_images_properly] returns [None] on the empty set of results
    and writes nothing; [process_and_export_image] returns no image file (or
    raises) and writes nothing; and the [analysis] request is never answered
    with the success status, uploads nothing and leaves statistics files at
    most behind.  When the run got as far as returning its triple, the
    image file in it is [None], the first upload raises, and the answer is
    status 500. *)
Theorem all_tiles_failed_is_fatal :
  forall (copy : Copy) (X : Externals) (W : World),
    all_attempts_fail W ->
    (forall boundary_box polygon dir image_date s,
        merge_images_properly copy X boundary_box polygon [] dir image_date s
        = (ok None, s))
    /\ (forall boundary_box polygon image_date dir s,
           exists r s',
             process_and_export_image copy X W boundary_box polygon
               image_date dir s = (r, s')
             /\ (r = ok None \/ exists e, r = raise e)
             /\ same_outputs s s')
    /\ (forall event s,
           ev_operation event = "analysis"%string ->
           exists response s',
             lambda_handler copy X W event s = (response, s')
             /\ statusCode response <> 200%Z
             /\ only_stats_written s s'
             /\ (forall result boundary_box s1,
                    String.eqb (ev_method event) "OPTIONS" = false ->
                    (exists c name, ev_filename event = Some (String c name)) ->
                    w_setup W = ok tt ->
                    process_natural_forest_classification copy X W output_dir s
                    = (ok (Some result, boundary_box), s1) ->
                    response = mkResponse 500 (BodyException ValueError)
                    /\ s' = s1)).
Proof.
  intros copy X W Hfail.
  split; [intros; apply merge_nothing|].
  split; [intros; now apply process_and_export_image_all_fail|].
  intros event s Hop.
  unfold lambda_handler.
  destruct (match copy with
            | Backend => String.eqb (ev_method event) "OPTIONS"
            | Legacy => false
            end) eqn:Hopt.
  { exists (mkResponse 204 BodyEmpty), s.
    split; [reflexivity|]; split; [discriminate|].
    split; [apply same_outputs_only_stats, same_outputs_refl|].
    intros result boundary_box s1 Hm _ _ _.
    destruct copy; [congruence | discriminate]. }
  unfold dispatch; rewrite Hop; cbn [String.eqb Ascii.eqb Bool.eqb].
  unfold analysis.
  destruct (ev_filename event) as [[|c name]|] eqn:Hname.
  - eexists; eexists; split; [reflexivity|]; split; [discriminate|].
    split; [apply same_outputs_only_stats, same_outputs_refl|].
    intros result boundary_box s1 _ (c & name & H) _ _; discriminate.
  - unfold bind, lift.
    destruct (w_setup W) as [e|[]] eqn:Hsetup.
    { eexists; eexists; split; [reflexivity|]; split; [discriminate|].
      split; [apply same_outputs_only_stats, same_outputs_refl|].
      intros result boundary_box s1 _ _ H _; discriminate. }
    destruct (run_all_fail copy X W Hfail output_dir s)
      as (r & s1 & Hrun & Hstore & Himage).
    rewrite Hrun.
    destruct r as [e|[[[[image_file stats_file] image_date]|] boundary_box]].
    + eexists; eexists; split; [reflexivity|]; split; [discriminate|].
      split; [exact Hstore|].
      intros result bb s2 _ _ _ H; discriminate.
    + rewrite (Himage image_file stats_file image_date boundary_box eq_refl).
      eexists; eexists; split; [reflexivity|]; split; [discriminate|].
      split; [exact Hstore|].
      intros result bb s2 _ _ _ H; inversion H; now split.
    + eexists; eexists; split; [reflexivity|]; split; [discriminate|].
      split; [exact Hstore|].
      intros result bb s2 _ _ _ H; discriminate.
  - eexists; eexists; split; [reflexivity|]; split; [discriminate|].
    split; [apply same_outputs_only_stats, same_outputs_refl|].
    intros result boundary_box s1 _ (c & name & H) _ _; discriminate.
Qed.

(** *** Closed instances: runs of the handler *)

Definition example_user_data : UserData :=
  mkUserData 100 equator_square 0 (-(1 # 20)) (1 # 10) (1 # 20).

Definition example_event : Event :=
  mkEvent "POST" "analysis" (Some "boundary.json"%string) "results"
    "user_data_0.json".

Definition hazy_scene : Scene := mkScene (3 # 2) may_3.
Definition overcast_scene : Scene := mkScene 40 may_3.

(** The provider answers every download with status 503. *)
Definition always_503 (_ : Box) (_ : Z) : Attempt := HttpResponse 503 None.

Definition world_with (scenes : list Scene) : World :=
  mkWorld (ok tt) (ok example_user_data) (ok scenes) (ok 3%Z)
    (ok (Some spec_histogram)) always_503 [0%nat].

Lemma cloudy_scene_aborts_with_too_cloudy_witness :
  (exists s',
      lambda_handler Backend equator (world_with [mkScene 20 may_17; hazy_scene])
        example_event empty_store = (too_cloudy_response Backend, s')
      /\ files s' = [] /\ s3_objects s' = [])
  /\ (exists s',
         lambda_handler Legacy equator
           (world_with [mkScene 62 may_17; overcast_scene])
           example_event empty_store = (too_cloudy_response Legacy, s')
         /\ files s' = [] /\ s3_objects s' = []).
Proof.
  split.
  - destruct (cloudy_scene_aborts_with_too_cloudy Backend equator
                (world_with [mkScene 20 may_17; hazy_scene]) example_event
                example_user_data equator_square
                [mkScene 20 may_17; hazy_scene] hazy_scene
                "boundary.json"%string empty_store)
      as (s' & _ & Hf & Hs & Hh & _);
      try reflexivity; try discriminate.
    + right; now left.
    + intros sc [<-|[<-|[]]]; unfold Qle; simpl; lia.
    + exists s'; repeat split; assumption.
  - destruct (cloudy_scene_aborts_with_too_cloudy Legacy equator
                (world_with [mkScene 62 may_17; overcast_scene]) example_event
                example_user_data equator_square
                [mkScene 62 may_17; overcast_scene] overcast_scene
                "boundary.json"%string empty_store)
      as (s' & _ & Hf & Hs & Hh & _);
      try reflexivity; try discriminate.
    + right; now left.
    + intros sc [<-|[<-|[]]]; unfold Qle; simpl; lia.
    + exists s'; repeat split; assumption.
Defined.

Lemma all_tiles_failed_is_fatal_witness :
  merge_images_properly Backend equator equator_box equator_square []
    output_dir may_3 empty_store = (ok None, empty_store)
  /\ exists response s',
      lambda_handler Backend equator (world_with [mkScene (1 # 2) may_3])
        example_event empty_store = (response, s')
      /\ statusCode response <> 200%Z
      /\ only_stats_written empty_store s'.
Proof.
  destruct (all_tiles_failed_is_fatal Backend equator
              (world_with [mkScene (1 # 2) may_3]))
    as (Hmerge & _ & Hhandler).
  - intros tile retry; reflexivity.
  - split; [apply Hmerge|].
    destruct (Hhandler example_event empty_store eq_refl)
      as (response & s' & Hrun & Hstatus & Hstore & _).
    exists response, s'.
    split; [exact Hrun | split; [exact Hstatus | exact Hstore]].
Defined.

(** The same run, evaluated: a clear scene, every tile failing three times;
    both copies answer status 500 after writing the statistics file, and
    upload nothing. *)
Example all_tiles_failed_run :
  fst (lambda_handler Backend equator (world_with [mkScene (1 # 2) may_3])
         example_event empty_store)
  = mkResponse 500 (BodyException ValueError)
  /\ fst (lambda_handler Legacy equator (world_with [mkScene (1 # 2) may_3])
            example_event empty_store)
     = mkResponse 500 (BodyException ValueError)
  /\ attempts (snd (lambda_handler Backend equator
                      (world_with [mkScene (1 # 2) may_3])
                      example_event empty_store)) = 3%nat
  /\ s3_objects (snd (lambda_handler Backend equator
                        (world_with [mkScene (1 # 2) may_3])
                        example_event empty_store)) = [].
Proof. repeat split; vm_compute; reflexivity. Qed.

(** ** The grid of [split_boundary_box] on a box with width and height

    Off the failing inputs of C5 the grid is a partition: the cells cover
    the box and the interiors of two cells are disjoint. *)

Lemma in_box_ordered (p : Coord) (a b c d : Q) :
  a <= c -> b <= d ->
  (in_box p (box a b c d)
   <-> a <= fst p /\ fst p <= c /\ b <= snd p /\ snd p <= d).
Proof.
  intros Hx Hy; unfold in_box, bounds; simpl.
  now rewrite (Q.min_l _ _ Hx), (Q.max_r _ _ Hx), (Q.min_l _ _ Hy),
    (Q.max_r _ _ Hy).
Qed.

Lemma in_interior_ordered (p : Coord) (a b c d : Q) :
  a <= c -> b <= d ->
  (in_interior p (box a b c d)
   <-> a < fst p /\ fst p < c /\ b < snd p /\ snd p < d).
Proof.
  intros Hx Hy; unfold in_interior, bounds; simpl.
  now rewrite (Q.min_l _ _ Hx), (Q.max_r _ _ Hx), (Q.min_l _ _ Hy),
    (Q.max_r _ _ Hy).
Qed.

Lemma in_py_range (i n : Z) : In i (py_range n) <-> (0 <= i < n)%Z.
Proof.
  unfold py_range; rewrite in_map_iff; split.
  - intros (k & <- & Hk); apply in_seq in Hk; lia.
  - intros Hi; exists (Z.to_nat i); split; [lia | apply in_seq; lia].
Qed.

(** A point of [[a, a + n * step]] lies in one of the [n] steps. *)
Lemma step_covers (n : nat) (a step x : Q) :
  (1 <= n)%nat ->
  a <= x -> x <= a + inject_Z (Z.of_nat n) * step ->
  exists i : Z,
    (0 <= i < Z.of_nat n)%Z
    /\ a + inject_Z i * step <= x /\ x <= a + inject_Z (i + 1) * step.
Proof.
  intros Hn Hlo; induction n as [|n IH]; [lia|].
  intros Hhi.
  destruct n as [|n].
  - exists 0%Z; split; [lia|]; split.
    + setoid_replace (a + inject_Z 0 * step) with a by ring; exact Hlo.
    + exact Hhi.
  - destruct (Qlt_le_dec (a + inject_Z (Z.of_nat (S n)) * step) x) as [Hgt|Hle].
    + exists (Z.of_nat (S n)); split; [lia|]; split; [lra|].
      now replace (Z.of_nat (S n) + 1)%Z with (Z.of_nat (S (S n))) by lia.
    + destruct (IH ltac:(lia) Hle) as (i & Hi & H1 & H2).
      exists i; split; [lia | now split].
Qed.

(** Steps of different indices do not overlap inside. *)
Lemma steps_apart (a step x : Q) (i i' : Z) :
  0 <= step -> (i < i')%Z ->
  x < a + inject_Z (i + 1) * step -> a + inject_Z i' * step < x -> False.
Proof.
  intros Hstep Hlt H1 H2.
  assert (Hle : inject_Z (i + 1) * step <= inject_Z i' * step).
  { apply Qmult_le_compat_r; [|exact Hstep].
    rewrite <- Zle_Qle; lia. }
  lra.
Qed.

Lemma step_within (a step : Q) (i n : Z) :
  0 <= step -> (0 <= i < n)%Z ->
  a <= a + inject_Z i * step
  /\ a + inject_Z i * step <= a + inject_Z (i + 1) * step
  /\ a + inject_Z (i + 1) * step <= a + inject_Z n * step.
Proof.
  intros Hstep Hi.
  assert (H0 : 0 <= inject_Z i * step).
  { apply Qmult_le_0_compat; [|exact Hstep].
    change 0 with (inject_Z 0); rewrite <- Zle_Qle; lia. }
  assert (H1 : inject_Z i * step <= inject_Z (i + 1) * step).
  { apply Qmult_le_compat_r; [|exact Hstep]. rewrite <- Zle_Qle; lia. }
  assert (H2 : inject_Z (i + 1) * step <= inject_Z n * step).
  { apply Qmult_le_compat_r; [|exact Hstep]. rewrite <- Zle_Qle; lia. }
  repeat split; lra.
Qed.

(** The unfiltered grid, cell by cell. *)
Lemma in_grid_keep_all (polygon : Geometry) (minx miny step_x step_y : Q)
      (num_x num_y : Z) (rect : Box) :
  In rect (grid keep_all polygon minx miny step_x step_y num_x num_y)
  <-> exists i j, (0 <= i < num_x)%Z /\ (0 <= j < num_y)%Z
                  /\ rect = sub_rectangle minx miny step_x step_y i j.
Proof.
  unfold grid; rewrite in_flat_map; split.
  - intros (i & Hi & Hin).
    apply filter_In in Hin; destruct Hin as [Hin _].
    apply in_map_iff in Hin; destruct Hin as (j & <- & Hj).
    exists i, j; rewrite <- !in_py_range; auto.
  - intros (i & j & Hi & Hj & ->).
    exists i; split; [now apply in_py_range|].
    apply filter_In; split; [|reflexivity].
    apply in_map, in_py_range; exact Hj.
Qed.

Lemma grid_keep_all_length (polygon : Geometry) (minx miny step_x step_y : Q)
      (num_x num_y : Z) :
  List.length (grid keep_all polygon minx miny step_x step_y num_x num_y)
  = (Z.to_nat num_x * Z.to_nat num_y)%nat.
Proof.
  unfold grid.
  rewrite flat_map_constant_length with (c := Z.to_nat num_y).
  - unfold py_range; now rewrite length_map, length_seq.
  - intros i _.
    unfold keep_all; rewrite filter_true.
    unfold py_range; now rewrite !length_map, length_seq.
Qed.


(* ========================================================================= *)
(** * Further properties *)

(** ** Statistics: a histogram without pixels *)

Definition all_zero (d : PyDict.dict Q) : Prop :=
  Forall (fun kv => snd kv = 0) d.

Lemma set_zero_all_zero (k : string) (d : PyDict.dict Q) :
  all_zero d -> all_zero (PyDict.set k 0 d).
Proof.
  unfold all_zero; induction d as [|[k' v'] d IH]; simpl; intros H.
  - now constructor.
  - inversion H; subst.
    destruct (String.eqb k' k); constructor; auto.
Qed.

Lemma class_area_no_pixels (copy : Copy) (v pixel_sum total_area : Q) :
  pixel_sum == 0 -> class_area copy v pixel_sum total_area = 0.
Proof.
  intros Hz; destruct copy; unfold class_area.
  - unfold truthy; now rewrite (Qeq_eq_bool _ _ Hz).
  - replace (Qlt_bool 0 pixel_sum) with false; [reflexivity|].
    symmetry; destruct (Qlt_bool 0 pixel_sum) eqn:E; [|reflexivity].
    apply Qlt_bool_iff in E; rewrite Hz in E; discriminate.
Qed.

Lemma areas_from_no_pixels (copy : Copy) (totals : PyDict.dict Q)
      (pixel_sum total_area : Q) :
  pixel_sum == 0 -> all_zero (areas_from copy totals pixel_sum total_area).
Proof.
  intros Hz; unfold areas_from.
  assert (G : forall acc, all_zero acc ->
                          all_zero
                            (fold_left
                               (fun areas kv =>
                                  PyDict.set (fst kv)
                                    (class_area copy (snd kv) pixel_sum
                                       total_area) areas) totals acc)).
  { induction totals as [|[k v] r IH]; intros acc Hacc; simpl; [exact Hacc|].
    apply IH; rewrite class_area_no_pixels by exact Hz.
    now apply set_zero_all_zero. }
  apply G; constructor.
Qed.

Lemma with_defaults_all_zero (d : PyDict.dict Q) :
  all_zero d -> all_zero (with_defaults d).
Proof.
  unfold with_defaults; generalize CLASS_NAMES as names.
  intros names; revert d; induction names as [|n names IH]; intros d Hd;
    simpl; [exact Hd|].
  apply IH; unfold PyDict.setdefault.
  destruct (PyDict.get n d); [exact Hd | now apply set_zero_all_zero].
Qed.

Lemma area_of_all_zero (d : PyDict.dict Q) (name : string) :
  all_zero d -> area_of d name = 0.
Proof.
  unfold area_of, all_zero; induction d as [|[k v] d IH]; simpl; intros H;
    [reflexivity|].
  inversion H; subst; simpl in *.
  destruct (String.eqb k name); [assumption | now apply IH].
Qed.

Lemma insert_desc_forall {A} (P : A * Q -> Prop) (x : A * Q)
      (l : list (A * Q)) :
  P x -> Forall P l -> Forall P (insert_desc x l).
Proof.
  intros Hx; induction l as [|y l IH]; simpl; intros Hl.
  - now constructor.
  - inversion Hl; subst.
    destruct (Qle_bool (snd y) (snd x)); constructor; auto.
Qed.

Lemma sorted_desc_forall {A} (P : A * Q -> Prop) (l : list (A * Q)) :
  Forall P l -> Forall P (sorted_desc l).
Proof.
  unfold sorted_desc; induction l as [|x l IH]; simpl; intros H; [constructor|].
  inversion H; subst; apply insert_desc_forall; auto.
Qed.

Lemma land_cover_all_zero (copy : Copy) (areas : PyDict.dict Q)
      (total_area : Q) :
  all_zero areas -> land_cover copy areas total_area = [].
Proof.
  intros Hz; unfold land_cover.
  apply (sorted_desc_forall (fun kv => snd kv = 0)) in Hz.
  induction Hz as [|[k v] l Hv _ IH]; simpl; [reflexivity|].
  simpl in Hv; subst v; exact IH.
Qed.

(** X3. When the counts kept from the histogram add up to zero (an empty
    histogram, or zero counts only), [calculate_area_statistics], in either
    copy, divides by nothing and reports zero for every figure: the forest
    area, both forest shares and their percentages, and no land-cover
    entry. *)
Theorem area_statistics_without_pixels :
  forall (copy : Copy) (hist : Histogram) (total_area : Q)
         (image_date : string) (totals : PyDict.dict Q),
    totals_from hist [] = ok totals ->
    pixel_sum_of copy hist totals == 0 ->
    (exists areas,
        class_areas copy hist total_area = ok areas
        /\ Forall (fun kv => snd kv = 0) areas)
    /\ area_statistics copy hist total_area image_date
       = ok {| date := image_date;
               total_area_km2 := round5 total_area;
               forest_area_km2 := 0;
               natural_forest_km2 := 0;
               natural_forest_percentage := 0;
               other_trees_km2 := 0;
               other_trees_percentage := 0;
               land_cover_classes := [] |}.
Proof.
  intros copy hist total_area image_date totals Htotals Hzero.
  set (areas := with_defaults
                  (areas_from copy totals (pixel_sum_of copy hist totals)
                     total_area)).
  assert (Hareas : all_zero areas)
    by (apply with_defaults_all_zero, areas_from_no_pixels; exact Hzero).
  assert (Hclass : class_areas copy hist total_area = ok areas).
  { unfold class_areas; rewrite Htotals; reflexivity. }
  split; [exists areas; split; assumption|].
  unfold area_statistics; rewrite Hclass; cbn [rbind ok].
  rewrite !(area_of_all_zero areas _ Hareas).
  rewrite (land_cover_all_zero copy areas total_area Hareas).
  destruct copy; reflexivity.
Qed.

Lemma area_statistics_without_pixels_witness :
  area_statistics Legacy [(1%Z, 0); (4%Z, 0)] 250 "2024-05-03"
  = ok {| date := "2024-05-03";
          total_area_km2 := round5 250;
          forest_area_km2 := 0;
          natural_forest_km2 := 0;
          natural_forest_percentage := 0;
          other_trees_km2 := 0;
          other_trees_percentage := 0;
          land_cover_classes := [] |}.
Proof.
  apply (proj2 (area_statistics_without_pixels Legacy [(1%Z, 0); (4%Z, 0)] 250
                  "2024-05-03" [("trees"%string, 0); ("crops"%string, 0)]
                  eq_refl eq_refl)).
Defined.

(** ** Statistics: class codes out of range *)

(** [CLASS_NAMES[k]] on the three ranges of a code below eleven. *)
Lemma py_index_negative_code (k : Z) :
  (-11 <= k < 0)%Z -> py_index CLASS_NAMES k = ok (name_of (k + 11)).
Proof.
  intros Hk.
  assert (H : k = (-11)%Z \/ k = (-10)%Z \/ k = (-9)%Z \/ k = (-8)%Z
              \/ k = (-7)%Z \/ k = (-6)%Z \/ k = (-5)%Z \/ k = (-4)%Z
              \/ k = (-3)%Z \/ k = (-2)%Z \/ k = (-1)%Z) by lia.
  repeat (destruct H as [-> | H]; [reflexivity|]); subst; reflexivity.
Qed.

Lemma py_index_below_range (k : Z) :
  (k < -11)%Z -> py_index CLASS_NAMES k = raise IndexError.
Proof.
  intros Hk; unfold py_index.
  replace (k <? 0)%Z with true by (symmetry; apply Z.ltb_lt; lia).
  replace (k + Z.of_nat (List.length CLASS_NAMES) <? 0)%Z with true;
    [reflexivity|].
  symmetry; apply Z.ltb_lt; simpl; lia.
Qed.

Lemma totals_from_returns (hist : Histogram) (acc : PyDict.dict Q) :
  Forall (fun kv => (-11 <= fst kv)%Z) hist ->
  exists totals, totals_from hist acc = ok totals.
Proof.
  revert acc; induction hist as [|[k v] r IH]; intros acc H.
  - now exists acc.
  - inversion H as [|? ? Hk Hr]; subst; simpl in Hk.
    cbn [totals_from].
    destruct (k <? Z.of_nat (List.length CLASS_NAMES))%Z eqn:E;
      [|now apply IH].
    apply Z.ltb_lt in E; simpl in E.
    destruct (Z_lt_le_dec k 0) as [Hneg|Hpos].
    + rewrite py_index_negative_code by lia; cbn [rbind ok]; now apply IH.
    + rewrite py_index_class_name by (unfold is_class_code; lia).
      cbn [rbind ok]; now apply IH.
Qed.

Lemma totals_from_raises (hist : Histogram) (acc : PyDict.dict Q) :
  Exists (fun kv => (fst kv < -11)%Z) hist ->
  totals_from hist acc = raise IndexError.
Proof.
  revert acc; induction hist as [|[k v] r IH]; intros acc H.
  - inversion H.
  - cbn [totals_from].
    destruct (Z_lt_le_dec k (-11)) as [Hlow|Hfine].
    + replace (k <? Z.of_nat (List.length CLASS_NAMES))%Z with true
        by (symmetry; apply Z.ltb_lt; simpl; lia).
      now rewrite py_index_below_range.
    + assert (Hr : Exists (fun kv => (fst kv < -11)%Z) r).
      { inversion H as [? ? Hk|]; subst; [simpl in Hk; lia | assumption]. }
      destruct (k <? Z.of_nat (List.length CLASS_NAMES))%Z eqn:E;
        [|now apply IH].
      apply Z.ltb_lt in E; simpl in E.
      destruct (Z_lt_le_dec k 0) as [Hneg|Hpos].
      * rewrite py_index_negative_code by lia; cbn [rbind ok]; now apply IH.
      * rewrite py_index_class_name by (unfold is_class_code; lia).
        cbn [rbind ok]; now apply IH.
Qed.

(** X4. The guard of [calculate_area_statistics] bounds the class code from
    above only.  In either copy the statistics are computed whenever every
    code of the histogram is at least -11; a code from -11 to -1 indexes
    [CLASS_NAMES] from its end, so its count goes to class [code + 11]; a
    code below -11 raises [IndexError]. *)
Theorem area_statistics_code_range :
  forall (copy : Copy) (hist : Histogram) (total_area : Q)
         (image_date : string),
    (Forall (fun kv => (-11 <= fst kv)%Z) hist ->
     exists stats, area_statistics copy hist total_area image_date = ok stats)
    /\ (Exists (fun kv => (fst kv < -11)%Z) hist ->
        area_statistics copy hist total_area image_date = raise IndexError)
    /\ (forall k v,
           (-11 <= k < 0)%Z ->
           totals_from [(k, v)] [] = ok [(name_of (k + 11), v)]).
Proof.
  intros copy hist total_area image_date.
  split; [|split].
  - intros H.
    destruct (totals_from_returns hist [] H) as [totals Ht].
    unfold area_statistics, class_areas; rewrite Ht; cbn [rbind ok].
    eexists; reflexivity.
  - intros H.
    unfold area_statistics, class_areas.
    now rewrite (totals_from_raises hist [] H).
  - intros k v Hk; cbn [totals_from].
    replace (k <? Z.of_nat (List.length CLASS_NAMES))%Z with true
      by (symmetry; apply Z.ltb_lt; simpl; lia).
    now rewrite py_index_negative_code.
Qed.

Lemma area_statistics_code_range_witness :
  (exists stats,
      area_statistics Backend [((-1)%Z, 30); (1%Z, 70)] 100 "2024-05-03"
      = ok stats)
  /\ area_statistics Backend [(1%Z, 70); ((-12)%Z, 30)] 100 "2024-05-03"
     = raise IndexError
  /\ totals_from [((-1)%Z, 30)] [] = ok [("natural_forest"%string, 30)].
Proof.
  destruct (area_statistics_code_range Backend [((-1)%Z, 30); (1%Z, 70)] 100
              "2024-05-03") as (Hok & _ & Halias).
  destruct (area_statistics_code_range Backend [(1%Z, 70); ((-12)%Z, 30)] 100
              "2024-05-03") as (_ & Hraise & _).
  split; [|split].
  - apply Hok; repeat constructor; simpl; lia.
  - apply Hraise; right; left; simpl; lia.
  - apply (Halias (-1)%Z 30); lia.
Defined.

(** ** Rounding to five places *)

Lemma round5_value (x : Q) :
  round5 x == inject_Z (round_half_even (x * 100000)) / 100000.
Proof. unfold round5; apply Qred_correct. Qed.

Lemma round_half_even_integer (n : Z) : round_half_even (inject_Z n) = n.
Proof.
  unfold round_half_even; rewrite Qfloor_Z.
  assert (H : Qcompare (inject_Z n - inject_Z n) (1 # 2) = Lt).
  { apply (proj1 (Qlt_alt _ _)).
    setoid_replace (inject_Z n - inject_Z n) with 0 by ring; reflexivity. }
  now rewrite H.
Qed.

(** Rounding what is rounded changes nothing. *)
Lemma round5_idempotent (x : Q) : round5 (round5 x) = round5 x.
Proof.
  unfold round5 at 1.
  assert (E : round5 x * 100000 == inject_Z (round_half_even (x * 100000))).
  { rewrite round5_value; field. }
  rewrite (round_half_even_comp _ _ E), round_half_even_integer.
  reflexivity.
Qed.

(** The integer chosen is at most a half away. *)
Lemma round_half_even_near (y : Q) :
  y - (1 # 2) <= inject_Z (round_half_even y)
  /\ inject_Z (round_half_even y) <= y + (1 # 2).
Proof.
  unfold round_half_even.
  pose proof (Qfloor_le y) as Hlo.
  pose proof (Qlt_floor y) as Hhi.
  rewrite inject_Z_plus in Hhi; change (inject_Z 1) with 1 in Hhi.
  destruct (Qcompare (y - inject_Z (Qfloor y)) (1 # 2)) eqn:E.
  - apply (proj2 (Qeq_alt _ _)) in E.
    destruct (Z.even (Qfloor y));
      [|rewrite inject_Z_plus; change (inject_Z 1) with 1]; split; lra.
  - apply (proj2 (Qlt_alt _ _)) in E; split; lra.
  - apply (proj2 (Qgt_alt _ _)) in E.
    rewrite inject_Z_plus; change (inject_Z 1) with 1; split; lra.
Qed.

Lemma round5_near (x : Q) :
  x - (1 # 200000) <= round5 x /\ round5 x <= x + (1 # 200000).
Proof.
  rewrite round5_value.
  destruct (round_half_even_near (x * 100000)) as [Hlo Hhi].
  set (n := inject_Z (round_half_even (x * 100000))) in *.
  assert (E : n / 100000 == n * (1 # 100000)) by (field; discriminate).
  rewrite E; split; lra.
Qed.

Lemma round_half_even_nonneg (y : Q) : 0 <= y -> (0 <= round_half_even y)%Z.
Proof.
  intros Hy; unfold round_half_even.
  assert (Hf : (0 <= Qfloor y)%Z).
  { change 0%Z with (Qfloor 0); now apply Qfloor_resp_le. }
  destruct (Qcompare _ _); [destruct (Z.even _)| |]; lia.
Qed.

Lemma round5_nonneg (x : Q) : 0 <= x -> 0 <= round5 x.
Proof.
  intros Hx; rewrite round5_value.
  assert (Hn : (0 <= round_half_even (x * 100000))%Z).
  { apply round_half_even_nonneg.
    setoid_replace 0 with (0 * 100000) by ring.
    apply Qmult_le_compat_r; [exact Hx | discriminate]. }
  apply Qle_shift_div_l; [reflexivity|].
  rewrite Qmult_0_l; change 0 with (inject_Z 0); now rewrite <- Zle_Qle.
Qed.

(** ** Statistics: the two copies agree *)

Lemma total_pixels_from_sum (hist : Histogram) (acc : Q) :
  Forall (fun kv => is_class_code (fst kv) /\ 0 <= snd kv) hist ->
  total_pixels_from hist acc = fold_left Qplus (map snd hist) acc.
Proof.
  revert acc; induction hist as [|[k v] r IH]; intros acc H; [reflexivity|].
  inversion H as [|? ? [Hk _] Hr]; subst; simpl in Hk.
  cbn [total_pixels_from map fold_left snd].
  replace (k <? Z.of_nat (List.length CLASS_NAMES))%Z with true
    by (symmetry; apply Z.ltb_lt; unfold is_class_code in Hk; simpl; lia).
  now apply IH.
Qed.

(** The areas of a histogram over class codes, entry by entry. *)
Definition areas_of_histogram (copy : Copy) (hist : Histogram)
           (total_area : Q) : PyDict.dict Q :=
  with_defaults
    (map (fun kv =>
            (fst kv,
             class_area copy (snd kv) (py_sum (map snd hist)) total_area))
       (named hist)).

Lemma class_areas_named (copy : Copy) (hist : Histogram) (total_area : Q) :
  class_code_histogram hist ->
  class_areas copy hist total_area
  = ok (areas_of_histogram copy hist total_area).
Proof.
  intros [Hnd Hcodes].
  assert (Htotals : totals_from hist [] = ok (named hist)).
  { rewrite (totals_of_class_codes hist [] Hnd Hcodes); [reflexivity|].
    intros; reflexivity. }
  assert (Hsum : pixel_sum_of copy hist (named hist) = py_sum (map snd hist)).
  { destruct copy; unfold pixel_sum_of.
    - unfold PyDict.values, named; now rewrite map_map.
    - now rewrite total_pixels_from_sum. }
  unfold class_areas; rewrite Htotals; cbn [rbind ok]; rewrite Hsum.
  unfold areas_of_histogram, areas_from; f_equal; f_equal.
  exact (fold_set_fresh
           (fun v => class_area copy v (py_sum (map snd hist)) total_area)
           (named hist) [] (named_keys_nodup hist Hnd Hcodes)
           (fun _ _ => eq_refl)).
Qed.

Lemma class_area_copies (v pixel_sum total_area : Q) :
  0 <= pixel_sum ->
  class_area Legacy v pixel_sum total_area
  = class_area Backend v pixel_sum total_area.
Proof.
  intros Hp; unfold class_area; rewrite (truthy_nonneg _ Hp).
  destruct (Qlt_bool 0 pixel_sum); reflexivity.
Qed.

(** Every area is a rounded value, and none is negative when the ground
    truth is not. *)
Definition rounded_nonneg (total_area : Q) (v : Q) : Prop :=
  round5 v = v /\ (0 <= total_area -> 0 <= v).

Lemma class_area_rounded (v pixel_sum total_area : Q) :
  0 <= v -> 0 <= pixel_sum ->
  rounded_nonneg total_area (class_area Backend v pixel_sum total_area).
Proof.
  intros Hv Hp; unfold class_area, rounded_nonneg.
  destruct (truthy pixel_sum) eqn:E; [|split; [reflexivity | discriminate]].
  split; [apply round5_idempotent|].
  intros Ht; apply round5_nonneg.
  rewrite (truthy_nonneg _ Hp) in E; apply Qlt_bool_iff in E.
  apply Qmult_le_0_compat; [|exact Ht].
  apply Qle_shift_div_l; [exact E | now rewrite Qmult_0_l].
Qed.

Lemma histogram_sum_nonneg (hist : Histogram) :
  Forall (fun kv => is_class_code (fst kv) /\ 0 <= snd kv) hist ->
  0 <= py_sum (map snd hist).
Proof.
  intros Hcodes; apply py_sum_nonneg, Forall_forall.
  intros x Hx; apply in_map_iff in Hx; destruct Hx as (kv & <- & Hin).
  rewrite Forall_forall in Hcodes; now destruct (Hcodes _ Hin).
Qed.

Lemma with_defaults_forall (P : Q -> Prop) (d : PyDict.dict Q) :
  P 0 -> Forall (fun kv => P (snd kv)) d ->
  Forall (fun kv => P (snd kv)) (with_defaults d).
Proof.
  intros H0; unfold with_defaults; generalize CLASS_NAMES as names.
  intros names; revert d; induction names as [|n names IH]; intros d Hd;
    simpl; [exact Hd|].
  apply IH; unfold PyDict.setdefault.
  destruct (PyDict.get n d) eqn:E; [exact Hd|].
  rewrite dict_set_fresh by exact E.
  apply Forall_app; split; [exact Hd | now repeat constructor].
Qed.

Lemma areas_of_histogram_rounded (hist : Histogram) (total_area : Q) :
  Forall (fun kv => is_class_code (fst kv) /\ 0 <= snd kv) hist ->
  Forall (fun kv => rounded_nonneg total_area (snd kv))
    (areas_of_histogram Backend hist total_area).
Proof.
  intros Hcodes; unfold areas_of_histogram.
  apply with_defaults_forall; [split; [reflexivity | discriminate]|].
  unfold named; rewrite map_map; apply Forall_map; cbn [snd].
  rewrite Forall_forall in *; intros kv Hin.
  destruct (Hcodes _ Hin) as [_ Hv].
  apply class_area_rounded;
    [exact Hv | apply histogram_sum_nonneg; now apply Forall_forall].
Qed.

Lemma area_of_forall (P : Q -> Prop) (d : PyDict.dict Q) (name : string) :
  P 0 -> Forall (fun kv => P (snd kv)) d -> P (area_of d name).
Proof.
  intros H0 Hd; unfold area_of.
  induction Hd as [|[k v] d Hv _ IH]; simpl; [exact H0|].
  destruct (String.eqb k name); [exact Hv | exact IH].
Qed.

Lemma class_entry_copies (val total_area : Q) :
  round5 val = val -> 0 <= total_area ->
  class_entry Legacy val total_area = class_entry Backend val total_area.
Proof.
  intros Hval Ht; unfold class_entry.
  rewrite Hval, (truthy_nonneg _ Ht).
  destruct (Qlt_bool 0 total_area); reflexivity.
Qed.

Lemma fold_left_agree {A B} (f g : A -> B -> A) (l : list B) (a : A) :
  Forall (fun x => forall acc, f acc x = g acc x) l ->
  fold_left f l a = fold_left g l a.
Proof.
  intros H; revert a; induction H as [|x l Hx _ IH]; intros a; simpl;
    [reflexivity|].
  now rewrite Hx, IH.
Qed.

(** X5. For every histogram over class codes and every ground-truth area
    that is not negative, the two copies of [calculate_area_statistics]
    compute the same statistics document: the running total of [Legacy] is
    the sum [Backend] takes, its tests [> 0] decide as the truth tests of
    [Backend] on these values, and its extra rounding of the land-cover
    areas rounds values that are rounded already. *)
Theorem area_statistics_copies_agree :
  forall (hist : Histogram) (total_area : Q) (image_date : string),
    class_code_histogram hist ->
    0 <= total_area ->
    area_statistics Legacy hist total_area image_date
    = area_statistics Backend hist total_area image_date
    /\ exists stats,
        area_statistics Backend hist total_area image_date = ok stats.
Proof.
  intros hist total_area image_date Hhist Htotal.
  pose proof Hhist as [Hnd Hcodes].
  pose proof (histogram_sum_nonneg hist Hcodes) as Hsum.
  assert (Hareas : areas_of_histogram Legacy hist total_area
                   = areas_of_histogram Backend hist total_area).
  { unfold areas_of_histogram; f_equal.
    apply map_ext; intros kv; now rewrite class_area_copies. }
  unfold area_statistics.
  rewrite !class_areas_named by exact Hhist.
  rewrite Hareas; cbn [rbind ok].
  split; [|eexists; reflexivity].
  set (areas := areas_of_histogram Backend hist total_area).
  pose proof (areas_of_histogram_rounded hist total_area Hcodes) as Hround.
  fold areas in Hround.
  assert (Hnf : 0 <= area_of areas "natural_forest").
  { apply (area_of_forall (fun v => 0 <= v));
      [discriminate|].
    eapply Forall_impl; [|exact Hround].
    intros kv [_ H]; now apply H. }
  assert (Htree : 0 <= area_of areas "trees").
  { apply (area_of_forall (fun v => 0 <= v));
      [discriminate|].
    eapply Forall_impl; [|exact Hround].
    intros kv [_ H]; now apply H. }
  assert (Hforest : nonzero Legacy (area_of areas "natural_forest"
                                    + area_of areas "trees")
                    = nonzero Backend (area_of areas "natural_forest"
                                       + area_of areas "trees")).
  { unfold nonzero; symmetry; apply truthy_nonneg; lra. }
  assert (Hcover : land_cover Legacy areas total_area
                   = land_cover Backend areas total_area).
  { unfold land_cover; apply fold_left_agree.
    apply (sorted_desc_forall
             (fun kv => rounded_nonneg total_area (snd kv))) in Hround.
    eapply Forall_impl; [|exact Hround].
    intros kv [Hr _] acc; cbv beta.
    now rewrite class_entry_copies. }
  now rewrite Hforest, Hcover.
Qed.

Lemma area_statistics_copies_agree_witness :
  area_statistics Legacy spec_histogram 100 "2024-05-03"
  = area_statistics Backend spec_histogram 100 "2024-05-03".
Proof.
  apply (area_statistics_copies_agree spec_histogram 100 "2024-05-03").
  - split.
    + repeat constructor; simpl; intuition discriminate.
    + repeat constructor; simpl; try lia; discriminate.
  - discriminate.
Defined.

(** ** Statistics: the areas add up to the ground truth *)

Lemma fold_left_Qplus_acc (l : list Q) (a : Q) :
  fold_left Qplus l a == a + py_sum l.
Proof.
  unfold py_sum; revert a; induction l as [|x l IH]; intros a; simpl.
  - ring.
  - rewrite (IH (a + x)), (IH (0 + x)); ring.
Qed.

Lemma py_sum_cons (x : Q) (l : list Q) : py_sum (x :: l) == x + py_sum l.
Proof.
  unfold py_sum at 1; simpl; rewrite fold_left_Qplus_acc; ring.
Qed.

Lemma py_sum_app (l l' : list Q) : py_sum (l ++ l') == py_sum l + py_sum l'.
Proof.
  induction l as [|x l IH]; simpl.
  - unfold py_sum at 2; simpl; ring.
  - rewrite !py_sum_cons, IH; ring.
Qed.

Lemma with_defaults_sum (d : PyDict.dict Q) :
  py_sum (PyDict.values (with_defaults d)) == py_sum (PyDict.values d).
Proof.
  unfold with_defaults; generalize CLASS_NAMES as names.
  intros names; revert d; induction names as [|n names IH]; intros d; simpl;
    [reflexivity|].
  rewrite IH; unfold PyDict.setdefault.
  destruct (PyDict.get n d) eqn:E; [reflexivity|].
  rewrite dict_set_fresh by exact E.
  unfold PyDict.values; rewrite map_app, py_sum_app; simpl.
  unfold py_sum at 2; simpl; ring.
Qed.

Lemma py_sum_scaled (c : Q) (l : list Q) :
  py_sum (map (fun v => v * c) l) == py_sum l * c.
Proof.
  induction l as [|x l IH]; simpl.
  - unfold py_sum; simpl; ring.
  - rewrite !py_sum_cons, IH; ring.
Qed.

(** Sums of values that are close term by term are close. *)
Lemma py_sum_near (f g : Q -> Q) (eps : Q) (l : list Q) :
  (forall x, g x - eps <= f x /\ f x <= g x + eps) ->
  py_sum (map g l) - inject_Z (Z.of_nat (List.length l)) * eps
  <= py_sum (map f l)
  /\ py_sum (map f l)
     <= py_sum (map g l) + inject_Z (Z.of_nat (List.length l)) * eps.
Proof.
  intros Hnear; induction l as [|x l IH].
  - cbn [map List.length]; change (inject_Z (Z.of_nat 0)) with 0.
    unfold py_sum; cbn [fold_left]; split; lra.
  - cbn [map List.length]; rewrite !py_sum_cons, Nat2Z.inj_succ.
    unfold Z.succ; rewrite inject_Z_plus; change (inject_Z 1) with 1.
    destruct (Hnear x) as [H1 H2], IH as [H3 H4].
    set (n := inject_Z (Z.of_nat (List.length l))) in *.
    split; lra.
Qed.

Lemma class_codes_at_most_eleven (hist : Histogram) :
  class_code_histogram hist -> (List.length hist <= 11)%nat.
Proof.
  intros [Hnd Hcodes].
  rewrite <- (length_map fst hist).
  change 11%nat with (List.length (py_range 11)).
  apply NoDup_incl_length; [exact Hnd|].
  intros k Hk; apply in_py_range.
  apply in_map_iff in Hk; destruct Hk as (kv & <- & Hin).
  rewrite Forall_forall in Hcodes; now destruct (Hcodes _ Hin).
Qed.

(** X6. For every histogram over class codes with pixels, the areas
    [calculate_area_statistics] gives the eleven classes add up to the
    ground-truth area up to the rounding of each entry: the sum is within
    [n / 200000] of [total_area], [n] being the number of entries of the
    histogram, eleven at most. *)
Theorem class_areas_add_up :
  forall (copy : Copy) (hist : Histogram) (total_area : Q),
    class_code_histogram hist ->
    0 < py_sum (map snd hist) ->
    exists areas,
      class_areas copy hist total_area = ok areas
      /\ total_area - inject_Z (Z.of_nat (List.length hist)) * (1 # 200000)
         <= py_sum (PyDict.values areas)
      /\ py_sum (PyDict.values areas)
         <= total_area + inject_Z (Z.of_nat (List.length hist)) * (1 # 200000)
      /\ (List.length hist <= 11)%nat.
Proof.
  intros copy hist total_area Hhist Hpos.
  pose proof Hhist as [Hnd Hcodes].
  exists (areas_of_histogram copy hist total_area).
  split; [now apply class_areas_named|].
  set (ps := py_sum (map snd hist)) in *.
  assert (Hps : 0 <= ps) by lra.
  assert (Hvalues : PyDict.values
                      (map (fun kv => (fst kv,
                                       class_area copy (snd kv) ps total_area))
                         (named hist))
                    = map (fun v => round5 (v / ps * total_area))
                        (map snd hist)).
  { unfold PyDict.values, named; rewrite !map_map; apply map_ext.
    intros [k v]; cbn [fst snd].
    destruct copy; [|rewrite class_area_copies by exact Hps];
      unfold class_area; rewrite (truthy_nonneg _ Hps);
      apply Qlt_bool_iff in Hpos; now rewrite Hpos. }
  assert (Hnear : forall v,
             v * (total_area / ps) - (1 # 200000)
             <= round5 (v / ps * total_area)
             /\ round5 (v / ps * total_area)
                <= v * (total_area / ps) + (1 # 200000)).
  { intros v.
    assert (E : v * (total_area / ps) == v / ps * total_area)
      by (field; intros E; rewrite E in Hpos; discriminate).
    rewrite E; apply round5_near. }
  destruct (py_sum_near (fun v => round5 (v / ps * total_area))
              (fun v => v * (total_area / ps)) (1 # 200000)
              (map snd hist) Hnear) as [Hlo Hhi].
  rewrite py_sum_scaled, length_map in Hlo, Hhi.
  assert (Htotal : py_sum (map snd hist) * (total_area / ps) == total_area).
  { fold ps; field; intros E; rewrite E in Hpos; discriminate. }
  rewrite Htotal in Hlo, Hhi.
  unfold areas_of_histogram; rewrite with_defaults_sum; fold ps.
  rewrite Hvalues.
  split; [exact Hlo | split; [exact Hhi|]].
  now apply class_codes_at_most_eleven.
Qed.

Lemma class_areas_add_up_witness :
  exists areas,
    class_areas Backend spec_histogram 100 = ok areas
    /\ 100 - inject_Z 3 * (1 # 200000) <= py_sum (PyDict.values areas)
    /\ py_sum (PyDict.values areas) <= 100 + inject_Z 3 * (1 # 200000)
    /\ (3 <= 11)%nat.
Proof.
  apply (class_areas_add_up Backend spec_histogram 100).
  - split.
    + repeat constructor; simpl; intuition discriminate.
    + repeat constructor; simpl; try lia; discriminate.
  - reflexivity.
Defined.

(** ** Statistics: the land-cover report *)

Definition by_area_desc {A} (a b : A * Q) : Prop := snd b <= snd a.

Lemma insert_desc_perm {A} (x : A * Q) (l : list (A * Q)) :
  Permutation (insert_desc x l) (x :: l).
Proof.
  induction l as [|y l IH]; simpl; [reflexivity|].
  destruct (Qle_bool (snd y) (snd x)); [reflexivity|].
  rewrite IH; apply perm_swap.
Qed.

Lemma sorted_desc_perm {A} (l : list (A * Q)) : Permutation (sorted_desc l) l.
Proof.
  unfold sorted_desc; induction l as [|x l IH]; simpl; [reflexivity|].
  rewrite insert_desc_perm; now constructor.
Qed.

Lemma insert_desc_sorted {A} (x : A * Q) (l : list (A * Q)) :
  StronglySorted by_area_desc l -> StronglySorted by_area_desc (insert_desc x l).
Proof.
  induction l as [|y l IH]; simpl; intros Hs.
  - repeat constructor.
  - inversion Hs as [|? ? Hl Hy]; subst.
    destruct (Qle_bool (snd y) (snd x)) eqn:E.
    + apply Qle_bool_iff in E.
      constructor; [exact Hs|].
      constructor; [exact E|].
      eapply Forall_impl; [|exact Hy].
      intros z Hz; unfold by_area_desc in *; lra.
    + assert (Hxy : snd x <= snd y).
      { apply Qlt_le_weak, Qnot_le_lt; intros H.
        apply Qle_bool_iff in H; congruence. }
      constructor; [now apply IH|].
      apply insert_desc_forall; assumption.
Qed.

Lemma sorted_desc_sorted {A} (l : list (A * Q)) :
  StronglySorted by_area_desc (sorted_desc l).
Proof.
  unfold sorted_desc; induction l as [|x l IH]; simpl; [constructor|].
  now apply insert_desc_sorted.
Qed.

Lemma strongly_sorted_filter {A} (R : A -> A -> Prop) (p : A -> bool)
      (l : list A) :
  StronglySorted R l -> StronglySorted R (filter p l).
Proof.
  induction 1 as [|x l Hl IH Hx]; simpl; [constructor|].
  destruct (p x); [|exact IH].
  constructor; [exact IH|].
  apply Forall_forall; intros y Hy.
  apply filter_In in Hy; destruct Hy as [Hy _].
  rewrite Forall_forall in Hx; now apply Hx.
Qed.

Lemma strongly_sorted_map {A B} (R : A -> A -> Prop) (S : B -> B -> Prop)
      (f : A -> B) (l : list A) :
  (forall a b, R a b -> S (f a) (f b)) ->
  StronglySorted R l -> StronglySorted S (map f l).
Proof.
  intros Hf; induction 1 as [|x l Hl IH Hx]; simpl; constructor; [exact IH|].
  apply Forall_map; eapply Forall_impl; [|exact Hx]; intros; now apply Hf.
Qed.

(** Keys stay distinct under [d[k] = v] and [setdefault]. *)
Lemma dict_set_keys {V} (k : string) (v : V) (d : PyDict.dict V) :
  map fst (PyDict.set k v d)
  = match PyDict.get k d with
    | Some _ => map fst d
    | None => map fst d ++ [k]
    end.
Proof.
  induction d as [|[k' v'] d IH]; simpl; [reflexivity|].
  destruct (String.eqb k' k) eqn:E; simpl.
  - reflexivity.
  - rewrite IH; now destruct (PyDict.get k d).
Qed.

Lemma dict_get_none_not_in {V} (k : string) (d : PyDict.dict V) :
  PyDict.get k d = None -> ~ In k (map fst d).
Proof.
  induction d as [|[k' v'] d IH]; simpl; [tauto|].
  destruct (String.eqb k' k) eqn:E; [discriminate|].
  intros H [Hk|Hk]; [|now apply IH].
  subst; rewrite String.eqb_refl in E; discriminate.
Qed.

Lemma dict_set_nodup {V} (k : string) (v : V) (d : PyDict.dict V) :
  NoDup (map fst d) -> NoDup (map fst (PyDict.set k v d)).
Proof.
  intros Hd; rewrite dict_set_keys.
  destruct (PyDict.get k d) eqn:E; [exact Hd|].
  apply NoDup_app; [exact Hd | repeat constructor; simpl; tauto|].
  intros x Hx [<-|[]]; revert Hx; now apply dict_get_none_not_in.
Qed.

Lemma fold_set_nodup {V W} (f : W -> V) (l : list (string * W))
      (acc : PyDict.dict V) :
  NoDup (map fst acc) ->
  NoDup (map fst (fold_left (fun d kv => PyDict.set (fst kv) (f (snd kv)) d)
                    l acc)).
Proof.
  revert acc; induction l as [|kv l IH]; intros acc H; simpl; [exact H|].
  now apply IH, dict_set_nodup.
Qed.

Lemma with_defaults_nodup (d : PyDict.dict Q) :
  NoDup (map fst d) -> NoDup (map fst (with_defaults d)).
Proof.
  unfold with_defaults; generalize CLASS_NAMES as names.
  intros names; revert d; induction names as [|n names IH]; intros d Hd;
    simpl; [exact Hd|].
  apply IH; unfold PyDict.setdefault.
  destruct (PyDict.get n d); [exact Hd | now apply dict_set_nodup].
Qed.

(** The dictionary [areas] never holds a name twice. *)
Lemma class_areas_nodup (copy : Copy) (hist : Histogram) (total_area : Q)
      (areas : PyDict.dict Q) :
  class_areas copy hist total_area = ok areas -> NoDup (map fst areas).
Proof.
  unfold class_areas.
  destruct (totals_from hist []) as [e|totals]; [discriminate|].
  cbn [rbind ok]; intros H; injection H as <-.
  apply with_defaults_nodup; unfold areas_from.
  apply (fold_set_nodup
           (fun v => class_area copy v (pixel_sum_of copy hist totals)
                       total_area)).
  constructor.
Qed.

Lemma dict_get_in {V} (k : string) (v : V) (d : PyDict.dict V) :
  NoDup (map fst d) -> (PyDict.get k d = Some v <-> In (k, v) d).
Proof.
  induction d as [|[k' v'] d IH]; simpl; intros Hd.
  - split; [discriminate | tauto].
  - inversion Hd as [|? ? Hk Hr]; subst.
    destruct (String.eqb k' k) eqn:E.
    + apply String.eqb_eq in E; subst k'.
      split.
      * intros H; injection H as <-; now left.
      * intros [H|H]; [now injection H as <- |].
        exfalso; apply Hk; change k with (fst (k, v)); now apply in_map.
    + rewrite (IH Hr); split; [now right|].
      intros [H|H]; [|exact H].
      injection H as -> _; rewrite String.eqb_refl in E; discriminate.
Qed.

Lemma fold_left_when {A B} (p : B -> bool) (g : A -> B -> A) (l : list B)
      (a : A) :
  fold_left (fun acc x => if p x then g acc x else acc) l a
  = fold_left g (filter p l) a.
Proof.
  revert a; induction l as [|x l IH]; intros a; simpl; [reflexivity|].
  destruct (p x); simpl; apply IH.
Qed.

Lemma nodup_keys_filter {V} (p : string * V -> bool) (l : list (string * V)) :
  NoDup (map fst l) -> NoDup (map fst (filter p l)).
Proof.
  induction l as [|x l IH]; simpl; intros H; [constructor|].
  inversion H as [|? ? Hx Hl]; subst.
  destruct (p x); simpl; [|now apply IH].
  constructor; [|now apply IH].
  intros Hin; apply Hx.
  apply in_map_iff in Hin; destruct Hin as (y & Hy & Hin).
  apply filter_In in Hin; destruct Hin as [Hin _].
  rewrite <- Hy; now apply in_map.
Qed.

(** The report, as a list: the positive areas in descending order. *)
Lemma land_cover_listed (copy : Copy) (areas : PyDict.dict Q)
      (total_area : Q) :
  NoDup (map fst areas) ->
  land_cover copy areas total_area
  = map (fun nv => (fst nv, class_entry copy (snd nv) total_area))
      (filter (fun nv => Qlt_bool 0 (snd nv)) (sorted_desc areas)).
Proof.
  intros Hnd; unfold land_cover.
  rewrite (fold_left_when (fun nv => Qlt_bool 0 (snd nv))
             (fun classes nv =>
                PyDict.set (fst nv) (class_entry copy (snd nv) total_area)
                  classes)).
  apply (fold_set_fresh (fun v => class_entry copy v total_area)
           (filter (fun nv => Qlt_bool 0 (snd nv)) (sorted_desc areas)) []);
    [|reflexivity].
  apply nodup_keys_filter.
  apply (Permutation_NoDup (l := map fst areas)); [|exact Hnd].
  apply Permutation_map; symmetry; apply sorted_desc_perm.
Qed.

(** X7. The land-cover part of the [Backend] report: for every histogram on
    which the statistics are computed, [land_cover_classes] lists no class
    twice, lists exactly the classes whose area is above zero, each with
    that area and its percentage, and lists them by descending area. *)
Theorem land_cover_report_sorted :
  forall (hist : Histogram) (total_area : Q) (image_date : string)
         (areas : PyDict.dict Q),
    class_areas Backend hist total_area = ok areas ->
    exists stats,
      area_statistics Backend hist total_area image_date = ok stats
      /\ NoDup (map fst (land_cover_classes stats))
      /\ Forall (fun e => 0 < area_km2 (snd e)) (land_cover_classes stats)
      /\ StronglySorted
           (fun a b => area_km2 (snd b) <= area_km2 (snd a))
           (land_cover_classes stats)
      /\ (forall name entry,
             In (name, entry) (land_cover_classes stats)
             <-> exists v,
                 PyDict.get name areas = Some v /\ 0 < v
                 /\ entry = class_entry Backend v total_area).
Proof.
  intros hist total_area image_date areas Hclass.
  pose proof (class_areas_nodup Backend hist total_area areas Hclass) as Hnd.
  unfold area_statistics; rewrite Hclass; cbn [rbind ok].
  eexists; split; [reflexivity|]; cbn [land_cover_classes].
  rewrite (land_cover_listed Backend areas total_area Hnd).
  set (kept := filter (fun nv => Qlt_bool 0 (snd nv)) (sorted_desc areas)).
  assert (Hkept : forall nv, In nv kept <-> In nv areas /\ 0 < snd nv).
  { intros nv; unfold kept; rewrite filter_In, Qlt_bool_iff.
    split; intros [Hin Hpos]; split; try exact Hpos.
    - now apply (Permutation_in _ (sorted_desc_perm areas)).
    - now apply (Permutation_in _ (Permutation_sym (sorted_desc_perm areas))). }
  split; [|split; [|split]].
  - rewrite map_map; cbn [fst].
    apply nodup_keys_filter.
    apply (Permutation_NoDup (l := map fst areas)); [|exact Hnd].
    apply Permutation_map; symmetry; apply sorted_desc_perm.
  - apply Forall_map, Forall_forall; intros nv Hin; cbn [snd class_entry area_km2].
    now apply Hkept.
  - apply (strongly_sorted_map by_area_desc); [intros a b H; exact H|].
    apply strongly_sorted_filter, sorted_desc_sorted.
  - intros name entry; rewrite in_map_iff; split.
    + intros ([n v] & Heq & Hin); cbn [fst snd] in Heq.
      injection Heq as -> <-.
      apply Hkept in Hin; destruct Hin as [Hin Hpos].
      exists v; split; [now apply dict_get_in | split; [exact Hpos | reflexivity]].
    + intros (v & Hget & Hpos & ->).
      exists (name, v); split; [reflexivity|].
      apply Hkept; split; [now apply dict_get_in | exact Hpos].
Qed.

Lemma land_cover_report_sorted_witness :
  exists stats,
    area_statistics Backend spec_histogram 100 "2024-05-03" = ok stats
    /\ map fst (land_cover_classes stats)
       = ["water"; "trees"; "natural_forest"]%string.
Proof.
  destruct (land_cover_report_sorted spec_histogram 100 "2024-05-03"
              (areas_of_histogram Backend spec_histogram 100) eq_refl)
    as (stats & Hstats & _).
  exists stats; split; [exact Hstats|].
  vm_compute in Hstats; injection Hstats as <-; reflexivity.
Defined.

(** ** The tile planner: the filter only drops cells *)

Lemma filter_flat_map {A B} (p : B -> bool) (f : A -> list B) (l : list A) :
  filter p (flat_map f l) = flat_map (fun x => filter p (f x)) l.
Proof.
  induction l as [|x l IH]; simpl; [reflexivity|].
  now rewrite filter_app, IH.
Qed.

Lemma grid_is_filtered (intersects : Box -> Geometry -> bool)
      (polygon : Geometry) (minx miny step_x step_y : Q) (num_x num_y : Z) :
  grid intersects polygon minx miny step_x step_y num_x num_y
  = filter (fun rect => intersects rect polygon)
      (grid keep_all polygon minx miny step_x step_y num_x num_y).
Proof.
  unfold grid; rewrite filter_flat_map.
  apply flat_map_ext; intros i.
  unfold keep_all; now rewrite filter_true.
Qed.

(** X8. Off the single-tile path, what [split_boundary_box] returns for a
    polygon is what it returns without the intersection test, filtered by
    that test: the same cells in the same order, those that miss the polygon
    dropped; it raises exactly when the unfiltered run raises. *)
Theorem split_boundary_box_filters_the_grid :
  forall (cos_deg : Q -> Q) (intersects : Box -> Geometry -> bool)
         (polygon : Geometry) (boundary_box : Box) (max_size_km : Q),
    fits_single_tile cos_deg boundary_box max_size_km = false ->
    split_boundary_box cos_deg intersects polygon boundary_box max_size_km
    = match split_boundary_box cos_deg keep_all polygon boundary_box
              max_size_km with
      | inl e => inl e
      | inr cells => inr (filter (fun rect => intersects rect polygon) cells)
      end.
Proof.
  intros cos_deg intersects polygon boundary_box max_size_km.
  unfold fits_single_tile, box_km, split_boundary_box.
  rewrite bounds_of; intros H; rewrite H; cbv zeta; unfold rbind.
  repeat match goal with
         | |- context [py_div ?a ?b] =>
             destruct (py_div a b); [reflexivity|]
         end.
  unfold ok; now rewrite grid_is_filtered.
Qed.

(** The box of one degree with a polygon test that keeps the western half. *)
Definition west_half (rect : Box) (_ : Geometry) : bool :=
  Qlt_bool (box_x1 rect) (1 # 2).

Lemma split_boundary_box_filters_the_grid_witness :
  split_boundary_box (x_cos_deg equator) west_half equator_square degree_box 30
  = match split_boundary_box (x_cos_deg equator) keep_all equator_square
            degree_box 30 with
    | inl e => inl e
    | inr cells => inr (filter (fun rect => west_half rect equator_square) cells)
    end.
Proof.
  apply (split_boundary_box_filters_the_grid (x_cos_deg equator) west_half
           equator_square degree_box 30).
  reflexivity.
Defined.



(** ** The scene the run works on *)

Definition by_cloud (a b : Scene) : Prop :=
  cloudy_pixel_percentage a <= cloudy_pixel_percentage b.

Lemma insert_scene_perm (x : Scene) (l : list Scene) :
  Permutation (insert_scene x l) (x :: l).
Proof.
  induction l as [|y l IH]; simpl; [reflexivity|].
  destruct (Qle_bool _ _); [reflexivity|].
  rewrite IH; apply perm_swap.
Qed.

Lemma sort_scenes_perm (l : list Scene) : Permutation (sort_scenes l) l.
Proof.
  unfold sort_scenes; induction l as [|x l IH]; simpl; [reflexivity|].
  rewrite insert_scene_perm; now constructor.
Qed.

Lemma insert_scene_sorted (x : Scene) (l : list Scene) :
  StronglySorted by_cloud l -> StronglySorted by_cloud (insert_scene x l).
Proof.
  induction l as [|y l IH]; simpl; intros Hs.
  - repeat constructor.
  - inversion Hs as [|? ? Hl Hy]; subst.
    destruct (Qle_bool (cloudy_pixel_percentage x) (cloudy_pixel_percentage y))
      eqn:E.
    + apply Qle_bool_iff in E.
      constructor; [exact Hs|].
      constructor; [exact E|].
      eapply Forall_impl; [|exact Hy].
      intros z Hz; unfold by_cloud in *; lra.
    + assert (Hyx : by_cloud y x).
      { apply Qlt_le_weak, Qnot_le_lt; intros H.
        apply Qle_bool_iff in H; congruence. }
      constructor; [now apply IH|].
      apply (Permutation_Forall (Permutation_sym (insert_scene_perm x l))).
      now constructor.
Qed.

Lemma sort_scenes_sorted (l : list Scene) :
  StronglySorted by_cloud (sort_scenes l).
Proof.
  unfold sort_scenes; induction l as [|x l IH]; simpl; [constructor|].
  now apply insert_scene_sorted.
Qed.

(** X9. The collection [s2] holds exactly the available scenes below 35
    percent, least cloudy first; it is empty exactly when no scene is below
    35 percent; and the scene the run takes with [s2.first()] is an available
    scene below 35 percent that no other such scene beats. *)
Theorem first_scene_is_least_cloudy :
  forall scenes : list Scene,
    Permutation (s2_collection scenes)
      (filter (fun s => Qlt_bool (cloudy_pixel_percentage s) 35) scenes)
    /\ StronglySorted by_cloud (s2_collection scenes)
    /\ (s2_collection scenes = []
        <-> forall sc, In sc scenes -> 35 <= cloudy_pixel_percentage sc)
    /\ (forall first_image rest,
           s2_collection scenes = first_image :: rest ->
           In first_image scenes
           /\ cloudy_pixel_percentage first_image < 35
           /\ forall sc,
               In sc scenes -> cloudy_pixel_percentage sc < 35 ->
               cloudy_pixel_percentage first_image
               <= cloudy_pixel_percentage sc).
Proof.
  intros scenes.
  assert (Hperm : Permutation (s2_collection scenes)
                    (filter (fun s => Qlt_bool (cloudy_pixel_percentage s) 35)
                       scenes)) by apply sort_scenes_perm.
  assert (Hsorted : StronglySorted by_cloud (s2_collection scenes))
    by apply sort_scenes_sorted.
  assert (Hkept : forall sc,
             In sc scenes -> cloudy_pixel_percentage sc < 35 ->
             In sc (s2_collection scenes)).
  { intros sc Hin Hlt.
    apply (Permutation_in _ (Permutation_sym Hperm)), filter_In.
    split; [exact Hin | now apply Qlt_bool_iff]. }
  split; [exact Hperm|]; split; [exact Hsorted|]; split; [split|].
  - intros Hempty sc Hin.
    destruct (Qlt_le_dec (cloudy_pixel_percentage sc) 35) as [Hlt|Hle];
      [|exact Hle].
    pose proof (Hkept sc Hin Hlt) as H; rewrite Hempty in H; destruct H.
  - intros Hall.
    destruct (s2_collection scenes) as [|first_image rest] eqn:E;
      [reflexivity|].
    assert (Hin : In first_image (s2_collection scenes))
      by (rewrite E; now left).
    apply s2_collection_in in Hin; destruct Hin as [Hin Hlt].
    pose proof (Hall _ Hin); lra.
  - intros first_image rest E.
    assert (Hin : In first_image (s2_collection scenes))
      by (rewrite E; now left).
    apply s2_collection_in in Hin; destruct Hin as [Hin Hlt].
    split; [exact Hin|]; split; [exact Hlt|].
    intros sc Hsc Hsclt.
    pose proof (Hkept sc Hsc Hsclt) as Hk.
    rewrite E in Hk, Hsorted.
    inversion Hsorted as [|? ? _ Hfirst]; subst.
    destruct Hk as [<-|Hk]; [apply Qle_refl|].
    rewrite Forall_forall in Hfirst; now apply Hfirst.
Qed.

(** ** The handler: answers without imagery, and the status codes *)

(** [shapely_to_ee] downloads nothing. *)
Lemma shapely_to_ee_fetches_nothing (X : Externals) (w : string)
      (s s' : Store) (r : Res EEGeometry) :
  shapely_to_ee X w s = (r, s') ->
  attempts s' = attempts s /\ slept s' = slept s.
Proof.
  unfold shapely_to_ee, lru_cached, bind, lift, ret.
  destruct (lru_find String.eqb w (ee_cache s)).
  - intros H; inversion H; subst; now simpl.
  - destruct (x_wkt_loads X w); intros H; inversion H; subst; now simpl.
Qed.

(** The run up to the imagery queries, when they find nothing to work on. *)
Lemma run_without_imagery (copy : Copy) (X : Externals) (W : World)
      (ud : UserData) (g : Geometry) (scenes : list Scene) (dir : string)
      (s : Store) :
  w_user_data W = ok ud ->
  x_wkt_loads X (x_wkt X (ud_city_geometry ud)) = ok g ->
  w_scenes W = ok scenes ->
  (forall sc, In sc scenes -> 35 <= cloudy_pixel_percentage sc)
  \/ w_dw_size W = ok 0%Z ->
  exists s',
    process_natural_forest_classification copy X W dir s
    = (ok (None, bbox_of ud), s')
    /\ same_outputs s s'
    /\ remote_calls s' = remote_calls s
    /\ attempts s' = attempts s.
Proof.
  intros Hud Hload Hscenes Hnone.
  destruct (shapely_to_ee_returns X _ g s Hload) as (e & s1 & He).
  pose proof (shapely_to_ee_outputs X _ s s1 _ He) as Hout.
  pose proof (shapely_to_ee_frame X _ s s1 _ He) as [_ Hremote].
  pose proof (shapely_to_ee_fetches_nothing X _ s s1 _ He) as [Hatt _].
  exists s1; split; [|split; [exact Hout | split; assumption]].
  unfold process_natural_forest_classification, load_boundary, bind, lift, ret.
  rewrite Hud; unfold ok; cbv beta iota.
  rewrite He, Hscenes; unfold ok; cbv beta iota.
  destruct (s2_collection scenes) as [|first_image rest] eqn:Hs2;
    [reflexivity|].
  destruct Hnone as [Hall|Hdw].
  - exfalso.
    assert (Hfirst : In first_image (s2_collection scenes))
      by (rewrite Hs2; now left).
    apply s2_collection_in in Hfirst; destruct Hfirst as [Hfin Hlt].
    pose proof (Hall _ Hfin); lra.
  - rewrite Hdw; unfold ok; cbv beta iota.
    destruct (match copy with
              | Backend => Qlt_bool 1 (cloudy_pixel_percentage first_image)
              | Legacy => false
              end); reflexivity.
Qed.

(** X10. An [analysis] request whose date range holds no scene below 35
    percent (or no scene at all), or for which the Dynamic World collection
    is empty, is answered in both copies with the too-cloudy response,
    status 400: no protected-area request, no download attempt, no file and
    no upload. *)
Theorem no_imagery_answers_too_cloudy :
  forall (copy : Copy) (X : Externals) (W : World) (event : Event)
         (ud : UserData) (g : Geometry) (scenes : list Scene)
         (name : string) (s : Store),
    String.eqb (ev_method event) "OPTIONS" = false ->
    ev_operation event = "analysis"%string ->
    ev_filename event = Some name -> name <> EmptyString ->
    w_setup W = ok tt ->
    w_user_data W = ok ud ->
    x_wkt_loads X (x_wkt X (ud_city_geometry ud)) = ok g ->
    w_scenes W = ok scenes ->
    (forall sc, In sc scenes -> 35 <= cloudy_pixel_percentage sc)
    \/ w_dw_size W = ok 0%Z ->
    exists s',
      lambda_handler copy X W event s = (too_cloudy_response copy, s')
      /\ statusCode (too_cloudy_response copy) = 400%Z
      /\ files s' = files s
      /\ s3_objects s' = s3_objects s
      /\ remote_calls s' = remote_calls s
      /\ attempts s' = attempts s.
Proof.
  intros copy X W event ud g scenes name s
         Hmethod Hop Hname Hnonempty Hsetup Hud Hload Hscenes Hnone.
  destruct (run_without_imagery copy X W ud g scenes output_dir s
              Hud Hload Hscenes Hnone) as (s' & Hrun & [Hf Hs] & Hr & Ha).
  exists s'.
  split; [|repeat split; assumption].
  unfold lambda_handler.
  replace (match copy with
           | Backend => String.eqb (ev_method event) "OPTIONS"
           | Legacy => false
           end) with false by (destruct copy; [now rewrite Hmethod | reflexivity]).
  unfold dispatch; rewrite Hop; cbn [String.eqb Ascii.eqb Bool.eqb].
  unfold analysis; rewrite Hname.
  destruct name as [|c name']; [contradiction|].
  unfold bind, lift; rewrite Hsetup, Hrun; reflexivity.
Qed.

Lemma no_imagery_answers_too_cloudy_witness :
  (exists s',
      lambda_handler Legacy equator (world_with [mkScene 35 may_3; overcast_scene])
        example_event empty_store = (too_cloudy_response Legacy, s')
      /\ files s' = [] /\ s3_objects s' = [] /\ remote_calls s' = 0%nat)
  /\ (exists s',
         lambda_handler Backend equator
           (mkWorld (ok tt) (ok example_user_data)
              (ok [mkScene (1 # 2) may_3]) (ok 0%Z)
              (ok (Some spec_histogram)) always_503 [0%nat])
           example_event empty_store = (too_cloudy_response Backend, s')
         /\ files s' = [] /\ s3_objects s' = [] /\ remote_calls s' = 0%nat).
Proof.
  split.
  - destruct (no_imagery_answers_too_cloudy Legacy equator
                (world_with [mkScene 35 may_3; overcast_scene]) example_event
                example_user_data equator_square
                [mkScene 35 may_3; overcast_scene]
                "boundary.json"%string empty_store)
      as (s' & Hh & _ & Hf & Hs & Hr & _);
      try reflexivity; try discriminate.
    + left; intros sc [<-|[<-|[]]]; unfold Qle; simpl; lia.
    + exists s'.
      split; [exact Hh | split; [exact Hf | split; [exact Hs | exact Hr]]].
  - destruct (no_imagery_answers_too_cloudy Backend equator
                (mkWorld (ok tt) (ok example_user_data)
                   (ok [mkScene (1 # 2) may_3]) (ok 0%Z)
                   (ok (Some spec_histogram)) always_503 [0%nat])
                example_event
                example_user_data equator_square
                [mkScene (1 # 2) may_3]
                "boundary.json"%string empty_store)
      as (s' & Hh & _ & Hf & Hs & Hr & _);
      try reflexivity; try discriminate.
    + right; reflexivity.
    + exists s'.
      split; [exact Hh | split; [exact Hf | split; [exact Hs | exact Hr]]].
Defined.

(** The status of a response agrees with the kind of its body. *)
Definition status_matches_body (response : Response) : Prop :=
  match body response with
  | BodyEmpty => statusCode response = 204%Z
  | BodyUpload _ _ => statusCode response = 200%Z
  | BodySuccess _ _ _ => statusCode response = 200%Z
  | BodyError _ => statusCode response = 400%Z
  | BodyException _ => statusCode response = 500%Z
  end.

Lemma analysis_status (copy : Copy) (X : Externals) (W : World)
      (event : Event) (s s' : Store) (response : Response) :
  analysis copy X W event s = (ok response, s') ->
  status_matches_body response
  /\ (statusCode response = 200%Z \/ statusCode response = 400%Z).
Proof.
  unfold analysis.
  destruct (ev_filename event) as [[|c name]|].
  - intros H; inversion H; subst; split; [reflexivity | now right].
  - unfold bind, lift.
    destruct (w_setup W) as [e|u]; [discriminate|].
    destruct (process_natural_forest_classification copy X W output_dir s)
      as [[e|[[[[image_file stats_file] image_date]|] boundary_box]] s1];
      [discriminate| |].
    + destruct (upload_file image_file _ s1) as [[e|u1] s2]; [discriminate|].
      destruct (upload_file (Some stats_file) _ s2) as [[e|u2] s3];
        [discriminate|].
      destruct (x_presign X _ _) as [e|url]; [discriminate|].
      destruct (read_stats stats_file s3) as [[e|stats] s4]; [discriminate|].
      intros H; inversion H; subst; split; [reflexivity | now left].
    + intros H; inversion H; subst; split; [reflexivity | now right].
  - intros H; inversion H; subst; split; [reflexivity | now right].
Qed.

Lemma dispatch_status (copy : Copy) (X : Externals) (W : World)
      (event : Event) (s s' : Store) (response : Response) :
  dispatch copy X W event s = (ok response, s') ->
  status_matches_body response
  /\ (statusCode response = 200%Z \/ statusCode response = 400%Z).
Proof.
  unfold dispatch, upload, bind, lift, ret.
  destruct (String.eqb (ev_operation event) "upload").
  - destruct (x_presign X _ _) as [e|url]; [discriminate|].
    intros H; inversion H; subst; split; [reflexivity | now left].
  - destruct (String.eqb (ev_operation event) "analysis").
    + apply analysis_status.
    + intros H; inversion H; subst; split; [reflexivity | now right].
Qed.

(** X11. Whatever the request and whatever the outside answers, the handler
    returns one of the statuses 200, 204, 400 and 500, and the status tells
    the kind of the body: 204 comes with the empty body, 200 with an upload
    URL or an analysis result, 400 with an error message, 500 with the
    exception.  Status 204 is given by [Backend] only and exactly to the
    method OPTIONS, with the store untouched; otherwise the store is the one
    the dispatch leaves, and the status is 500 exactly when the dispatch
    raised. *)
Theorem lambda_handler_status_codes :
  forall (copy : Copy) (X : Externals) (W : World) (event : Event)
         (s : Store),
    let response := fst (lambda_handler copy X W event s) in
    status_matches_body response
    /\ (statusCode response = 200%Z \/ statusCode response = 204%Z
        \/ statusCode response = 400%Z \/ statusCode response = 500%Z)
    /\ (statusCode response = 204%Z
        <-> copy = Backend /\ ev_method event = "OPTIONS"%string)
    /\ (statusCode response = 204%Z ->
        snd (lambda_handler copy X W event s) = s)
    /\ (statusCode response <> 204%Z ->
        snd (lambda_handler copy X W event s)
        = snd (dispatch copy X W event s)
        /\ (statusCode response = 500%Z
            <-> exists e, fst (dispatch copy X W event s) = raise e)).
Proof.
  intros copy X W event s response.
  assert (Hcases : (copy = Backend /\ ev_method event = "OPTIONS"%string
                    /\ lambda_handler copy X W event s
                       = (mkResponse 204 BodyEmpty, s))
                   \/ (~ (copy = Backend /\ ev_method event = "OPTIONS"%string)
                       /\ lambda_handler copy X W event s
                          = match dispatch copy X W event s with
                            | (inr r, s') => (r, s')
                            | (inl e, s') =>
                                (mkResponse 500 (BodyException e), s')
                            end)).
  { unfold lambda_handler.
    destruct copy.
    - destruct (String.eqb (ev_method event) "OPTIONS") eqn:E.
      + left; apply String.eqb_eq in E; auto.
      + right; split; [|reflexivity].
        intros [_ H]; apply String.eqb_neq in E; contradiction.
    - right; split; [|reflexivity]; intros [H _]; discriminate. }
  subst response.
  destruct Hcases as [(Hc & Hm & Hrun) | (Hno & Hrun)]; rewrite Hrun.
  - cbn [fst snd statusCode body].
    split; [reflexivity|].
    split; [auto|].
    split; [split; auto|].
    split; [reflexivity|].
    intros H; now destruct H.
  - destruct (dispatch copy X W event s) as [[e|r] s'] eqn:E;
      cbn [fst snd statusCode body].
    + split; [reflexivity|].
      split; [auto|].
      split; [split; [discriminate | intros H; now destruct (Hno H)]|].
      split; [discriminate|].
      intros _; split; [reflexivity|].
      split; [intros _; now exists e | reflexivity].
    + destruct (dispatch_status copy X W event s s' r E) as [Hm Hst].
      split; [exact Hm|].
      split; [destruct Hst; auto|].
      split; [split; [intros H; destruct Hst; lia
                     | intros H; now destruct (Hno H)]|].
      split; [intros H; destruct Hst; lia|].
      intros _; split; [reflexivity|].
      split; [intros H; destruct Hst; lia | intros [e0 H]; discriminate].
Qed.

(** X12. A request that is not a complete [analysis] request (another
    operation, or [analysis] without a file name) never starts a run: the
    store is left as it was, and the answer does not depend on anything the
    provider or the bucket would have answered. *)
Theorem only_analysis_starts_a_run :
  forall (copy : Copy) (X : Externals) (W W' : World) (event : Event)
         (s : Store),
    ev_operation event <> "analysis"%string
    \/ ev_filename event = None
    \/ ev_filename event = Some EmptyString ->
    snd (lambda_handler copy X W event s) = s
    /\ lambda_handler copy X W' event s = lambda_handler copy X W event s.
Proof.
  intros copy X W W' event s Hno.
  unfold lambda_handler.
  destruct (match copy with
            | Backend => String.eqb (ev_method event) "OPTIONS"
            | Legacy => false
            end); [now split|].
  unfold dispatch.
  destruct (String.eqb (ev_operation event) "upload").
  { unfold upload, bind, lift, ret.
    destruct (x_presign X _ _); now split. }
  destruct (String.eqb (ev_operation event) "analysis") eqn:E; [|now split].
  apply String.eqb_eq in E.
  destruct Hno as [Hop|[Hname|Hname]]; [contradiction| |];
    unfold analysis; rewrite Hname; now split.
Qed.

Lemma only_analysis_starts_a_run_witness :
  snd (lambda_handler Backend equator (world_with [hazy_scene])
         (mkEvent "POST" "upload" (Some "../boundary.json"%string) "results"
            "user_data_0.json") empty_store) = empty_store
  /\ lambda_handler Backend equator (world_with [])
       (mkEvent "POST" "upload" (Some "../boundary.json"%string) "results"
          "user_data_0.json") empty_store
     = lambda_handler Backend equator (world_with [hazy_scene])
         (mkEvent "POST" "upload" (Some "../boundary.json"%string) "results"
            "user_data_0.json") empty_store.
Proof.
  apply (only_analysis_starts_a_run Backend equator
           (world_with [hazy_scene]) (world_with [])
           (mkEvent "POST" "upload" (Some "../boundary.json"%string) "results"
              "user_data_0.json") empty_store).
  left; discriminate.
Defined.

(** ** [sanitize_filename] on names that are already safe *)

Lemma basename_without_slash (s : string) :
  PyStr.mem "/"%char s = false -> basename s = s.
Proof.
  intros H; unfold basename; now rewrite (rfind_absent _ _ H).
Qed.

Lemma map_chars_safe (s : string) :
  all_chars allowed_char s ->
  PyStr.map_chars (fun c => if PyStr.mem c safe_chars then c else "_"%char) s
  = s.
Proof.
  induction s as [|a r IH]; cbn [PyStr.map_chars all_chars]; [reflexivity|].
  intros [Ha Hr].
  now rewrite safe_chars_allowed, Ha, IH.
Qed.

Lemma sanitize_filename_safe (s : string) :
  all_chars allowed_char s -> sanitize_filename s = s.
Proof.
  intros Hs; unfold sanitize_filename.
  rewrite basename_without_slash.
  - now apply map_chars_safe.
  - apply all_chars_not_mem with (P := allowed_char); [exact Hs | reflexivity].
Qed.

Lemma map_chars_length (f : ascii -> ascii) (s : string) :
  String.length (PyStr.map_chars f s) = String.length s.
Proof. induction s as [|a r IH]; simpl; [reflexivity | now rewrite IH]. Qed.

Lemma drop_length (n : nat) (s : string) :
  (String.length (PyStr.drop n s) <= String.length s)%nat.
Proof.
  revert s; induction n as [|n IH]; intros [|a r]; simpl; try lia.
  pose proof (IH r); lia.
Qed.

(** X13. [sanitize_filename] is idempotent and never lengthens a name; a
    name made only of letters, digits, [.], [_] and [-] is returned as it
    is, and such a name that ends in [.json] is the name the upload branch
    uses.  It is not injective: two different requested names can get the
    same object key. *)
Theorem sanitize_filename_idempotent :
  forall filename : string,
    sanitize_filename (sanitize_filename filename) = sanitize_filename filename
    /\ (String.length (sanitize_filename filename)
        <= String.length filename)%nat
    /\ (all_chars allowed_char filename -> sanitize_filename filename = filename)
    /\ (forall uuid_name,
           all_chars allowed_char filename ->
           PyStr.endswith filename ".json" = true ->
           upload_s3_key (Some filename) uuid_name
           = ("uploads/" ++ filename)%string)
    /\ (exists other uuid_name,
           other <> ("a b.json")%string
           /\ upload_s3_key (Some other) uuid_name
              = upload_s3_key (Some "a b.json"%string) uuid_name).
Proof.
  intros filename.
  split; [|split; [|split; [|split]]].
  - apply sanitize_filename_safe.
    unfold sanitize_filename; apply map_chars_all, replaced_char_allowed.
  - unfold sanitize_filename, basename.
    rewrite map_chars_length; apply drop_length.
  - apply sanitize_filename_safe.
  - intros uuid_name Hsafe Hjson.
    unfold upload_s3_key, upload_filename.
    now rewrite Hjson, sanitize_filename_safe.
  - exists "a_b.json"%string, EmptyString.
    split; [discriminate | reflexivity].
Qed.

(** ** The CORS headers of [Backend] *)

Lemma existsb_eqb_in (origin : string) (l : list string) :
  existsb (String.eqb origin) l = true <-> In origin l.
Proof.
  rewrite existsb_exists; split.
  - intros (x & Hin & Heq); apply String.eqb_eq in Heq; now subst.
  - intros Hin; exists origin; split; [exact Hin | apply String.eqb_refl].
Qed.

Lemma str_truthy_iff (s : string) : str_truthy s = true <-> s <> EmptyString.
Proof.
  unfold str_truthy; rewrite negb_true_iff; apply String.eqb_neq.
Qed.

(** X14. The [Access-Control-Allow-Origin] header of [_build_cors_headers]
    is the wildcard or a non-empty origin of [ALLOWED_ORIGINS], never
    anything else the request sent: the origin of the request is echoed
    exactly when it is not empty and listed (the header [origin] taking
    precedence over [Origin] unless it is empty); otherwise the header is
    the first listed origin, and the wildcard when the list is empty or
    starts with the empty string.  The wildcard comes together with
    [Access-Control-Allow-Credentials: true]. *)
Theorem cors_origin_is_listed_or_wildcard :
  forall (ALLOWED_ORIGINS : list string)
         (request_headers : option (PyDict.dict string)),
    let fallback :=
      match ALLOWED_ORIGINS with
      | first :: _ => if str_truthy first then first else "*"%string
      | [] => "*"%string
      end in
    let headers := _build_cors_headers ALLOWED_ORIGINS request_headers in
    PyDict.get "Access-Control-Allow-Origin" headers
    = Some (allow_origin ALLOWED_ORIGINS request_headers)
    /\ PyDict.get "Access-Control-Allow-Credentials" headers
       = Some "true"%string
    /\ (allow_origin ALLOWED_ORIGINS request_headers = "*"%string
        \/ (In (allow_origin ALLOWED_ORIGINS request_headers) ALLOWED_ORIGINS
            /\ allow_origin ALLOWED_ORIGINS request_headers <> EmptyString))
    /\ (forall origin,
           request_origin request_headers = Some origin ->
           origin <> EmptyString -> In origin ALLOWED_ORIGINS ->
           allow_origin ALLOWED_ORIGINS request_headers = origin)
    /\ ((forall origin,
            request_origin request_headers = Some origin ->
            origin = EmptyString \/ ~ In origin ALLOWED_ORIGINS) ->
        allow_origin ALLOWED_ORIGINS request_headers = fallback)
    /\ (forall h origin,
           request_headers = Some h ->
           PyDict.get "origin" h = Some origin -> origin <> EmptyString ->
           request_origin request_headers = Some origin)
    /\ (request_headers = None -> request_origin request_headers = None).
Proof.
  intros ALLOWED_ORIGINS request_headers fallback headers.
  assert (Hfallback : fallback = "*"%string
                      \/ (In fallback ALLOWED_ORIGINS
                          /\ fallback <> EmptyString)).
  { subst fallback; destruct ALLOWED_ORIGINS as [|first rest]; [now left|].
    destruct (str_truthy first) eqn:E; [|now left].
    right; split; [now left | now apply str_truthy_iff]. }
  split; [reflexivity|]; split; [reflexivity|].
  unfold allow_origin; fold fallback.
  destruct (request_origin request_headers) as [origin|] eqn:Horigin.
  - destruct (str_truthy origin && existsb (String.eqb origin) ALLOWED_ORIGINS)
      eqn:E.
    + apply andb_true_iff in E; destruct E as [Ht Hin].
      apply str_truthy_iff in Ht; apply existsb_eqb_in in Hin.
      split; [right; now split|].
      split; [intros o Ho _ _; congruence|].
      split.
      { intros Hnot; destruct (Hnot origin eq_refl); contradiction. }
      split; [|intros ->; discriminate].
      intros h o -> Ho Hne.
      rewrite <- Horigin; unfold request_origin, py_or_str.
      rewrite Ho.
      apply str_truthy_iff in Hne; now rewrite Hne.
    + split; [exact Hfallback|].
      split.
      { intros o Ho Hne Hin; injection Ho as ->.
        apply str_truthy_iff in Hne; apply existsb_eqb_in in Hin.
        rewrite Hne, Hin in E; discriminate. }
      split; [reflexivity|].
      split; [|intros ->; discriminate].
      intros h o -> Ho Hne.
      rewrite <- Horigin; unfold request_origin, py_or_str.
      rewrite Ho.
      apply str_truthy_iff in Hne; now rewrite Hne.
  - split; [exact Hfallback|].
    split; [discriminate|].
    split; [reflexivity|].
    split; [|reflexivity].
    intros h o -> Ho Hne.
    rewrite <- Horigin; unfold request_origin, py_or_str.
    rewrite Ho.
    apply str_truthy_iff in Hne; now rewrite Hne.
Qed.

(** ** The legend of the final image *)

Lemma legend_rows_in (mw : Z) (row : Z * ((Z * Z * Z) * string))
      (rect : PixelRect) :
  In (row, rect) (legend_rows mw) ->
  (0 <= fst row < 11)%Z
  /\ rect = legend_swatch mw (fst row)
  /\ In (fst row, fst (snd row)) tile_palette
  /\ nth_error legend_labels (Z.to_nat (fst row)) = Some (snd (snd row)).
Proof.
  unfold legend_rows; rewrite in_map_iff.
  intros (r & Heq & Hin).
  injection Heq as -> <-.
  vm_compute in Hin.
  repeat (destruct Hin as [<-|Hin];
          [split; [cbn [fst]; lia|];
           split; [reflexivity|];
           split; [vm_compute; tauto | reflexivity]|]).
  destruct Hin.
Qed.

(** X15. The layout of [create_final_image_with_legend] for a map of any
    size, in both copies: the map, pasted at (10, 50), lies inside the final
    image; the legend has eleven rows, one per class, each with the colour
    the tiles are painted with for that class; every swatch lies inside the
    final image, below the title line and to the right of the map, and the
    swatches of different rows do not touch. *)
Theorem legend_layout :
  forall (copy : Copy) (mw mh : Z),
    (0 <= mw)%Z -> (0 <= mh)%Z ->
    (px_right (map_region mw mh) <= fst (final_size copy mw mh))%Z
    /\ (px_bottom (map_region mw mh) <= snd (final_size copy mw mh))%Z
    /\ List.length (legend_rows mw) = 11%nat
    /\ map (fun r => fst (fst r)) (legend_rows mw) = py_range 11
    /\ (forall row rect,
           In (row, rect) (legend_rows mw) ->
           In (fst row, fst (snd row)) tile_palette
           /\ nth_error legend_labels (Z.to_nat (fst row))
              = Some (snd (snd row))
           /\ (px_right (map_region mw mh) < px_left rect)%Z
           /\ (px_left rect < px_right rect)%Z
           /\ (px_right rect < fst (final_size copy mw mh))%Z
           /\ (50 <= px_top rect)%Z
           /\ (px_top rect < px_bottom rect)%Z
           /\ (px_bottom rect < snd (final_size copy mw mh))%Z
           /\ forall row' rect',
               In (row', rect') (legend_rows mw) ->
               (fst row < fst row')%Z ->
               (px_bottom rect < px_top rect')%Z).
Proof.
  intros copy mw mh Hw Hh.
  assert (Hfw : fst (final_size copy mw mh) = (mw + 220)%Z)
    by (unfold final_size; cbn [fst]; lia).
  assert (Hfh : (41 + 350 <= snd (final_size copy mw mh))%Z
                /\ (mh + 60 <= snd (final_size copy mw mh))%Z)
    by (unfold final_size; destruct copy; cbn [snd]; lia).
  split; [rewrite Hfw; cbn [map_region px_right]; lia|].
  split; [cbn [map_region px_bottom]; lia|].
  split; [reflexivity|].
  split; [reflexivity|].
  intros row rect Hin.
  apply legend_rows_in in Hin; destruct Hin as (Hrow & -> & Hcol & Hlabel).
  split; [exact Hcol|]; split; [exact Hlabel|].
  rewrite Hfw.
  cbn [legend_swatch map_region px_left px_right px_top px_bottom].
  repeat (split; [lia|]).
  intros row' rect' Hin' Hlt.
  apply legend_rows_in in Hin'; destruct Hin' as (Hrow' & -> & _).
  cbn [legend_swatch px_top]; lia.
Qed.

Lemma legend_layout_witness :
  (px_right (map_region 4000 2500) <= fst (final_size Legacy 4000 2500))%Z
  /\ (px_bottom (map_region 4000 2500) <= snd (final_size Legacy 4000 2500))%Z
  /\ List.length (legend_rows 4000) = 11%nat.
Proof.
  destruct (legend_layout Legacy 4000 2500 ltac:(lia) ltac:(lia))
    as (Hr & Hb & Hl & _).
  split; [exact Hr | split; [exact Hb | exact Hl]].
Defined.

(** ** The tile planner: the size of the tiles *)

(** The extent of a tile in kilometres, on the scale [split_boundary_box]
    measures the bounding box with. *)
Definition tile_km (cos_deg : Q -> Q) (boundary_box rect : Box) : Q * Q :=
  let lat_mid := (miny_of boundary_box + maxy_of boundary_box) / 2 in
  ((maxx_of rect - minx_of rect) * (111 * cos_deg lat_mid),
   (maxy_of rect - miny_of rect) * 111).

Lemma quotient_below_count (a size : Q) (n : Z) :
  0 < size -> (1 <= n)%Z -> a / size <= inject_Z n ->
  a / inject_Z n <= size.
Proof.
  intros Hsize Hn Hle.
  assert (Hq : 0 < inject_Z n)
    by (change 0 with (inject_Z 0); rewrite <- Zlt_Qlt; lia).
  apply Qle_shift_div_r; [exact Hq|].
  assert (E : a == a / size * size) by (field; lra).
  rewrite E.
  rewrite (Qmult_comm size (inject_Z n)).
  apply Qmult_le_compat_r; [exact Hle | lra].
Qed.



(** ** FetchCoordinator: what the harvest keeps *)

(** The tile a future holds, if it returned one. *)
Definition tile_of (f : Res (option TileResult)) : list TileResult :=
  match f with
  | inr (Some res) => [res]
  | _ => []
  end.

Lemma flat_map_positions {A B} (h : option A -> list B) (pre l : list A) :
  flat_map (fun pos => h (nth_error (pre ++ l) pos))
    (seq (List.length pre) (List.length l))
  = flat_map (fun x => h (Some x)) l.
Proof.
  revert pre; induction l as [|a r IH]; intros pre; [reflexivity|].
  cbn [List.length seq flat_map].
  rewrite nth_error_app2 by lia.
  rewrite Nat.sub_diag; cbn [nth_error].
  f_equal.
  specialize (IH (pre ++ [a])).
  rewrite <- app_assoc, length_app in IH; cbn [List.length app] in IH.
  now rewrite Nat.add_1_r in IH.
Qed.

Lemma harvest_in_order (W : World)
      (futures : list (Res (option TileResult))) :
  harvest W futures
  = flat_map (fun pos =>
                match nth_error futures pos with
                | Some f => tile_of f
                | None => []
                end) (w_completion W).
Proof.
  unfold harvest; apply flat_map_ext; intros pos.
  destruct (nth_error futures pos) as [[e|[res|]]|]; reflexivity.
Qed.

(** The harvest is a rearrangement of the tiles the futures hold. *)
Lemma harvest_permutation (W : World)
      (futures : list (Res (option TileResult))) :
  Permutation (w_completion W) (seq 0 (List.length futures)) ->
  Permutation (harvest W futures) (flat_map tile_of futures).
Proof.
  intros Hperm.
  rewrite harvest_in_order.
  rewrite (Permutation_flat_map _ Hperm).
  pose proof (flat_map_positions
                (fun o => match o with
                          | Some f => tile_of f
                          | None => []
                          end) [] futures) as E.
  cbn [app List.length] in E; rewrite E.
  reflexivity.
Qed.

(** X17. When [as_completed] yields every future exactly once, in whatever
    order, the harvest of [process_and_export_image] keeps exactly the
    tiles of the futures that returned one: the futures that returned
    [None] or raised are dropped, nothing is kept twice, and only the order
    depends on the completion order. *)
Theorem harvest_keeps_the_fetched_tiles :
  forall (W : World) (futures : list (Res (option TileResult))),
    Permutation (w_completion W) (seq 0 (List.length futures)) ->
    Permutation (harvest W futures) (flat_map tile_of futures)
    /\ (forall res,
           In res (harvest W futures) <-> In (inr (Some res)) futures)
    /\ (List.length (harvest W futures)
        = List.length (filter (fun f => match tile_of f with
                                        | [] => false
                                        | _ => true
                                        end) futures))
    /\ (List.length (harvest W futures) <= List.length futures)%nat.
Proof.
  intros W futures Hperm.
  pose proof (harvest_permutation W futures Hperm) as Hh.
  assert (Hlen : forall l : list (Res (option TileResult)),
             List.length (flat_map tile_of l)
             = List.length (filter (fun f => match tile_of f with
                                             | [] => false
                                             | _ => true
                                             end) l)).
  { induction l as [|[e|[res|]] l IH]; cbn; auto. }
  split; [exact Hh|]; split; [|split].
  - intros res; split.
    + intros Hin; apply (Permutation_in _ Hh), in_flat_map in Hin.
      destruct Hin as (f & Hf & Hres).
      destruct f as [e|[res'|]]; try destruct Hres.
      * now subst.
      * destruct H.
    + intros Hin; apply (Permutation_in _ (Permutation_sym Hh)), in_flat_map.
      exists (inr (Some res)); split; [exact Hin | now left].
  - rewrite (Permutation_length Hh); apply Hlen.
  - rewrite (Permutation_length Hh), Hlen; apply filter_length_le.
Qed.

Definition tile_a : TileResult := mkTileResult 0 sample_image equator_box.
Definition tile_c : TileResult := mkTileResult 2 sample_image degree_box.

Lemma harvest_keeps_the_fetched_tiles_witness :
  Permutation
    (harvest (mkWorld (ok tt) (ok example_user_data) (ok []) (ok 3%Z)
                (ok None) always_503 [2; 0; 1]%nat)
       [inr (Some tile_a); inl ProviderError; inr (Some tile_c)])
    [tile_a; tile_c].
Proof.
  apply (harvest_keeps_the_fetched_tiles
           (mkWorld (ok tt) (ok example_user_data) (ok []) (ok 3%Z)
              (ok None) always_503 [2; 0; 1]%nat)
           [inr (Some tile_a); inl ProviderError; inr (Some tile_c)]).
  cbn [w_completion List.length seq].
  apply (Permutation_cons_app [0%nat; 1%nat] [] 2%nat).
  reflexivity.
Defined.

(** ** The geometry caches are transparent *)

Section LruInvariant.

Variables K V : Type.
Variable keqb : K -> K -> bool.
Hypothesis keqb_eq : forall a b, keqb a b = true -> a = b.

Lemma lru_find_in (k : K) (c : list (K * V)) (v : V) :
  lru_find keqb k c = Some v -> In (k, v) c.
Proof.
  induction c as [|[k' v'] c IH]; cbn [lru_find]; [discriminate|].
  destruct (keqb k' k) eqn:E.
  - intros H; injection H as <-.
    apply keqb_eq in E; subst; now left.
  - intros H; right; auto.
Qed.

Lemma lru_remove_in (k : K) (x : K * V) (c : list (K * V)) :
  In x (lru_remove keqb k c) -> In x c.
Proof. unfold lru_remove; intros H; apply filter_In in H; tauto. Qed.

Lemma lru_remove_shorter (k : K) (c : list (K * V)) (v : V) :
  lru_find keqb k c = Some v ->
  (S (List.length (lru_remove keqb k c)) <= List.length c)%nat.
Proof.
  unfold lru_remove.
  induction c as [|[k' v'] c IH]; cbn [lru_find filter List.length fst];
    [discriminate|].
  destruct (keqb k' k) eqn:E; cbn [negb List.length].
  - intros _.
    pose proof (filter_length_le (fun kv => negb (keqb (fst kv) k)) c); lia.
  - intros H; specialize (IH H); lia.
Qed.

End LruInvariant.

Lemma in_firstn {A} (n : nat) (l : list A) (x : A) :
  In x (firstn n l) -> In x l.
Proof.
  revert l; induction n as [|n IH]; intros [|a l]; cbn [firstn In]; try tauto.
  intros [H|H]; auto.
Qed.

Lemma pa_key_eqb_eq (a b : string * Date) : pa_key_eqb a b = true -> a = b.
Proof.
  destruct a as [w d], b as [w' d']; unfold pa_key_eqb; cbn [fst snd].
  intros H; apply andb_true_iff in H; destruct H as [Hw Hd].
  apply String.eqb_eq in Hw; apply date_eqb_eq in Hd; now subst.
Qed.

(** The collection [get_protected_areas] reads for a date: the monthly
    snapshot when the provider has it, the current one otherwise. *)
Definition wdpa_for (X : Externals) (d : Date) : string :=
  let path := ("WCMC/WDPA/" ++ yyyymm_of d ++ "/polygons")%string in
  if x_collection_ok X path then path else "WCMC/WDPA/current/polygons"%string.

(** What the two functions compute without their caches. *)
Definition ee_of (X : Externals) (w : string) : Res EEGeometry :=
  match x_wkt_loads X w with
  | inr g => ok (to_ee g)
  | inl e => raise e
  end.

Definition mask_of (X : Externals) (w : string) (d : Date) : Res Mask :=
  match x_wkt_loads X w with
  | inr g => ok (mkMask (wdpa_for X d) (to_ee g))
  | inl e => raise e
  end.

(** The caches hold at most [maxsize] entries, each the value its key
    computes to. *)
Definition caches_sound (X : Externals) (s : Store) : Prop :=
  (List.length (ee_cache s) <= 128)%nat
  /\ (List.length (pa_cache s) <= 32)%nat
  /\ (forall w e, In (w, e) (ee_cache s) -> ee_of X w = ok e)
  /\ (forall w d m, In ((w, d), m) (pa_cache s) -> mask_of X w d = ok m).

Lemma shapely_to_ee_transparent (X : Externals) (w : string) (s : Store) :
  caches_sound X s ->
  fst (shapely_to_ee X w s) = ee_of X w
  /\ caches_sound X (snd (shapely_to_ee X w s)).
Proof.
  intros (Hle & Hlp & Hse & Hsp).
  unfold shapely_to_ee, lru_cached.
  destruct (lru_find String.eqb w (ee_cache s)) as [e|] eqn:Hfind.
  - pose proof (lru_find_in _ _ String.eqb string_eqb_eq _ _ _ Hfind) as Hin.
    pose proof (lru_remove_shorter _ _ String.eqb _ _ _ Hfind) as Hshort.
    cbn [fst snd]; split; [symmetry; now apply Hse|].
    unfold caches_sound; cbn [ee_cache pa_cache set_ee_cache].
    split; [cbn [List.length]; lia|].
    split; [exact Hlp|].
    split; [|exact Hsp].
    intros w0 e0 [H|H].
    + injection H as <- <-; now apply Hse.
    + apply Hse; now apply lru_remove_in in H.
  - unfold bind, lift, ret, ee_of.
    destruct (x_wkt_loads X w) as [e|g] eqn:Hload; cbn [fst snd].
    + split; [reflexivity|].
      unfold caches_sound; auto.
    + split; [reflexivity|].
      unfold caches_sound; cbn [ee_cache pa_cache set_ee_cache].
      split; [apply firstn_le_length|].
      split; [exact Hlp|].
      split; [|exact Hsp].
      intros w0 e0 H; apply in_firstn in H; destruct H as [H|H].
      * injection H as <- <-; unfold ee_of; now rewrite Hload.
      * now apply Hse.
Qed.

Lemma get_protected_areas_transparent (X : Externals) (w : string) (d : Date)
      (s : Store) :
  caches_sound X s ->
  fst (get_protected_areas X w d s) = mask_of X w d
  /\ caches_sound X (snd (get_protected_areas X w d s)).
Proof.
  intros Hs.
  pose proof Hs as (Hle & Hlp & Hse & Hsp).
  unfold get_protected_areas, lru_cached.
  destruct (lru_find pa_key_eqb (w, d) (pa_cache s)) as [m|] eqn:Hfind.
  - pose proof (lru_find_in _ _ pa_key_eqb pa_key_eqb_eq _ _ _ Hfind) as Hin.
    pose proof (lru_remove_shorter _ _ pa_key_eqb _ _ _ Hfind) as Hshort.
    cbn [fst snd]; split; [symmetry; now apply Hsp|].
    unfold caches_sound; cbn [ee_cache pa_cache set_pa_cache].
    split; [exact Hle|].
    split; [cbn [List.length]; lia|].
    split; [exact Hse|].
    intros w0 d0 m0 [H|H].
    + injection H as <- <- <-; now apply Hsp.
    + apply Hsp; now apply lru_remove_in in H.
  - unfold get_protected_areas_body, bind, modify, ret; cbv zeta.
    destruct (shapely_to_ee_transparent X w s Hs) as [Hr Hs1].
    destruct (shapely_to_ee X w s) as [[e|ee] s1]; cbn [fst snd] in Hr, Hs1.
    + cbn [fst snd]; split; [|exact Hs1].
      unfold mask_of; unfold ee_of in Hr.
      destruct (x_wkt_loads X w); [|discriminate].
      unfold raise in *; now injection Hr as ->.
    + destruct Hs1 as (Hle1 & Hlp1 & Hse1 & Hsp1).
      assert (Hm : mask_of X w d
                   = ok (mkMask (wdpa_for X d) ee)).
      { unfold mask_of; unfold ee_of in Hr.
        destruct (x_wkt_loads X w); [discriminate|].
        now injection Hr as <-. }
      cbn [fst snd]; split; [now rewrite Hm|].
      unfold caches_sound;
        cbn [ee_cache pa_cache set_pa_cache tick_remote].
      split; [exact Hle1|].
      split; [apply firstn_le_length|].
      split; [exact Hse1|].
      intros w0 d0 m0 H; apply in_firstn in H; destruct H as [H|H].
      * injection H as <- <- <-; exact Hm.
      * now apply Hsp1.
Qed.

Lemma same_month_same_collection (X : Externals) (d d' : Date) :
  same_month d d' -> wdpa_for X d = wdpa_for X d'.
Proof.
  intros [Hy Hm]; unfold wdpa_for, yyyymm_of; now rewrite Hy, Hm.
Qed.

(** X18. The two memoized functions are transparent: from a store whose
    caches are within their sizes (128 and 32) and hold for each key the
    value it computes to (the empty store is one), [shapely_to_ee] and
    [get_protected_areas] return what they would compute without a cache,
    whatever is cached, and leave such a store behind.  The mask depends on
    the date through its year and month only. *)
Theorem geometry_caches_are_transparent :
  forall (X : Externals) (w : string) (d : Date) (s : Store),
    caches_sound X s ->
    fst (shapely_to_ee X w s) = ee_of X w
    /\ caches_sound X (snd (shapely_to_ee X w s))
    /\ fst (get_protected_areas X w d s) = mask_of X w d
    /\ caches_sound X (snd (get_protected_areas X w d s))
    /\ (forall d', same_month d d' -> mask_of X w d' = mask_of X w d).
Proof.
  intros X w d s Hs.
  destruct (shapely_to_ee_transparent X w s Hs) as [H1 H2].
  destruct (get_protected_areas_transparent X w d s Hs) as [H3 H4].
  repeat (split; [assumption|]).
  intros d' Hsame; unfold mask_of.
  now rewrite (same_month_same_collection X d d' Hsame).
Qed.

Lemma empty_store_sound (X : Externals) : caches_sound X empty_store.
Proof.
  unfold caches_sound, empty_store; cbn [ee_cache pa_cache List.length].
  split; [apply Nat.le_0_l|]; split; [apply Nat.le_0_l|].
  split; intros; contradiction.
Qed.

Lemma geometry_caches_are_transparent_witness :
  fst (get_protected_areas equator equator_square_wkt may_3 empty_store)
  = mask_of equator equator_square_wkt may_3
  /\ mask_of equator equator_square_wkt may_17
     = mask_of equator equator_square_wkt may_3.
Proof.
  destruct (geometry_caches_are_transparent equator equator_square_wkt may_3
              empty_store (empty_store_sound equator))
    as (_ & _ & Hm & _ & Hsame).
  split; [exact Hm|].
  apply Hsame; split; reflexivity.
Defined.

(** ** MosaicCompositor: everything is drawn inside the canvas *)

Lemma py_int_nonneg (x : Q) : 0 <= x -> (0 <= py_int x)%Z.
Proof.
  intros Hx; unfold py_int.
  apply Qle_bool_iff in Hx; rewrite Hx.
  apply Qle_bool_iff in Hx.
  change 0%Z with (Qfloor 0).
  now apply Qfloor_resp_le.
Qed.

(** The fraction of the extent [a .. b] that [x] is at. *)
Lemma fraction_in_unit (a b x : Q) :
  a < b -> a <= x -> x <= b -> 0 <= (x - a) / (b - a) /\ (x - a) / (b - a) <= 1.
Proof.
  intros Hab Hax Hxb; split.
  - apply Qle_shift_div_l; lra.
  - apply Qle_shift_div_r; lra.
Qed.

Lemma scaled_fraction (f : Q) (n : Z) :
  0 <= f -> f <= 1 -> (0 <= n)%Z ->
  (0 <= py_int (f * inject_Z n) <= n)%Z.
Proof.
  intros Hf0 Hf1 Hn.
  assert (Hq : 0 <= inject_Z n)
    by (change 0 with (inject_Z 0); now rewrite <- Zle_Qle).
  split.
  - apply py_int_nonneg, Qmult_le_0_compat; assumption.
  - apply py_int_le; [exact Hn|].
    rewrite <- (Qmult_1_l (inject_Z n)) at 2.
    now apply Qmult_le_compat_r.
Qed.

(** A position inside the bounding box becomes a pixel of the canvas, its
    right and bottom edges included; [geo2px] does not raise there. *)
Lemma geo2px_in_canvas (copy : Copy) (boundary_box : Box) (w_px h_px : Z)
      (lon lat : Q) :
  minx_of boundary_box < maxx_of boundary_box ->
  miny_of boundary_box < maxy_of boundary_box ->
  (0 <= w_px)%Z -> (0 <= h_px)%Z ->
  minx_of boundary_box <= lon -> lon <= maxx_of boundary_box ->
  miny_of boundary_box <= lat -> lat <= maxy_of boundary_box ->
  exists x y,
    geo2px copy boundary_box w_px h_px lon lat = ok (x, y)
    /\ (0 <= x <= w_px)%Z /\ (0 <= y <= h_px)%Z.
Proof.
  intros Hx Hy Hw Hh Hlon1 Hlon2 Hlat1 Hlat2.
  unfold geo2px; rewrite bounds_of; unfold rbind.
  rewrite py_div_ok by lra; unfold ok; cbv beta iota.
  rewrite py_div_ok by lra; unfold ok; cbv beta iota.
  destruct (fraction_in_unit _ _ lon Hx Hlon1 Hlon2) as [Hfx0 Hfx1].
  assert (Hfy : 0 <= (maxy_of boundary_box - lat)
                     / (maxy_of boundary_box - miny_of boundary_box)
                /\ (maxy_of boundary_box - lat)
                   / (maxy_of boundary_box - miny_of boundary_box) <= 1).
  { split; [apply Qle_shift_div_l | apply Qle_shift_div_r]; lra. }
  destruct Hfy as [Hfy0 Hfy1].
  pose proof (scaled_fraction _ w_px Hfx0 Hfx1 Hw) as Hpx.
  pose proof (scaled_fraction _ h_px Hfy0 Hfy1 Hh) as Hpy.
  destruct copy; eexists; eexists; (split; [reflexivity|]); lia.
Qed.

(** The clamped [geo2px] of [create_boundary_mask] sends every position to
    a pixel of the canvas. *)
Lemma geo2px_clamped (boundary_box : Box) (w_px h_px : Z) (lon lat : Q) :
  minx_of boundary_box < maxx_of boundary_box ->
  miny_of boundary_box < maxy_of boundary_box ->
  exists x y,
    geo2px Legacy boundary_box w_px h_px lon lat = ok (x, y)
    /\ ((1 <= w_px)%Z -> (0 <= x < w_px)%Z)
    /\ ((1 <= h_px)%Z -> (0 <= y < h_px)%Z).
Proof.
  intros Hx Hy.
  unfold geo2px; rewrite bounds_of; unfold rbind.
  rewrite py_div_ok by lra; unfold ok; cbv beta iota.
  rewrite py_div_ok by lra; unfold ok; cbv beta iota.
  eexists; eexists; split; [reflexivity|]; split; lia.
Qed.

(** A paste that lies inside a canvas of the given size and shows the image
    of one of the tiles. *)
Definition paste_inside (w_px h_px : Z) (results : list TileResult)
           (p : Paste) : Prop :=
  (0 <= paste_x p)%Z /\ (0 < paste_w p)%Z /\ (paste_x p + paste_w p <= w_px)%Z
  /\ (0 <= paste_y p)%Z /\ (0 < paste_h p)%Z
  /\ (paste_y p + paste_h p <= h_px)%Z
  /\ exists res, In res results /\ paste_img p = png_image res.

(** The tile lies inside the bounding box. *)
Definition tile_inside (boundary_box : Box) (res : TileResult) : Prop :=
  minx_of boundary_box <= minx_of (shapely_sub_rect res)
  /\ maxx_of (shapely_sub_rect res) <= maxx_of boundary_box
  /\ miny_of boundary_box <= miny_of (shapely_sub_rect res)
  /\ maxy_of (shapely_sub_rect res) <= maxy_of boundary_box.

Lemma box_ordered (b : Box) : minx_of b <= maxx_of b /\ miny_of b <= maxy_of b.
Proof.
  unfold minx_of, maxx_of, miny_of, maxy_of; split.
  - apply Qle_trans with (box_x1 b); [apply Q.le_min_l | apply Q.le_max_l].
  - apply Qle_trans with (box_y1 b); [apply Q.le_min_l | apply Q.le_max_l].
Qed.

Lemma paste_tiles_inside (copy : Copy) (boundary_box : Box) (w_px h_px : Z)
      (results : list TileResult) :
  minx_of boundary_box < maxx_of boundary_box ->
  miny_of boundary_box < maxy_of boundary_box ->
  (0 <= w_px)%Z -> (0 <= h_px)%Z ->
  Forall (tile_inside boundary_box) results ->
  exists pastes,
    paste_tiles copy boundary_box w_px h_px results = ok pastes
    /\ Forall (paste_inside w_px h_px results) pastes
    /\ (List.length pastes <= List.length results)%nat.
Proof.
  intros Hx Hy Hw Hh Hall.
  induction Hall as [|res rest Hres Hrest IH].
  - exists []; repeat split; [constructor | apply Nat.le_refl].
  - destruct IH as (tail & Htail & Hin & Hlen).
    destruct Hres as (H1 & H2 & H3 & H4).
    destruct (box_ordered (shapely_sub_rect res)) as [Hox Hoy].
    destruct (geo2px_in_canvas copy boundary_box w_px h_px
                (minx_of (shapely_sub_rect res))
                (maxy_of (shapely_sub_rect res)))
      as (x1 & y1 & E1 & Hx1 & Hy1); try assumption; try lra.
    destruct (geo2px_in_canvas copy boundary_box w_px h_px
                (maxx_of (shapely_sub_rect res))
                (miny_of (shapely_sub_rect res)))
      as (x2 & y2 & E2 & Hx2 & Hy2); try assumption; try lra.
    assert (Hweak : Forall (paste_inside w_px h_px (res :: rest)) tail).
    { eapply Forall_impl; [|exact Hin].
      intros p (? & ? & ? & ? & ? & ? & r & Hr & Himg).
      repeat (split; [assumption|]).
      exists r; split; [now right | exact Himg]. }
    cbn [paste_tiles]; rewrite bounds_of; unfold rbind.
    rewrite E1; unfold ok; cbv beta iota.
    rewrite E2; unfold ok; cbv beta iota.
    rewrite Htail; unfold ok; cbv beta iota.
    destruct ((x2 - x1 <=? 0)%Z || (y2 - y1 <=? 0)%Z) eqn:Hdeg.
    + exists tail; split; [reflexivity|]; split; [exact Hweak|].
      cbn [List.length]; lia.
    + apply orb_false_iff in Hdeg; destruct Hdeg as [Hdx Hdy].
      apply Z.leb_gt in Hdx; apply Z.leb_gt in Hdy.
      eexists; split; [reflexivity|]; split; [|cbn [List.length]; lia].
      constructor; [|exact Hweak].
      unfold paste_inside;
        cbn [paste_x paste_y paste_w paste_h paste_img].
      repeat (split; [lia|]).
      exists res; split; [now left | reflexivity].
Qed.

(** A vertex of the mask that is a pixel of the canvas. *)
Definition pixel_of (w_px h_px : Z) (p : Z * Z) : Prop :=
  (0 <= fst p < w_px)%Z /\ (0 <= snd p < h_px)%Z.

Lemma mask_vertices_inside (boundary_box : Box) (w_px h_px : Z) (ring : Ring) :
  minx_of boundary_box < maxx_of boundary_box ->
  miny_of boundary_box < maxy_of boundary_box ->
  exists vertices,
    mask_vertices boundary_box w_px h_px ring = ok vertices
    /\ List.length vertices = List.length ring
    /\ ((1 <= w_px)%Z -> (1 <= h_px)%Z ->
        Forall (pixel_of w_px h_px) vertices).
Proof.
  intros Hx Hy.
  induction ring as [|[lon lat] rest IH].
  - exists []; repeat split; constructor.
  - destruct IH as (tail & Htail & Hlen & Hin).
    destruct (geo2px_clamped boundary_box w_px h_px lon lat Hx Hy)
      as (x & y & E & Hpx & Hpy).
    exists ((x, y) :: tail).
    cbn [mask_vertices]; unfold rbind.
    rewrite E; unfold ok; cbv beta iota.
    rewrite Htail; unfold ok; cbv beta iota.
    split; [reflexivity|]; split; [cbn [List.length]; now rewrite Hlen|].
    intros Hw Hh; constructor; [|now apply Hin].
    split; cbn [fst snd]; auto.
Qed.

Lemma create_boundary_mask_inside (boundary_box : Box) (w_px h_px : Z)
      (rings : list Ring) :
  minx_of boundary_box < maxx_of boundary_box ->
  miny_of boundary_box < maxy_of boundary_box ->
  exists polygons,
    create_boundary_mask boundary_box w_px h_px rings = ok polygons
    /\ map (@List.length _) polygons = map (@List.length _) rings
    /\ ((1 <= w_px)%Z -> (1 <= h_px)%Z ->
        Forall (Forall (pixel_of w_px h_px)) polygons).
Proof.
  intros Hx Hy.
  induction rings as [|ring rest IH].
  - exists []; repeat split; constructor.
  - destruct IH as (tail & Htail & Hlen & Hin).
    destruct (mask_vertices_inside boundary_box w_px h_px ring Hx Hy)
      as (vertices & E & Hl & Hv).
    exists (vertices :: tail).
    cbn [create_boundary_mask]; unfold rbind.
    rewrite E; unfold ok; cbv beta iota.
    rewrite Htail; unfold ok; cbv beta iota.
    split; [reflexivity|]; split; [cbn [map]; now rewrite Hl, Hlen|].
    intros Hw Hh; constructor; [now apply Hv | now apply Hin].
Qed.



(** ** A run that succeeds *)

(** One of the three attempts for the tile succeeds. *)
Definition tile_fetched (W : World) (tile : Box) : Prop :=
  exists (k : nat) (img : Image),
    (k < 3)%nat
    /\ (forall i, (i < k)%nat ->
                  succeeds (w_tile_attempt W tile (Z.of_nat i)) = None)
    /\ succeeds (w_tile_attempt W tile (Z.of_nat k)) = Some img.

(** The files of a run and the objects of its uploads, by name. *)
Definition image_path (X : Externals) (boundary_box : Box) (dir : string)
           (image_date : Date) : string :=
  (dir ++ "/" ++ date_str image_date ++ "-" ++ lat_long_of X boundary_box
     ++ "-natural_forest_classification.png")%string.

Definition stats_path (dir : string) (image_date : Date) : string :=
  (dir ++ "/natural_forest_stats_" ++ date_str image_date ++ ".json")%string.

Definition image_artifact (copy : Copy) (X : Externals) (boundary_box : Box)
           (pastes : list Paste) : Artifact :=
  let '(w_px, h_px) := canvas_size copy (x_cos_deg X) boundary_box in
  let '(final_w, final_h) := final_size copy w_px h_px in
  PngFile w_px h_px final_w final_h pastes.

Definition object_key (X : Externals) (boundary_box : Box) (prefix : string)
           (image_date : Date) (suffix : string) : string :=
  ((prefix ++ "/" ++ date_str image_date ++ "-" ++ lat_long_of X boundary_box)
     ++ suffix)%string.

Lemma export_fetches (attempt_of : Z -> Attempt) (s : Store) :
  (exists (k : nat) (img : Image),
      (k < 3)%nat
      /\ (forall i, (i < k)%nat -> succeeds (attempt_of (Z.of_nat i)) = None)
      /\ succeeds (attempt_of (Z.of_nat k)) = Some img) ->
  exists img s',
    export_sub_polygon_as_png attempt_of default_max_retries s
    = (ok (Some img), s')
    /\ same_outputs s s'.
Proof.
  intros (k & img & Hk & Hfail & Hok).
  exists img, (after_fetch (S k) k s); split; [|apply after_fetch_outputs].
  unfold export_sub_polygon_as_png, py_range, default_max_retries.
  change (Z.to_nat 3) with 3%nat.
  apply retry_loop_first_success;
    [exact Hk | intros i Hi; apply Hfail; lia | exact Hok].
Qed.

Lemma geo2px_returns (copy : Copy) (boundary_box : Box) (w_px h_px : Z)
      (lon lat : Q) :
  minx_of boundary_box < maxx_of boundary_box ->
  miny_of boundary_box < maxy_of boundary_box ->
  exists p, geo2px copy boundary_box w_px h_px lon lat = ok p.
Proof.
  intros Hx Hy.
  unfold geo2px; rewrite bounds_of; unfold rbind.
  rewrite py_div_ok by lra; unfold ok; cbv beta iota.
  rewrite py_div_ok by lra; unfold ok; cbv beta iota.
  destruct copy; eexists; reflexivity.
Qed.

Lemma paste_tiles_returns (copy : Copy) (boundary_box : Box) (w_px h_px : Z)
      (results : list TileResult) :
  minx_of boundary_box < maxx_of boundary_box ->
  miny_of boundary_box < maxy_of boundary_box ->
  exists pastes, paste_tiles copy boundary_box w_px h_px results = ok pastes.
Proof.
  intros Hx Hy.
  induction results as [|res rest [tail Htail]]; [now exists []|].
  destruct (geo2px_returns copy boundary_box w_px h_px
              (minx_of (shapely_sub_rect res))
              (maxy_of (shapely_sub_rect res)) Hx Hy) as [[x1 y1] E1].
  destruct (geo2px_returns copy boundary_box w_px h_px
              (maxx_of (shapely_sub_rect res))
              (miny_of (shapely_sub_rect res)) Hx Hy) as [[x2 y2] E2].
  cbn [paste_tiles]; rewrite bounds_of; unfold rbind.
  rewrite E1; unfold ok; cbv beta iota.
  rewrite E2; unfold ok; cbv beta iota.
  rewrite Htail; unfold ok; cbv beta iota.
  destruct ((x2 - x1 <=? 0)%Z || (y2 - y1 <=? 0)%Z); eexists; reflexivity.
Qed.

(** With a tile to merge, [merge_images_properly] writes the image. *)
Lemma merge_writes_the_image (copy : Copy) (X : Externals)
      (boundary_box : Box) (polygon : Geometry) (r : TileResult)
      (rs : list TileResult) (dir : string) (image_date : Date) (s : Store) :
  minx_of boundary_box < maxx_of boundary_box ->
  miny_of boundary_box < maxy_of boundary_box ->
  exists pastes,
    merge_images_properly copy X boundary_box polygon (r :: rs) dir
      image_date s
    = (ok (Some (image_path X boundary_box dir image_date)),
       log_file (image_path X boundary_box dir image_date)
         (image_artifact copy X boundary_box pastes) s).
Proof.
  intros Hx Hy.
  unfold merge_images_properly, image_artifact.
  destruct (canvas_size copy (x_cos_deg X) boundary_box) as [w_px h_px].
  destruct (paste_tiles_returns copy boundary_box w_px h_px (r :: rs) Hx Hy)
    as [pastes Hp].
  destruct (create_boundary_mask_inside boundary_box w_px h_px
              (exterior_rings polygon) Hx Hy) as (polygons & Hm & _).
  exists pastes.
  unfold bind, lift, modify, ret.
  rewrite Hp; unfold ok; cbv beta iota.
  rewrite Hm; unfold ok; cbv beta iota.
  reflexivity.
Qed.

Lemma get_protected_areas_returns (X : Externals) (w : string) (d : Date)
      (g : Geometry) (s : Store) :
  x_wkt_loads X w = ok g ->
  exists m s', get_protected_areas X w d s = (ok m, s') /\ same_outputs s s'.
Proof.
  intros Hload.
  assert (H : exists m s', get_protected_areas X w d s = (ok m, s')).
  { destruct (lru_find pa_key_eqb (w, d) (pa_cache s)) as [m|] eqn:Hfind.
    - destruct (get_protected_areas_hit X w d s m Hfind) as (s' & Hrun & _).
      now exists m, s'.
    - destruct (get_protected_areas_miss X w d g s Hfind Hload)
        as (m & s' & Hrun & _).
      now exists m, s'. }
  destruct H as (m & s' & Hrun).
  exists m, s'; split; [exact Hrun|].
  exact (get_protected_areas_outputs X w d s s' _ Hrun).
Qed.

Lemma enumerate_from_length {A} (i : Z) (l : list A) :
  List.length (enumerate_from i l) = List.length l.
Proof.
  revert i; induction l as [|a l IH]; intros i; cbn; [reflexivity|].
  now rewrite IH.
Qed.

Section SuccessfulRun.

Variable copy : Copy.
Variable X : Externals.
Variable W : World.
Hypothesis Hwkt : forall rect, exists g, x_wkt_loads X (x_box_wkt X rect) = ok g.
Hypothesis Hfetch : forall tile, tile_fetched W tile.

Lemma process_sub_polygon_fetches (idx : Z) (rect : Box) (s : Store) :
  exists img s',
    process_sub_polygon X W (idx, rect) s
    = (ok (Some (mkTileResult idx img rect)), s')
    /\ same_outputs s s'.
Proof.
  destruct (Hwkt rect) as [g Hg].
  destruct (shapely_to_ee_returns X _ g s Hg) as (e & s1 & He).
  pose proof (shapely_to_ee_outputs X _ s s1 _ He) as Ho.
  destruct (export_fetches (w_tile_attempt W rect) s1 (Hfetch rect))
    as (img & s2 & Hx & Ho').
  exists img, s2; split; [|exact (same_outputs_trans _ _ _ Ho Ho')].
  unfold process_sub_polygon, bind.
  rewrite He; unfold ok; cbv beta iota.
  rewrite Hx; reflexivity.
Qed.

Lemma run_workers_fetch (args : list (Z * Box)) (s : Store) :
  exists futures s',
    run_workers X W args s = (ok futures, s')
    /\ same_outputs s s'
    /\ Forall2 (fun a f => exists img,
                    f = inr (Some (mkTileResult (fst a) img (snd a))))
         args futures.
Proof.
  revert s; induction args as [|[idx rect] rest IH]; intros s.
  - exists [], s; repeat split; constructor.
  - destruct (process_sub_polygon_fetches idx rect s)
      as (img & s1 & Hr & Ho).
    destruct (IH s1) as (futures & s2 & Hrest & Ho' & Hall).
    exists (inr (Some (mkTileResult idx img rect)) :: futures), s2.
    split; [|split].
    + cbn [run_workers]; unfold bind, capture, ret.
      rewrite Hr, Hrest; reflexivity.
    + exact (same_outputs_trans _ _ _ Ho Ho').
    + constructor; [now exists img | exact Hall].
Qed.

Lemma process_and_export_image_succeeds (boundary_box : Box)
      (polygon : Geometry) (image_date : Date) (dir : string)
      (tiles : list Box) (s : Store) :
  minx_of boundary_box < maxx_of boundary_box ->
  miny_of boundary_box < maxy_of boundary_box ->
  split_boundary_box (x_cos_deg X) (x_intersects X) polygon boundary_box 30
  = ok tiles ->
  tiles <> [] ->
  Permutation (w_completion W) (seq 0 (List.length tiles)) ->
  exists pastes s',
    process_and_export_image copy X W boundary_box polygon image_date dir s
    = (ok (Some (image_path X boundary_box dir image_date)), s')
    /\ files s'
       = (image_path X boundary_box dir image_date,
          image_artifact copy X boundary_box pastes) :: files s
    /\ s3_objects s' = s3_objects s.
Proof.
  intros Hx Hy Hsplit Hne Hperm.
  unfold process_and_export_image, bind, lift.
  rewrite Hsplit; unfold ok; cbv beta iota zeta.
  destruct tiles as [|t ts]; [contradiction|].
  destruct (run_workers_fetch (enumerate_from 0 (t :: ts)) s)
    as (futures & s1 & Hrun & [Hf Hs] & Hall).
  rewrite Hrun; unfold ok; cbv beta iota zeta.
  assert (Hlen : List.length futures = List.length (t :: ts)).
  { etransitivity; [symmetry; exact (Forall2_length Hall)|].
    apply enumerate_from_length. }
  rewrite <- Hlen in Hperm.
  pose proof (harvest_permutation W futures Hperm) as Hh.
  destruct (harvest W futures) as [|r rs] eqn:Hres.
  { exfalso.
    cbn [enumerate_from] in Hall.
    inversion Hall as [|a f args fs [img Himg] Hrest]; subst.
    cbn [flat_map tile_of app] in Hh.
    exact (Permutation_nil_cons Hh). }
  destruct (merge_writes_the_image copy X boundary_box polygon r rs dir
              image_date s1 Hx Hy) as [pastes Hm].
  exists pastes; eexists.
  split; [destruct copy; exact Hm|].
  cbn [files s3_objects log_file]; now rewrite Hf, Hs.
Qed.

End SuccessfulRun.

(** The image file and the statistics file of a run have different names:
    after the directory, one starts with a digit of the year, the other
    with a letter. *)
Lemma digit_not_letter (a : Z) :
  (0 <= a < 10)%Z -> Ascii.eqb (digit a) "n" = false.
Proof.
  intros H.
  assert (Hc : (a = 0 \/ a = 1 \/ a = 2 \/ a = 3 \/ a = 4 \/ a = 5 \/ a = 6
                \/ a = 7 \/ a = 8 \/ a = 9)%Z) by lia.
  repeat (destruct Hc as [->|Hc]; [reflexivity|]); subst; reflexivity.
Qed.

Lemma zero_pad_head (w : nat) (n : Z) :
  exists c tail,
    zero_pad (S w) n = String c tail /\ Ascii.eqb c "n" = false.
Proof.
  revert n; induction w as [|w IH]; intros n.
  - exists (digit (n mod 10)), EmptyString; split; [reflexivity|].
    apply digit_not_letter, Z.mod_pos_bound; lia.
  - destruct (IH (n / 10)%Z) as (c & tail & E & Hc).
    exists c, (tail ++ String (digit (n mod 10)) EmptyString)%string.
    split; [|exact Hc].
    change (zero_pad (S (S w)) n)
      with (zero_pad (S w) (n / 10)
              ++ String (digit (n mod 10)) EmptyString)%string.
    now rewrite E.
Qed.

Lemma date_str_head (d : Date) :
  exists c tail, date_str d = String c tail /\ Ascii.eqb c "n" = false.
Proof.
  unfold date_str.
  destruct (zero_pad_head 3 (year d)) as (c & tail & E & Hc).
  rewrite E; eexists; eexists; split; [reflexivity | exact Hc].
Qed.

Lemma eqb_app_prefix (p a b : string) :
  String.eqb (p ++ a) (p ++ b) = String.eqb a b.
Proof.
  induction p as [|c p IH]; cbn [append String.eqb]; [reflexivity|].
  now rewrite Ascii.eqb_refl.
Qed.

Lemma image_path_is_not_stats_path (X : Externals) (boundary_box : Box)
      (dir : string) (d : Date) :
  String.eqb (image_path X boundary_box dir d) (stats_path dir d) = false.
Proof.
  unfold image_path, stats_path; rewrite eqb_app_prefix.
  destruct (date_str_head d) as (c & tail & E & Hc); rewrite E.
  cbn [append]; cbn [String.eqb].
  now rewrite Ascii.eqb_refl, Hc.
Qed.

Lemma read_stats_finds (p1 p2 : string) (a1 : Artifact) (stats : Stats)
      (rest : list (string * Artifact)) (s : Store) :
  files s = (p1, a1) :: (p2, StatsFile stats) :: rest ->
  String.eqb p1 p2 = false ->
  read_stats p2 s = (ok stats, s).
Proof.
  intros Hf Hne; unfold read_stats; rewrite Hf.
  cbn [find fst]; now rewrite Hne, String.eqb_refl.
Qed.

(** The run, when every step succeeds. *)
Lemma run_succeeds (copy : Copy) (X : Externals) (W : World)
      (ud : UserData) (g : Geometry) (scenes : list Scene)
      (first_image : Scene) (rest : list Scene) (size : Z)
      (answer : option Histogram) (stats : Stats) (tiles : list Box)
      (dir : string) (s : Store) :
  (forall rect, exists g, x_wkt_loads X (x_box_wkt X rect) = ok g) ->
  (forall tile, tile_fetched W tile) ->
  w_user_data W = ok ud ->
  x_wkt_loads X (x_wkt X (ud_city_geometry ud)) = ok g ->
  w_scenes W = ok scenes ->
  s2_collection scenes = first_image :: rest ->
  cloudy_pixel_percentage first_image <= cloud_threshold copy ->
  w_dw_size W = ok size -> size <> 0%Z ->
  w_histogram W = ok answer ->
  area_statistics copy (match answer with Some h => h | None => [] end)
    (ud_area ud) (date_str (time_start first_image)) = ok stats ->
  minx_of (bbox_of ud) < maxx_of (bbox_of ud) ->
  miny_of (bbox_of ud) < maxy_of (bbox_of ud) ->
  split_boundary_box (x_cos_deg X) (x_intersects X) (ud_city_geometry ud)
    (bbox_of ud) 30 = ok tiles ->
  tiles <> [] ->
  Permutation (w_completion W) (seq 0 (List.length tiles)) ->
  exists pastes s',
    process_natural_forest_classification copy X W dir s
    = (ok (Some (Some (image_path X (bbox_of ud) dir (time_start first_image)),
                 stats_path dir (time_start first_image),
                 time_start first_image), bbox_of ud), s')
    /\ files s'
       = (image_path X (bbox_of ud) dir (time_start first_image),
          image_artifact copy X (bbox_of ud) pastes)
         :: (stats_path dir (time_start first_image), StatsFile stats)
         :: files s
    /\ s3_objects s' = s3_objects s.
Proof.
  intros Hwkt Hfetch Hud Hload Hscenes Hs2 Hcloud Hdw Hsize Hhist Hstats
         Hx Hy Hsplit Hne Hperm.
  set (d := time_start first_image) in *.
  destruct (shapely_to_ee_returns X _ g s Hload) as (e & s1 & He).
  pose proof (shapely_to_ee_outputs X _ s s1 _ He) as [Hf1 Hs1].
  destruct (get_protected_areas_returns X _ d g s1 Hload)
    as (m & s2 & Hpa & [Hf2 Hs2']).
  destruct (process_and_export_image_succeeds copy X W Hwkt Hfetch
              (bbox_of ud) (ud_city_geometry ud) d dir tiles
              (log_file (stats_path dir d) (StatsFile stats) s2)
              Hx Hy Hsplit Hne Hperm)
    as (pastes & s4 & Hexp & Hf4 & Hs4).
  exists pastes, s4.
  split; [|split].
  - unfold process_natural_forest_classification, load_boundary, bind, lift,
      ret.
    rewrite Hud; unfold ok; cbv beta iota.
    rewrite He, Hscenes; unfold ok; cbv beta iota.
    rewrite Hs2.
    assert (Hc : match copy with
                 | Backend => Qlt_bool 1 (cloudy_pixel_percentage first_image)
                 | Legacy => false
                 end = false).
    { destruct copy; [|reflexivity].
      cbn [cloud_threshold] in Hcloud.
      destruct (Qlt_bool 1 (cloudy_pixel_percentage first_image)) eqn:E;
        [|reflexivity].
      apply Qlt_bool_iff in E; lra. }
    rewrite Hc, Hdw; unfold ok; cbv beta iota.
    rewrite (proj2 (Z.eqb_neq _ _) Hsize).
    fold d; rewrite Hpa; unfold ok; cbv beta iota.
    unfold calculate_area_statistics, bind, lift, modify, ret.
    rewrite Hhist; unfold ok; cbv beta iota zeta.
    fold d in Hstats; rewrite Hstats; unfold ok; cbv beta iota.
    fold (stats_path dir d).
    change (box (ud_bbox_west ud) (ud_bbox_south ud) (ud_bbox_east ud)
              (ud_bbox_north ud)) with (bbox_of ud).
    rewrite Hexp; reflexivity.
  - rewrite Hf4; cbn [files log_file]; now rewrite Hf2, Hf1.
  - rewrite Hs4; cbn [s3_objects log_file]; now rewrite Hs2', Hs1.
Qed.


(** A provider that answers every download at once. *)
Definition fetched_world : World :=
  mkWorld (ok tt) (ok example_user_data) (ok [mkScene (1 # 2) may_3])
    (ok 3%Z) (ok (Some spec_histogram))
    (fun _ _ => HttpResponse 200 (Some sample_image)) [0%nat].


(** ** Statistics: the shares of the forest *)

Lemma rounded_is_multiple (a : Q) :
  round5 a = a -> exists n, a == inject_Z n / 100000.
Proof.
  intros Ha; exists (round_half_even (a * 100000)).
  rewrite <- Ha at 1; apply round5_value.
Qed.

Lemma round5_multiple (n : Z) :
  round5 (inject_Z n / 100000) == inject_Z n / 100000.
Proof.
  rewrite round5_value.
  assert (E : inject_Z n / 100000 * 100000 == inject_Z n) by field.
  now rewrite (round_half_even_comp _ _ E), round_half_even_integer.
Qed.

(** The sum of two rounded values is a rounded value. *)
Lemma round5_sum (a b : Q) :
  round5 a = a -> round5 b = b -> round5 (a + b) == a + b.
Proof.
  intros Ha Hb.
  destruct (rounded_is_multiple a Ha) as [na Ea].
  destruct (rounded_is_multiple b Hb) as [nb Eb].
  assert (E : a + b == inject_Z (na + nb) / 100000).
  { rewrite Ea, Eb, inject_Z_plus; field. }
  rewrite (round5_comp _ _ E), round5_multiple.
  now symmetry.
Qed.

Lemma round_half_even_le (y : Q) (m : Z) :
  y <= inject_Z m -> (round_half_even y <= m)%Z.
Proof.
  intros Hy; unfold round_half_even.
  pose proof (Qfloor_le y) as Hlo.
  assert (Hf : (Qfloor y <= m)%Z)
    by (rewrite Zle_Qle; now apply Qle_trans with y).
  destruct (Qcompare (y - inject_Z (Qfloor y)) (1 # 2)) eqn:E.
  - apply (proj2 (Qeq_alt _ _)) in E.
    assert (Hlt : (Qfloor y < m)%Z) by (rewrite Zlt_Qlt; lra).
    destruct (Z.even (Qfloor y)); lia.
  - exact Hf.
  - apply (proj2 (Qgt_alt _ _)) in E.
    assert (Hlt : (Qfloor y < m)%Z) by (rewrite Zlt_Qlt; lra).
    lia.
Qed.

Lemma round5_le (x : Q) (m : Z) : x <= inject_Z m -> round5 x <= inject_Z m.
Proof.
  intros Hx; rewrite round5_value.
  apply Qle_shift_div_r; [reflexivity|].
  change 100000 with (inject_Z 100000).
  rewrite <- inject_Z_mult, <- Zle_Qle.
  apply round_half_even_le.
  rewrite inject_Z_mult.
  apply Qmult_le_compat_r; [exact Hx | discriminate].
Qed.

Lemma shares_of_a_sum (a b : Q) :
  0 < a + b -> a / (a + b) * 100 + b / (a + b) * 100 == 100.
Proof. intros H; field; lra. Qed.

Lemma nonzero_positive (copy : Copy) (x : Q) :
  0 <= x -> nonzero copy x = Qlt_bool 0 x.
Proof.
  intros Hx; destruct copy; [now apply truthy_nonneg | reflexivity].
Qed.

(** The report, field by field, for a histogram over class codes. *)
Lemma area_statistics_fields (copy : Copy) (hist : Histogram)
      (total_area : Q) (image_date : string) :
  class_code_histogram hist ->
  let areas := areas_of_histogram Backend hist total_area in
  let nf_area := area_of areas "natural_forest" in
  let tree_area := area_of areas "trees" in
  area_statistics copy hist total_area image_date
  = ok {| date := image_date;
          total_area_km2 := round5 total_area;
          forest_area_km2 := round5 (nf_area + tree_area);
          natural_forest_km2 := round5 nf_area;
          natural_forest_percentage :=
            if nonzero copy (nf_area + tree_area)
            then round5 ((nf_area / (nf_area + tree_area)) * 100) else 0;
          other_trees_km2 := round5 tree_area;
          other_trees_percentage :=
            if nonzero copy (nf_area + tree_area)
            then round5 ((tree_area / (nf_area + tree_area)) * 100) else 0;
          land_cover_classes := land_cover copy areas total_area |}.
Proof.
  intros Hhist areas nf_area tree_area.
  pose proof Hhist as [Hnd Hcodes].
  pose proof (histogram_sum_nonneg hist Hcodes) as Hsum.
  assert (Hareas : areas_of_histogram copy hist total_area
                   = areas_of_histogram Backend hist total_area).
  { destruct copy; [reflexivity|].
    unfold areas_of_histogram; f_equal.
    apply map_ext; intros kv; now rewrite class_area_copies. }
  unfold area_statistics.
  rewrite class_areas_named by exact Hhist.
  rewrite Hareas; reflexivity.
Qed.

(** X21. The forest figures of the report, for every histogram over class
    codes and every ground-truth area that is not negative, in both copies:
    the two forest areas are not negative and add up exactly to
    [forest_area_km2]; without forest both shares are 0; with forest each
    share lies between 0 and 100 and the two add up to 100 up to the
    rounding to five decimals. *)
Theorem forest_shares_add_up :
  forall (copy : Copy) (hist : Histogram) (total_area : Q)
         (image_date : string),
    class_code_histogram hist ->
    0 <= total_area ->
    exists stats,
      area_statistics copy hist total_area image_date = ok stats
      /\ 0 <= natural_forest_km2 stats
      /\ 0 <= other_trees_km2 stats
      /\ forest_area_km2 stats
         == natural_forest_km2 stats + other_trees_km2 stats
      /\ (forest_area_km2 stats == 0 ->
          natural_forest_percentage stats = 0
          /\ other_trees_percentage stats = 0)
      /\ (0 < forest_area_km2 stats ->
          0 <= natural_forest_percentage stats
          /\ natural_forest_percentage stats <= 100
          /\ 0 <= other_trees_percentage stats
          /\ other_trees_percentage stats <= 100
          /\ 100 - (1 # 100000)
             <= natural_forest_percentage stats + other_trees_percentage stats
          /\ natural_forest_percentage stats + other_trees_percentage stats
             <= 100 + (1 # 100000)).
Proof.
  intros copy hist total_area image_date Hhist Htotal.
  pose proof Hhist as [Hnd Hcodes].
  pose proof (area_statistics_fields copy hist total_area image_date Hhist)
    as Hfields.
  cbv zeta in Hfields.
  pose proof (areas_of_histogram_rounded hist total_area Hcodes) as Hround.
  set (areas := areas_of_histogram Backend hist total_area) in *.
  assert (Hall : forall name,
             round5 (area_of areas name) = area_of areas name
             /\ 0 <= area_of areas name).
  { intros name.
    apply (area_of_forall (fun v => round5 v = v /\ 0 <= v));
      [split; [reflexivity | discriminate]|].
    eapply Forall_impl; [|exact Hround].
    intros kv [H1 H2]; split; [exact H1 | now apply H2]. }
  destruct (Hall "natural_forest"%string) as [Hrn Hn].
  destruct (Hall "trees"%string) as [Hrt Ht].
  set (nf := area_of areas "natural_forest") in *.
  set (tree := area_of areas "trees") in *.
  clearbody nf tree.
  pose proof (round5_sum nf tree Hrn Hrt) as Hforest.
  rewrite Hrn, Hrt in Hfields.
  rewrite (nonzero_positive copy (nf + tree)) in Hfields by lra.
  eexists; split; [exact Hfields|].
  cbn [natural_forest_km2 other_trees_km2 forest_area_km2
       natural_forest_percentage other_trees_percentage].
  split; [exact Hn|]; split; [exact Ht|]; split; [exact Hforest|].
  split.
  - intros Hzero.
    assert (E : Qlt_bool 0 (nf + tree) = false).
    { destruct (Qlt_bool 0 (nf + tree)) eqn:E; [|reflexivity].
      apply Qlt_bool_iff in E; lra. }
    rewrite E; split; reflexivity.
  - intros Hpos.
    assert (Htf : 0 < nf + tree) by lra.
    assert (E : Qlt_bool 0 (nf + tree) = true) by now apply Qlt_bool_iff.
    rewrite E.
    assert (Hp0 : 0 <= nf / (nf + tree) * 100).
    { apply Qmult_le_0_compat; [|discriminate].
      apply Qle_shift_div_l; [exact Htf | lra]. }
    assert (Hq0 : 0 <= tree / (nf + tree) * 100).
    { apply Qmult_le_0_compat; [|discriminate].
      apply Qle_shift_div_l; [exact Htf | lra]. }
    pose proof (shares_of_a_sum nf tree Htf) as Hsum100.
    pose proof (round5_near (nf / (nf + tree) * 100)) as [Hp1 Hp2].
    pose proof (round5_near (tree / (nf + tree) * 100)) as [Hq1 Hq2].
    pose proof (round5_nonneg _ Hp0) as Hrp0.
    pose proof (round5_nonneg _ Hq0) as Hrq0.
    assert (Hrp100 : round5 (nf / (nf + tree) * 100) <= 100).
    { change 100 with (inject_Z 100) at 2; apply round5_le.
      change (inject_Z 100) with 100; lra. }
    assert (Hrq100 : round5 (tree / (nf + tree) * 100) <= 100).
    { change 100 with (inject_Z 100) at 2; apply round5_le.
      change (inject_Z 100) with 100; lra. }
    repeat split; try assumption; lra.
Qed.

Lemma forest_shares_add_up_witness :
  exists stats,
    area_statistics Legacy spec_histogram 100 "2024-05-03" = ok stats
    /\ forest_area_km2 stats
       == natural_forest_km2 stats + other_trees_km2 stats
    /\ 0 <= natural_forest_percentage stats.
Proof.
  destruct (forest_shares_add_up Legacy spec_histogram 100 "2024-05-03")
    as (stats & Hs & _ & _ & Hsum & _ & Hshares).
  - split.
    + repeat constructor; simpl; intuition discriminate.
    + repeat constructor; simpl; try lia; discriminate.
  - discriminate.
  - exists stats; split; [exact Hs|]; split; [exact Hsum|].
    apply Hshares.
    vm_compute in Hs; injection Hs as <-; vm_compute; reflexivity.
Defined.

(** ** FetchCoordinator: the budget of download attempts *)

(** Between the two stores [tries] download attempts were started and
    [sleeps] two-second pauses taken; no file was written and nothing
    uploaded. *)
Definition fetched (tries sleeps : nat) (s s' : Store) : Prop :=
  attempts s' = (tries + attempts s)%nat
  /\ slept s' = repeat 2 sleeps ++ slept s
  /\ same_outputs s s'.

Lemma fetched_nothing (s s' : Store) :
  attempts s' = attempts s -> slept s' = slept s -> same_outputs s s' ->
  fetched 0 0 s s'.
Proof. intros Ha Hs Ho; repeat split; try assumption; apply Ho. Qed.

Lemma fetched_trans (a b a' b' : nat) (s1 s2 s3 : Store) :
  fetched a b s1 s2 -> fetched a' b' s2 s3 ->
  fetched (a' + a) (b' + b) s1 s3.
Proof.
  intros (Ha & Hs & Ho) (Ha' & Hs' & Ho').
  split; [lia|]; split; [|exact (same_outputs_trans _ _ _ Ho Ho')].
  now rewrite Hs', Hs, repeat_app, app_assoc.
Qed.

Lemma after_fetch_fetched (tries sleeps : nat) (s : Store) :
  fetched tries sleeps s (after_fetch tries sleeps s).
Proof. repeat split. Qed.

(** The retry loop never raises, makes at most one attempt per element of
    its range, and pauses after each attempt but a successful one. *)
Lemma retry_loop_budget (attempt_of : Z -> Attempt) (retries : list Z)
      (s : Store) :
  exists (o : option Image) (tries sleeps : nat),
    retry_loop attempt_of retries s = (ok o, after_fetch tries sleeps s)
    /\ (tries <= List.length retries)%nat
    /\ match o with
       | Some _ => tries = S sleeps
       | None => tries = List.length retries /\ sleeps = tries
       end.
Proof.
  revert s; induction retries as [|retry rest IH]; intros s.
  - exists None, 0%nat, 0%nat; rewrite after_fetch_0.
    repeat split; apply Nat.le_refl.
  - destruct (succeeds (attempt_of retry)) as [img|] eqn:E.
    + exists (Some img), 1%nat, 0%nat.
      rewrite (retry_loop_succeeded _ _ _ _ _ E).
      split; [now destruct s|]; split; [cbn [List.length]; lia | reflexivity].
    + destruct (IH (log_sleep 2 (tick_attempt s)))
        as (o & tries & sleeps & Hrun & Hle & Ho).
      exists o, (S tries), (S sleeps).
      rewrite (retry_loop_failed _ _ _ _ E), Hrun, after_fetch_failed.
      split; [reflexivity|]; split; [cbn [List.length]; lia|].
      destruct o; cbn [List.length]; lia.
Qed.

Lemma process_sub_polygon_budget (X : Externals) (W : World)
      (args : Z * Box) (s : Store) :
  exists tries sleeps,
    fetched tries sleeps s (snd (process_sub_polygon X W args s))
    /\ (sleeps <= tries <= 3)%nat.
Proof.
  destruct args as [idx rect].
  unfold process_sub_polygon, bind.
  destruct (shapely_to_ee X (x_box_wkt X rect) s) as [[e|g] s1] eqn:E;
    pose proof (shapely_to_ee_outputs X _ _ _ _ E) as Ho;
    pose proof (shapely_to_ee_fetches_nothing X _ _ _ _ E) as [Ha Hs].
  - exists 0%nat, 0%nat; split; [now apply fetched_nothing | lia].
  - unfold export_sub_polygon_as_png.
    destruct (retry_loop_budget (w_tile_attempt W rect)
                (py_range default_max_retries) s1)
      as (o & tries & sleeps & Hrun & Hle & Hcount).
    rewrite Hrun.
    exists tries, sleeps; split.
    + pose proof (fetched_trans _ _ _ _ _ _ _
                    (fetched_nothing _ _ Ha Hs Ho)
                    (after_fetch_fetched tries sleeps s1)) as Hf.
      rewrite !Nat.add_0_r in Hf.
      destruct o; exact Hf.
    + change (List.length (py_range default_max_retries)) with 3%nat in *.
      destruct o; lia.
Qed.

Lemma run_workers_budget (X : Externals) (W : World)
      (args : list (Z * Box)) (s : Store) :
  exists futures s' tries sleeps,
    run_workers X W args s = (ok futures, s')
    /\ fetched tries sleeps s s'
    /\ (sleeps <= tries <= 3 * List.length args)%nat.
Proof.
  revert s; induction args as [|a rest IH]; intros s.
  - exists [], s, 0%nat, 0%nat; split; [reflexivity|].
    split; [|cbn [List.length]; lia].
    apply fetched_nothing; try reflexivity; apply same_outputs_refl.
  - destruct (process_sub_polygon_budget X W a s)
      as (t1 & p1 & Hf1 & Hb1).
    destruct (process_sub_polygon X W a s) as [r s1] eqn:E.
    cbn [snd] in Hf1.
    destruct (IH s1) as (futures & s2 & t2 & p2 & Hrun & Hf2 & Hb2).
    exists (r :: futures), s2, (t2 + t1)%nat, (p2 + p1)%nat.
    split; [|split].
    + cbn [run_workers]; unfold bind, capture, ret.
      rewrite E, Hrun; reflexivity.
    + exact (fetched_trans _ _ _ _ _ _ _ Hf1 Hf2).
    + cbn [List.length]; lia.
Qed.

Lemma merge_fetches_nothing (copy : Copy) (X : Externals)
      (boundary_box : Box) (polygon : Geometry) (results : list TileResult)
      (dir : string) (image_date : Date) (s : Store) :
  attempts (snd (merge_images_properly copy X boundary_box polygon results
                   dir image_date s)) = attempts s
  /\ slept (snd (merge_images_properly copy X boundary_box polygon results
                   dir image_date s)) = slept s
  /\ s3_objects (snd (merge_images_properly copy X boundary_box polygon
                        results dir image_date s)) = s3_objects s.
Proof.
  unfold merge_images_properly.
  destruct results as [|r rs]; [now cbn|].
  destruct (canvas_size copy (x_cos_deg X) boundary_box) as [w_px h_px].
  unfold bind, lift, modify, ret.
  destruct (paste_tiles copy boundary_box w_px h_px (r :: rs));
    [now cbn|].
  destruct (create_boundary_mask boundary_box w_px h_px
              (exterior_rings polygon)); now cbn.
Qed.

(** X22. Whatever the provider answers, [process_and_export_image] starts
    at most three download attempts per planned tile and takes at most one
    two-second pause per attempt; it uploads nothing. *)
Theorem fetch_budget :
  forall (copy : Copy) (X : Externals) (W : World) (boundary_box : Box)
         (polygon : Geometry) (image_date : Date) (dir : string)
         (tiles : list Box) (s : Store),
    split_boundary_box (x_cos_deg X) (x_intersects X) polygon boundary_box 30
    = ok tiles ->
    exists tries sleeps,
      (sleeps <= tries <= 3 * List.length tiles)%nat
      /\ attempts (snd (process_and_export_image copy X W boundary_box
                          polygon image_date dir s))
         = (tries + attempts s)%nat
      /\ slept (snd (process_and_export_image copy X W boundary_box polygon
                       image_date dir s))
         = repeat 2 sleeps ++ slept s
      /\ s3_objects (snd (process_and_export_image copy X W boundary_box
                            polygon image_date dir s))
         = s3_objects s.
Proof.
  intros copy X W boundary_box polygon image_date dir tiles s Hsplit.
  unfold process_and_export_image, bind, lift.
  rewrite Hsplit; unfold ok; cbv beta iota zeta.
  destruct tiles as [|t ts].
  { exists 0%nat, 0%nat; cbn [snd throw List.length repeat app]; repeat split; lia. }
  destruct (run_workers_budget X W (enumerate_from 0 (t :: ts)) s)
    as (futures & s1 & tries & sleeps & Hrun & (Ha & Hs & Ho) & Hb).
  rewrite Hrun; unfold ok; cbv beta iota zeta.
  rewrite enumerate_from_length in Hb.
  exists tries, sleeps; split; [exact Hb|].
  assert (Hmerge : forall results,
             attempts (snd (merge_images_properly copy X boundary_box polygon
                              results dir image_date s1))
             = (tries + attempts s)%nat
             /\ slept (snd (merge_images_properly copy X boundary_box polygon
                              results dir image_date s1))
                = repeat 2 sleeps ++ slept s
             /\ s3_objects (snd (merge_images_properly copy X boundary_box
                                   polygon results dir image_date s1))
                = s3_objects s).
  { intros results.
    destruct (merge_fetches_nothing copy X boundary_box polygon results dir
                image_date s1) as (H1 & H2 & H3).
    rewrite H1, H2, H3; destruct Ho as [_ Ho]; auto. }
  destruct copy; [apply Hmerge|].
  destruct (harvest W futures) as [|r rs]; [|apply Hmerge].
  cbn [snd ret]; destruct Ho as [_ Ho]; auto.
Qed.

Lemma fetch_budget_witness :
  exists tries sleeps,
    (sleeps <= tries <= 3)%nat
    /\ attempts (snd (process_and_export_image Backend equator
                        (world_with [hazy_scene])
                        (bbox_of example_user_data) equator_square may_3
                        output_dir empty_store))
       = (tries + 0)%nat.
Proof.
  destruct (fetch_budget Backend equator (world_with [hazy_scene])
              (bbox_of example_user_data) equator_square may_3 output_dir
              [bbox_of example_user_data] empty_store)
    as (tries & sleeps & Hb & Ha & _).
  - vm_compute; reflexivity.
  - exists tries, sleeps; split; [exact Hb | exact Ha].
Defined.

(** ** A run that plans no tile *)

Lemma get_protected_areas_fetches_nothing (X : Externals) (w : string)
      (d : Date) (s s' : Store) (r : Res Mask) :
  get_protected_areas X w d s = (r, s') ->
  attempts s' = attempts s /\ slept s' = slept s.
Proof.
  unfold get_protected_areas, lru_cached.
  destruct (lru_find pa_key_eqb (w, d) (pa_cache s)).
  - intros H; inversion H; subst; now split.
  - unfold get_protected_areas_body, bind, modify, ret.
    destruct (shapely_to_ee X w s) as [[e|g] s1] eqn:E;
      apply shapely_to_ee_fetches_nothing in E; destruct E as [Ha Hs];
      intros H; inversion H; subst; split; cbn; assumption.
Qed.

(** The run up to the export of the image: the statistics file is written,
    and what the export returns or raises decides the rest. *)
Lemma run_reaches_export (copy : Copy) (X : Externals) (W : World)
      (ud : UserData) (g : Geometry) (scenes : list Scene)
      (first_image : Scene) (rest : list Scene) (size : Z)
      (answer : option Histogram) (stats : Stats) (dir : string) (s : Store) :
  w_user_data W = ok ud ->
  x_wkt_loads X (x_wkt X (ud_city_geometry ud)) = ok g ->
  w_scenes W = ok scenes ->
  s2_collection scenes = first_image :: rest ->
  cloudy_pixel_percentage first_image <= cloud_threshold copy ->
  w_dw_size W = ok size -> size <> 0%Z ->
  w_histogram W = ok answer ->
  area_statistics copy (match answer with Some h => h | None => [] end)
    (ud_area ud) (date_str (time_start first_image)) = ok stats ->
  exists s2,
    same_outputs s s2
    /\ attempts s2 = attempts s
    /\ process_natural_forest_classification copy X W dir s
       = match process_and_export_image copy X W (bbox_of ud)
                 (ud_city_geometry ud) (time_start first_image) dir
                 (log_file (stats_path dir (time_start first_image))
                    (StatsFile stats) s2) with
         | (inl e, s4) => (inl e, s4)
         | (inr image_file, s4) =>
             (ok (Some (image_file,
                        stats_path dir (time_start first_image),
                        time_start first_image), bbox_of ud), s4)
         end.
Proof.
  intros Hud Hload Hscenes Hs2 Hcloud Hdw Hsize Hhist Hstats.
  set (d := time_start first_image) in *.
  destruct (shapely_to_ee_returns X _ g s Hload) as (e & s1 & He).
  pose proof (shapely_to_ee_outputs X _ s s1 _ He) as Ho1.
  pose proof (shapely_to_ee_fetches_nothing X _ s s1 _ He) as [Ha1 _].
  destruct (get_protected_areas_returns X _ d g s1 Hload)
    as (m & s2 & Hpa & Ho2).
  pose proof (get_protected_areas_fetches_nothing X _ _ _ _ _ Hpa)
    as [Ha2 _].
  exists s2.
  split; [exact (same_outputs_trans _ _ _ Ho1 Ho2)|].
  split; [congruence|].
  unfold process_natural_forest_classification, load_boundary, bind, lift,
    ret.
  rewrite Hud; unfold ok; cbv beta iota.
  rewrite He, Hscenes; unfold ok; cbv beta iota.
  rewrite Hs2.
  assert (Hc : match copy with
               | Backend => Qlt_bool 1 (cloudy_pixel_percentage first_image)
               | Legacy => false
               end = false).
  { destruct copy; [|reflexivity].
    cbn [cloud_threshold] in Hcloud.
    destruct (Qlt_bool 1 (cloudy_pixel_percentage first_image)) eqn:E;
      [|reflexivity].
    apply Qlt_bool_iff in E; lra. }
  rewrite Hc, Hdw; unfold ok; cbv beta iota.
  rewrite (proj2 (Z.eqb_neq _ _) Hsize).
  fold d; rewrite Hpa; unfold ok; cbv beta iota.
  unfold calculate_area_statistics, bind, lift, modify, ret.
  rewrite Hhist; unfold ok; cbv beta iota zeta.
  fold d in Hstats; rewrite Hstats; unfold ok; cbv beta iota.
  fold (stats_path dir d).
  change (box (ud_bbox_west ud) (ud_bbox_south ud) (ud_bbox_east ud)
            (ud_bbox_north ud)) with (bbox_of ud).
  destruct (process_and_export_image copy X W (bbox_of ud)
              (ud_city_geometry ud) d dir
              (log_file (stats_path dir d) (StatsFile stats) s2))
    as [[e0|image_file] s4]; reflexivity.
Qed.

(** X23. When no cell of the grid intersects the polygon, so that
    [split_boundary_box] returns no tile, [process_and_export_image] asks
    for a pool of zero workers and raises [ValueError]; an [analysis]
    request that got this far is answered with status 500, in both copies,
    after the statistics file was written: no download is attempted, no
    image is written and nothing is uploaded. *)
Theorem no_tile_is_an_error :
  forall (copy : Copy) (X : Externals) (W : World) (event : Event)
         (ud : UserData) (g : Geometry) (scenes : list Scene)
         (first_image : Scene) (rest : list Scene) (size : Z)
         (answer : option Histogram) (stats : Stats) (name : string)
         (s : Store),
    String.eqb (ev_method event) "OPTIONS" = false ->
    ev_operation event = "analysis"%string ->
    ev_filename event = Some name -> name <> EmptyString ->
    w_setup W = ok tt ->
    w_user_data W = ok ud ->
    x_wkt_loads X (x_wkt X (ud_city_geometry ud)) = ok g ->
    w_scenes W = ok scenes ->
    s2_collection scenes = first_image :: rest ->
    cloudy_pixel_percentage first_image <= cloud_threshold copy ->
    w_dw_size W = ok size -> size <> 0%Z ->
    w_histogram W = ok answer ->
    area_statistics copy (match answer with Some h => h | None => [] end)
      (ud_area ud) (date_str (time_start first_image)) = ok stats ->
    split_boundary_box (x_cos_deg X) (x_intersects X) (ud_city_geometry ud)
      (bbox_of ud) 30 = ok [] ->
    (forall s0,
        process_and_export_image copy X W (bbox_of ud) (ud_city_geometry ud)
          (time_start first_image) output_dir s0
        = (raise ValueError, s0))
    /\ exists s',
        lambda_handler copy X W event s
        = (mkResponse 500 (BodyException ValueError), s')
        /\ files s'
           = (stats_path output_dir (time_start first_image), StatsFile stats)
             :: files s
        /\ s3_objects s' = s3_objects s
        /\ attempts s' = attempts s.
Proof.
  intros copy X W event ud g scenes first_image rest size answer stats name
         s Hmethod Hop Hname Hnonempty Hsetup Hud Hload Hscenes Hs2 Hcloud
         Hdw Hsize Hhist Hstats Hsplit.
  assert (Hexport : forall s0,
             process_and_export_image copy X W (bbox_of ud)
               (ud_city_geometry ud) (time_start first_image) output_dir s0
             = (raise ValueError, s0)).
  { intros s0; unfold process_and_export_image, bind, lift.
    now rewrite Hsplit. }
  split; [exact Hexport|].
  destruct (run_reaches_export copy X W ud g scenes first_image rest size
              answer stats output_dir s Hud Hload Hscenes Hs2 Hcloud Hdw
              Hsize Hhist Hstats) as (s2 & [Hf Hs] & Ha & Hrun).
  rewrite Hexport in Hrun.
  eexists; split; [|split; [|split]].
  - unfold lambda_handler.
    replace (match copy with
             | Backend => String.eqb (ev_method event) "OPTIONS"
             | Legacy => false
             end) with false
      by (destruct copy; [now rewrite Hmethod | reflexivity]).
    unfold dispatch; rewrite Hop; cbn [String.eqb Ascii.eqb Bool.eqb].
    unfold analysis; rewrite Hname.
    destruct name as [|c name']; [contradiction|].
    unfold bind, lift; rewrite Hsetup, Hrun; reflexivity.
  - cbn [files log_file]; now rewrite Hf.
  - cbn [s3_objects log_file]; exact Hs.
  - cbn [attempts log_file]; exact Ha.
Qed.

(** A provider for which no rectangle meets the polygon, and a document
    whose bounding box spans a degree. *)
Definition nowhere : Externals :=
  mkExternals (x_cos_deg equator) (fun _ _ => false) (x_wkt equator)
    (x_box_wkt equator) (x_wkt_loads equator) (x_collection_ok equator)
    (x_fmt_signed equator) (x_presign equator).

Definition degree_world : World :=
  mkWorld (ok tt)
    (ok (mkUserData 100 equator_square 0 (-(1 # 2)) 1 (1 # 2)))
    (ok [mkScene (1 # 2) may_3]) (ok 3%Z) (ok (Some spec_histogram))
    always_503 [].

Lemma no_tile_is_an_error_witness :
  exists s',
    lambda_handler Legacy nowhere degree_world example_event empty_store
    = (mkResponse 500 (BodyException ValueError), s')
    /\ s3_objects s' = []
    /\ attempts s' = 0%nat.
Proof.
  destruct (area_statistics Legacy spec_histogram 100 (date_str may_3))
    as [e|stats] eqn:E; [vm_compute in E; discriminate|].
  assert (Hs2 : s2_collection [mkScene (1 # 2) may_3]
                = [mkScene (1 # 2) may_3]) by (vm_compute; reflexivity).
  assert (Hsplit : split_boundary_box (x_cos_deg nowhere)
                     (x_intersects nowhere) equator_square degree_box 30
                   = ok []) by (vm_compute; reflexivity).
  destruct (no_tile_is_an_error Legacy nowhere degree_world example_event
              (mkUserData 100 equator_square 0 (-(1 # 2)) 1 (1 # 2))
              equator_square [mkScene (1 # 2) may_3]
              (mkScene (1 # 2) may_3) [] 3 (Some spec_histogram) stats
              "boundary.json" empty_store eq_refl eq_refl eq_refl
              ltac:(discriminate) eq_refl eq_refl eq_refl eq_refl Hs2
              ltac:(discriminate) eq_refl ltac:(discriminate) eq_refl E
              Hsplit)
    as (_ & s' & Hh & _ & Hs & Ha).
  exists s'; split; [exact Hh | split; [exact Hs | exact Ha]].
Defined.

(** ** What an answer tells about the effects of the request *)

Lemma process_and_export_image_uploads_nothing (copy : Copy) (X : Externals)
      (W : World) (boundary_box : Box) (polygon : Geometry)
      (image_date : Date) (dir : string) (s : Store) :
  s3_objects (snd (process_and_export_image copy X W boundary_box polygon
                     image_date dir s)) = s3_objects s.
Proof.
  unfold process_and_export_image, bind, lift.
  destruct (split_boundary_box (x_cos_deg X) (x_intersects X) polygon
              boundary_box 30) as [e|[|t ts]]; [reflexivity..|].
  destruct (run_workers_budget X W (enumerate_from 0 (t :: ts)) s)
    as (futures & s1 & tries & sleeps & Hrun & (_ & _ & _ & Ho) & _).
  rewrite Hrun; unfold ok; cbv beta iota zeta.
  assert (Hmerge : forall results,
             s3_objects (snd (merge_images_properly copy X boundary_box
                                polygon results dir image_date s1))
             = s3_objects s).
  { intros results.
    destruct (merge_fetches_nothing copy X boundary_box polygon results dir
                image_date s1) as (_ & _ & H3).
    now rewrite H3. }
  destruct copy; [apply Hmerge|].
  destruct (harvest W futures) as [|r rs]; [exact Ho | apply Hmerge].
Qed.

(** The run uploads nothing; when it returns [None] it has written no file
    and attempted no download. *)
Lemma run_effects (copy : Copy) (X : Externals) (W : World) (dir : string)
      (s : Store) :
  s3_objects (snd (process_natural_forest_classification copy X W dir s))
  = s3_objects s
  /\ (forall boundary_box,
         fst (process_natural_forest_classification copy X W dir s)
         = ok (None, boundary_box) ->
         files (snd (process_natural_forest_classification copy X W dir s))
         = files s
         /\ attempts (snd (process_natural_forest_classification copy X W
                             dir s)) = attempts s).
Proof.
  unfold process_natural_forest_classification, load_boundary, bind, lift, ret.
  destruct (w_user_data W) as [e|ud]; unfold ok; cbv beta iota.
  { split; [reflexivity | discriminate]. }
  destruct (shapely_to_ee X (x_wkt X (ud_city_geometry ud)) s)
    as [[e|g] s1] eqn:E1;
    pose proof (shapely_to_ee_outputs X _ _ _ _ E1) as [Hf1 Hs1];
    pose proof (shapely_to_ee_fetches_nothing X _ _ _ _ E1) as [Ha1 _].
  { split; [exact Hs1 | discriminate]. }
  destruct (w_scenes W) as [e|scenes]; [split; [exact Hs1 | discriminate]|].
  destruct (s2_collection scenes) as [|first_image rest];
    [split; [exact Hs1 | intros; split; assumption]|].
  destruct (match copy with
            | Backend => Qlt_bool 1 (cloudy_pixel_percentage first_image)
            | Legacy => false
            end); [split; [exact Hs1 | intros; split; assumption]|].
  destruct (w_dw_size W) as [e|dw_size]; [split; [exact Hs1 | discriminate]|].
  destruct (dw_size =? 0)%Z;
    [split; [exact Hs1 | intros; split; assumption]|].
  destruct (get_protected_areas X (x_wkt X (ud_city_geometry ud))
              (time_start first_image) s1) as [[e|mask] s2] eqn:E2;
    pose proof (get_protected_areas_outputs X _ _ _ _ _ E2) as [Hf2 Hs2].
  { split; [cbn [snd]; congruence | discriminate]. }
  destruct (calculate_area_statistics copy W (ud_area ud)
              (time_start first_image) dir s2) as [[e|stats] s3] eqn:E3;
    pose proof (calculate_area_statistics_outputs _ _ _ _ _ _ _ _ E3)
      as [Hs3 _].
  { split; [cbn [snd]; congruence | discriminate]. }
  pose proof (process_and_export_image_uploads_nothing copy X W
                (box (ud_bbox_west ud) (ud_bbox_south ud) (ud_bbox_east ud)
                   (ud_bbox_north ud))
                (ud_city_geometry ud) (time_start first_image) dir s3) as Hs4.
  destruct (process_and_export_image copy X W _ _ _ _ s3)
    as [[e|image_file] s4]; cbn [snd] in Hs4 |- *;
    (split; [congruence | discriminate]).
Qed.

(** X24. What the status of an answer tells, whatever the request and the
    outside: with status 400 no file was written, nothing was uploaded and
    no download was attempted; with status 200 the request was either an
    upload request, which changes nothing, or an analysis that uploaded
    exactly two objects; and no request uploads more than two objects. *)
Theorem uploads_only_on_the_way_to_success :
  forall (copy : Copy) (X : Externals) (W : World) (event : Event)
         (s : Store),
    let response := fst (lambda_handler copy X W event s) in
    let s' := snd (lambda_handler copy X W event s) in
    (statusCode response = 400%Z ->
     files s' = files s /\ s3_objects s' = s3_objects s
     /\ attempts s' = attempts s)
    /\ (statusCode response = 200%Z ->
        (ev_operation event = "upload"%string /\ s' = s)
        \/ (ev_operation event = "analysis"%string
            /\ exists image_key image_file stats_key stats_file,
                s3_objects s'
                = (stats_key, stats_file) :: (image_key, image_file)
                  :: s3_objects s))
    /\ (exists uploaded,
           s3_objects s' = uploaded ++ s3_objects s
           /\ (List.length uploaded <= 2)%nat).
Proof.
  intros copy X W event s response s'; subst response s'.
  assert (Hnone : forall st : Store,
             exists uploaded : list (string * string),
               s3_objects st = uploaded ++ s3_objects st
               /\ (List.length uploaded <= 2)%nat).
  { intros st; exists []; split; [reflexivity | cbn; lia]. }
  unfold lambda_handler.
  destruct (match copy with
            | Backend => String.eqb (ev_method event) "OPTIONS"
            | Legacy => false
            end).
  { cbn [fst snd statusCode].
    split; [discriminate|]; split; [discriminate | apply Hnone]. }
  unfold dispatch.
  destruct (String.eqb (ev_operation event) "upload") eqn:Hup.
  { apply String.eqb_eq in Hup.
    unfold upload, bind, lift, ret.
    destruct (x_presign X _ _); cbn [fst snd statusCode].
    - split; [discriminate|]; split; [discriminate | apply Hnone].
    - split; [discriminate|]; split; [intros _; left; now split|].
      apply Hnone. }
  destruct (String.eqb (ev_operation event) "analysis") eqn:Han.
  2:{ cbn [fst snd statusCode].
      split; [intros _; repeat split|]; split; [discriminate | apply Hnone]. }
  apply String.eqb_eq in Han.
  unfold analysis.
  destruct (ev_filename event) as [[|c name]|];
    try (cbn [ret fst snd statusCode];
         split; [intros _; repeat split|];
         split; [discriminate | apply Hnone]).
  unfold bind, lift.
  destruct (w_setup W) as [e|u].
  { cbn [fst snd statusCode].
    split; [discriminate|]; split; [discriminate | apply Hnone]. }
  destruct (run_effects copy X W output_dir s) as [Hs3 Hnothing].
  destruct (process_natural_forest_classification copy X W output_dir s)
    as [[e|[[[[image_file stats_file] image_date]|] boundary_box]] s1];
    cbn [fst snd] in Hs3, Hnothing.
  - cbn [fst snd statusCode].
    split; [discriminate|]; split; [discriminate|].
    exists []; split; [exact Hs3 | cbn; lia].
  - unfold upload_file.
    destruct image_file as [image_file|]; unfold throw, modify, ok, raise;
      cbv beta iota.
    2:{ cbn [fst snd statusCode].
        split; [discriminate|]; split; [discriminate|].
        exists []; split; [exact Hs3 | cbn; lia]. }
    destruct (x_presign X _ _) as [e|url].
    { cbn [fst snd statusCode].
      split; [discriminate|]; split; [discriminate|].
      eexists [_; _]; split; [|cbn; lia].
      cbn [s3_objects log_upload app]; now rewrite Hs3. }
    unfold read_stats.
    destruct (find _ _) as [[p [| stats]]|]; unfold ret, ok, raise;
      cbn [fst snd statusCode].
    + split; [discriminate|]; split; [discriminate|].
      eexists [_; _]; split; [|cbn; lia].
      cbn [s3_objects log_upload app]; now rewrite Hs3.
    + split; [discriminate|].
      split.
      * intros _; right; split; [exact Han|].
        do 4 eexists.
        cbn [s3_objects log_upload]; now rewrite Hs3.
      * eexists [_; _]; split; [|cbn; lia].
        cbn [s3_objects log_upload app]; now rewrite Hs3.
    + split; [discriminate|]; split; [discriminate|].
      eexists [_; _]; split; [|cbn; lia].
      cbn [s3_objects log_upload app]; now rewrite Hs3.
  - cbn [fst snd statusCode too_cloudy_response].
    destruct (Hnothing boundary_box eq_refl) as [Hf Ha].
    split; [intros _; repeat split; assumption|].
    split; [discriminate|].
    exists []; split; [exact Hs3 | cbn; lia].
Qed.
